(** * The anti-banner service of the AdGuard browser extension

    A shallow embedding of [Extension/lib/filter/antibanner.js]: the
    closure variables of [antiBannerService] become one [State] record,
    every operation in flight (a storage read, an engine start, a deferred
    [then]) is a [Task], and the environment drives the service through
    [Op]s.  Observable calls to collaborators are appended to a trace. *)

From Stdlib Require Import String Ascii ZArith Lia Sorted.
From stdpp Require Import base option list gmap strings.

Local Open Scope string_scope.
Local Open Scope list_scope.

(** ** Strings: [Array.prototype.join] and [String.prototype.split] on line feeds *)

Definition lineFeedChar : ascii := ascii_of_nat 10.
Definition lineFeed : string := String lineFeedChar EmptyString.

(** [arr.join('\n')] *)
Definition join (lines : list string) : string := String.concat lineFeed lines.

(** [text.split('\n')]: the empty text splits into one empty line. *)
Fixpoint split (text : string) : list string :=
  match text with
  | EmptyString => [EmptyString]
  | String c rest =>
      if Ascii.eqb c lineFeedChar then EmptyString :: split rest
      else match split rest with
           | [] => [String c EmptyString]
           | line :: lines => String c line :: lines
           end
  end.

(** ** Events of the notifier *)

(** The event names of [listeners] (declared in [../notifier]) are pairwise
    distinct constants. *)
Inductive EventType :=
  | ADD_RULES
  | REMOVE_RULE
  | UPDATE_FILTER_RULES
  | FILTER_ENABLE_DISABLE
  | FILTER_GROUP_ENABLE_DISABLE
  | UPDATE_USER_FILTER_RULES
  | REQUEST_FILTER_UPDATED
  | APPLICATION_INITIALIZED
  | APPLICATION_UPDATED
  | FILTER_ADD_REMOVE.

#[global] Instance EventType_eq_dec : EqDecision EventType.
Proof. solve_decision. Defined.

(** What [applicationUpdateService.getRunInfo] reports. *)
Record RunInfo := {
  isFirstRun : bool;
  isUpdate : bool
}.

#[global] Instance RunInfo_eq_dec : EqDecision RunInfo.
Proof. solve_decision. Defined.

(** The first argument handed to a listener: a filter object, a group
    object, the request filter info [{ rulesCount }], the run info, or
    nothing. *)
Inductive Arg :=
  | AFilter (filterId : nat)
  | AGroup (groupId : nat)
  | AInfo (rulesCount : nat)
  | ARunInfo (runInfo : RunInfo)
  | ANone.

#[global] Instance Arg_eq_dec : EqDecision Arg.
Proof. solve_decision. Defined.

(** JavaScript truthiness of such an argument. *)
Definition truthy (a : Arg) : bool :=
  match a with ANone => false | _ => true end.

(** [a.filterId] as a property name: [None] is the name ["undefined"]. *)
Definition filterIdOf (a : Arg) : option nat :=
  match a with AFilter id => Some id | _ => None end.

(** An entry of [filterEventsHistory]: [{ event, filter, rules }] for filter
    events and [{ event, group }] for group events. *)
Record FilterEvent := {
  event : EventType;
  ev_filter : Arg;
  rules : list string;
  group : Arg
}.

(** [arr.indexOf(x)], -1 when [x] is absent. *)
Fixpoint indexOf (arr : list EventType) (x : EventType) : Z :=
  match arr with
  | [] => (-1)%Z
  | y :: arr' =>
      if decide (y = x) then 0%Z
      else let i := indexOf arr' x in
           if (i <? 0)%Z then (-1)%Z else (i + 1)%Z
  end.

Definition UPDATE_REQUEST_FILTER_EVENTS : list EventType :=
  [UPDATE_FILTER_RULES; FILTER_ENABLE_DISABLE; FILTER_GROUP_ENABLE_DISABLE;
   UPDATE_USER_FILTER_RULES].

Definition isUpdateRequestFilterEvent (el : FilterEvent) : bool :=
  (0 <=? indexOf UPDATE_REQUEST_FILTER_EVENTS (event el))%Z.

Definition SAVE_FILTER_RULES_TO_STORAGE_EVENTS : list EventType :=
  [UPDATE_FILTER_RULES; ADD_RULES; REMOVE_RULE].

Definition isSaveRulesToStorageEvent (el : FilterEvent) : bool :=
  (0 <=? indexOf SAVE_FILTER_RULES_TO_STORAGE_EVENTS (event el))%Z.

(** ** The subscription registry and the persisted filter state *)

Record Filter := {
  filterId : nat;
  groupId : nat;
  enabled : bool;
  installed : bool;
  loaded : bool;
  version : string;
  lastCheckTime : nat;
  lastUpdateTime : nat;
  expires : nat
}.

Record Group := {
  g_groupId : nat;
  g_enabled : bool
}.

Record VersionInfo := {
  vi_version : string;
  vi_lastCheckTime : nat;
  vi_lastUpdateTime : nat;
  vi_expires : nat
}.

Record StateInfo := {
  si_enabled : bool;
  si_installed : bool;
  si_loaded : bool
}.

(** [subscriptions.getGroup(groupId)]: the registered group, if any. *)
Definition getGroup (gs : list Group) (id : nat) : option Group :=
  List.find (fun g => Nat.eqb (g_groupId g) id) gs.

(** [utils.filters.USER_FILTER_ID] is declared in [../utils/common]; its
    value is a parameter, and so is whether it is a number or a string. *)
Inductive JsId :=
  | IdNumber (n : nat)
  | IdString (n : nat).

Definition idValue (i : JsId) : nat :=
  match i with IdNumber n | IdString n => n end.

(** [key == id] for a property name [key] that spells a number. *)
Definition looseEq (key : nat) (i : JsId) : bool := Nat.eqb key (idValue i).

(** [key === id] for a property name [key]: a property name is a string, so
    strict equality holds only with a string of the same spelling. *)
Definition strictEq (key : option nat) (i : JsId) : bool :=
  match i, key with
  | IdString n, Some k => Nat.eqb k n
  | _, _ => false
  end.

(** ** Engine handles *)

(** Modelled from the spec: [RequestFilter] (declared in [./request-filter])
    is the Engine Handle, an object with its own identity that carries the
    rule count of the engine compiled for it; [new RequestFilter()] is the
    empty handle, with rule count 0. *)
Record RequestFilter := {
  handle : nat;
  getRulesCount : nat
}.

(** [new TSUrlFilter.StringRuleList(filterId, rulesTexts, false, !isTrustedFilter)] *)
Record StringRuleList := {
  l_filterId : nat;
  l_rulesText : string;
  l_ignoreCosmetic : bool;
  l_ignoreJS : bool
}.

(** ** Rule text edits *)

(** Modelled from the spec: [utils.collections.removeAll] (declared in
    [../utils/common]) deletes all exact-text matches of the rule; an
    absent rule ([eventRules[0]] of an empty array) matches no line. *)
Definition removeAll (collection : list string) (element : option string) : list string :=
  match element with
  | None => collection
  | Some r => List.filter (fun line => negb (String.eqb line r)) collection
  end.

(** The [for] loop of [processSaveFilterRulesToStorageEvents] over the
    events of one filter, when every event has a rule array of its own that
    nothing else holds; [None] is a falsy [loadedRulesText].  The loop on
    arrays that may be shared is [applyEventsInPlace] below. *)
Fixpoint applyEvents (events : list FilterEvent) (loadedRulesText : option (list string))
  : option (list string) :=
  match events with
  | [] => loadedRulesText
  | ev :: rest =>
      let current := match loadedRulesText with Some l => l | None => [] end in
      applyEvents rest
        (Some match event ev with
              | ADD_RULES => current ++ rules ev
              | REMOVE_RULE => removeAll current (head (rules ev))
              | UPDATE_FILTER_RULES => rules ev
              | _ => current
              end)
  end.

(** The sequential application the specification describes: starting from
    the stored lines (none when the slot is empty), add appends, remove
    deletes all exact-text matches, replace overwrites. *)
Definition specApplyEvent (content : list string) (ev : FilterEvent) : list string :=
  match event ev with
  | ADD_RULES => content ++ rules ev
  | REMOVE_RULE => removeAll content (head (rules ev))
  | UPDATE_FILTER_RULES => rules ev
  | _ => content
  end.

Definition specApplyEvents (events : list FilterEvent) (stored : option (list string))
  : list string :=
  fold_left specApplyEvent events (default [] stored).

(** *** The loop on arrays that have an identity

    A JavaScript array is an object.  [loadedRulesText = eventRules] makes
    the variable name the array of the event itself, [concat] creates a new
    array, and [utils.collections.removeAll(loadedRulesText, actionRule)],
    whose result line 623 drops, deletes from the array it is handed.  So a
    removal after a replacement changes the array of the replacement event,
    and every event that carries the same array sees the change. *)

(** The arrays that exist, by identity, with their elements. *)
Abbreviation Arrays := (gmap nat (list string)).

Definition elements (h : Arrays) (a : nat) : list string := default [] (h !! a).

(** An entry [{ event, filter, rules }] of [filterEventsHistory] whose
    [rules] is the array [h_rules]. *)
Record HeldEvent := {
  h_event : EventType;
  h_filter : Arg;
  h_rules : nat
}.

(** The entry with the elements its array has in [h]. *)
Definition held (h : Arrays) (ev : HeldEvent) : FilterEvent :=
  {| event := h_event ev; ev_filter := h_filter ev;
     rules := elements h (h_rules ev); group := ANone |}.

(** The [for] loop of [processSaveFilterRulesToStorageEvents] on such
    events: [loadedRulesText] names an array (or is falsy), [h] holds the
    arrays and [next] is the identity of the next array that is created.
    The result is the array that [loadedRulesText] names after the loop,
    with the arrays as the loop leaves them. *)
Fixpoint applyEventsInPlace (events : list HeldEvent) (loadedRulesText : option nat)
    (h : Arrays) (next : nat) : option nat * Arrays * nat :=
  match events with
  | [] => (loadedRulesText, h, next)
  | ev :: rest =>
      (* if (!loadedRulesText) loadedRulesText = [] *)
      let '(current, h1, next1) :=
        match loadedRulesText with
        | Some a => (a, h, next)
        | None => (next, <[next := []]> h, S next)
        end in
      let eventRules := h_rules ev in
      match h_event ev with
      | ADD_RULES =>
          applyEventsInPlace rest (Some next1)
            (<[next1 := elements h1 current ++ elements h1 eventRules]> h1) (S next1)
      | REMOVE_RULE =>
          let actionRule := head (elements h1 eventRules) in
          applyEventsInPlace rest (Some current)
            (<[current := removeAll (elements h1 current) actionRule]> h1) next1
      | UPDATE_FILTER_RULES => applyEventsInPlace rest (Some eventRules) h1 next1
      | _ => applyEventsInPlace rest (Some current) h1 next1
      end
  end.

(** The elements of the array that [loadedRulesText] names after the loop. *)
Definition loadedLines (r : option nat * Arrays * nat) : option (list string) :=
  elements (snd (fst r)) <$> fst (fst r).

(** No later event carries the array of a replacement. *)
Fixpoint replacementsOwn (events : list HeldEvent) : Prop :=
  match events with
  | [] => True
  | ev :: rest =>
      (h_event ev = UPDATE_FILTER_RULES -> ~ In (h_rules ev) (List.map h_rules rest)) /\
      replacementsOwn rest
  end.

(** The arrays of the events exist; the array of a replacement is carried
    by no later event, and no event carries the array that the store handed
    to the callback of the read. *)
Definition ownArrays (events : list HeldEvent) (loadedRulesText : option nat)
    (next : nat) : Prop :=
  replacementsOwn events /\
  Forall (fun ev => h_rules ev < next) events /\
  forall a, loadedRulesText = Some a -> a < next /\ ~ In a (List.map h_rules events).







(** ** JavaScript objects keyed by filter identifiers

    [for ... in] enumerates the property names that are array indices
    (the integers below 2^32 - 1) in ascending order, and after them the
    other names, larger integers and ["undefined"] among them, in the order
    in which they were created. *)

Definition isArrayIndex (k : nat) : bool := (N.of_nat k <? 4294967295)%N.

(** A property name; [None] is the name ["undefined"]. *)
Definition isIndexKey (key : option nat) : bool :=
  match key with Some k => isArrayIndex k | None => false end.

(** A name [a] that is created now is enumerated before the name [b] that
    the object already has. *)
Definition keyBefore (a b : option nat) : bool :=
  match a, b with
  | Some x, Some y => isArrayIndex x && (negb (isArrayIndex y) || Nat.ltb x y)
  | Some x, None => isArrayIndex x
  | None, _ => false
  end.

(** [if (!(key in obj)) obj[key] = []; obj[key].push(ev)] *)
Fixpoint pushEvent (key : option nat) (ev : FilterEvent)
    (obj : list (option nat * list FilterEvent)) : list (option nat * list FilterEvent) :=
  match obj with
  | [] => [(key, [ev])]
  | (k, evs) :: obj' =>
      if decide (key = k) then (k, evs ++ [ev]) :: obj'
      else if keyBefore key k then (key, [ev]) :: obj
      else (k, evs) :: pushEvent key ev obj'
  end.

(** [rulesFilterMap[filterId] = rulesText] *)
Fixpoint setRules (key : nat) (text : list string)
    (obj : list (nat * list string)) : list (nat * list string) :=
  match obj with
  | [] => [(key, text)]
  | (k, t) :: obj' =>
      if Nat.eqb key k then (k, text) :: obj'
      else if keyBefore (Some key) (Some k) then (key, text) :: obj
      else (k, t) :: setRules key text obj'
  end.

Definition getRules (key : nat) (obj : list (nat * list string)) : option (list string) :=
  snd <$> List.find (fun kv => Nat.eqb (fst kv) key) obj.

(** ** Callbacks, tasks in flight and observable effects *)

(** A completion callback: a function supplied by the caller of [start]
    (known by a number), or the closure
    [() => { addFiltersChangeEventListener(); callback(); }] of
    [initRequestFilter] around such a function. *)
Inductive Callback :=
  | CbUser (id : nat)
  | CbInit (id : nat).

(** [options.onInstall], when it is a function. *)
Record Options := {
  onInstall : option nat
}.

(** The closure state that one call of [addFiltersChangeEventListener]
    creates; [onFilterChangeTimeout] is [true] while a timer is armed. *)
Record Batcher := {
  filterEventsHistory : list FilterEvent;
  onFilterChangeTimeout : bool
}.

(** Operations that have been started and have not called back yet. *)
Inductive Task :=
  | TGetRunInfo (options : Options) (callback : nat)
  | TOnInstall (callback : nat)
  | TOnUpdate (callback : nat)
  | TAppUpdated (runInfo : RunInfo)
  | TLoad (callback : option Callback) (pending : list nat)
          (rulesFilterMap : list (nat * list string))
  | TEngine (callback : option Callback) (rulesFilterMap : list (nat * list string))
            (newRequestFilter : nat) (lists : list StringRuleList)
  | TSaveRead (dfd : nat) (key : option nat) (events : list FilterEvent)
  | TSaveWrite (dfd : nat) (key : option nat) (converted : list string)
  | TThen (dfds : list nat).

(** Calls that leave the service, in the order they are made. *)
Inductive Effect :=
  | ECallback (id : nat)
  | ENotify (ev : EventType) (a : Arg)
  | EStorageRead (key : option nat)
  | EStorageWrite (key : option nat) (lines : list string)
  | EConvertRules (text : string)
  | EStartEngine (lists : list StringRuleList)
  | ECheckFiltersUpdate
  | EGetRunInfo
  | ESubscriptionsInit
  | ESettingsListener
  | EOnInstall (hook callback : nat)
  | EOnUpdate
  | EScheduleFiltersUpdate (firstRun : bool)
  | EThrow.

(** ** The state of the service and of its collaborators

    Modelled from the spec: [rulesStorage] (declared in [../storage]) is the
    Rule Store, a map from filter identifiers to lines that is read and
    written one key at a time; a slot that was never written reads as no
    text.  [subscriptions] is the list of filters and the list of groups,
    [filtersState] the persisted version and state records. *)

Record State := {
  (* closure variables of antiBannerService *)
  requestFilter : RequestFilter;
  requestFilterInitTime : nat;
  applicationRunning : bool;
  applicationInitialized : bool;
  reloadedRules : bool;
  batchers : list Batcher;
  (* subscriptions *)
  filters : list Filter;
  groups : list Group;
  (* filtersState *)
  filtersVersionInfo : gmap nat VersionInfo;
  filtersStateInfo : gmap nat StateInfo;
  groupsStateInfo : gmap nat bool;
  (* rulesStorage *)
  store : gmap (option nat) (list string);
  (* the event loop *)
  tasks : list Task;
  nextDfd : nat;
  nextHandle : nat;
  now : nat;
  trace : list Effect
}.

Definition with_requestFilter (v : RequestFilter) (s : State) : State :=
  {| requestFilter := v; requestFilterInitTime := requestFilterInitTime s;
     applicationRunning := applicationRunning s;
     applicationInitialized := applicationInitialized s;
     reloadedRules := reloadedRules s; batchers := batchers s;
     filters := filters s; groups := groups s;
     filtersVersionInfo := filtersVersionInfo s;
     filtersStateInfo := filtersStateInfo s; groupsStateInfo := groupsStateInfo s;
     store := store s; tasks := tasks s; nextDfd := nextDfd s;
     nextHandle := nextHandle s; now := now s; trace := trace s |}.

Definition with_requestFilterInitTime (v : nat) (s : State) : State :=
  {| requestFilter := requestFilter s; requestFilterInitTime := v;
     applicationRunning := applicationRunning s;
     applicationInitialized := applicationInitialized s;
     reloadedRules := reloadedRules s; batchers := batchers s;
     filters := filters s; groups := groups s;
     filtersVersionInfo := filtersVersionInfo s;
     filtersStateInfo := filtersStateInfo s; groupsStateInfo := groupsStateInfo s;
     store := store s; tasks := tasks s; nextDfd := nextDfd s;
     nextHandle := nextHandle s; now := now s; trace := trace s |}.

Definition with_applicationRunning (v : bool) (s : State) : State :=
  {| requestFilter := requestFilter s; requestFilterInitTime := requestFilterInitTime s;
     applicationRunning := v;
     applicationInitialized := applicationInitialized s;
     reloadedRules := reloadedRules s; batchers := batchers s;
     filters := filters s; groups := groups s;
     filtersVersionInfo := filtersVersionInfo s;
     filtersStateInfo := filtersStateInfo s; groupsStateInfo := groupsStateInfo s;
     store := store s; tasks := tasks s; nextDfd := nextDfd s;
     nextHandle := nextHandle s; now := now s; trace := trace s |}.

Definition with_applicationInitialized (v : bool) (s : State) : State :=
  {| requestFilter := requestFilter s; requestFilterInitTime := requestFilterInitTime s;
     applicationRunning := applicationRunning s;
     applicationInitialized := v;
     reloadedRules := reloadedRules s; batchers := batchers s;
     filters := filters s; groups := groups s;
     filtersVersionInfo := filtersVersionInfo s;
     filtersStateInfo := filtersStateInfo s; groupsStateInfo := groupsStateInfo s;
     store := store s; tasks := tasks s; nextDfd := nextDfd s;
     nextHandle := nextHandle s; now := now s; trace := trace s |}.

Definition with_reloadedRules (v : bool) (s : State) : State :=
  {| requestFilter := requestFilter s; requestFilterInitTime := requestFilterInitTime s;
     applicationRunning := applicationRunning s;
     applicationInitialized := applicationInitialized s;
     reloadedRules := v; batchers := batchers s;
     filters := filters s; groups := groups s;
     filtersVersionInfo := filtersVersionInfo s;
     filtersStateInfo := filtersStateInfo s; groupsStateInfo := groupsStateInfo s;
     store := store s; tasks := tasks s; nextDfd := nextDfd s;
     nextHandle := nextHandle s; now := now s; trace := trace s |}.

Definition with_batchers (v : list Batcher) (s : State) : State :=
  {| requestFilter := requestFilter s; requestFilterInitTime := requestFilterInitTime s;
     applicationRunning := applicationRunning s;
     applicationInitialized := applicationInitialized s;
     reloadedRules := reloadedRules s; batchers := v;
     filters := filters s; groups := groups s;
     filtersVersionInfo := filtersVersionInfo s;
     filtersStateInfo := filtersStateInfo s; groupsStateInfo := groupsStateInfo s;
     store := store s; tasks := tasks s; nextDfd := nextDfd s;
     nextHandle := nextHandle s; now := now s; trace := trace s |}.

Definition with_filters (v : list Filter) (s : State) : State :=
  {| requestFilter := requestFilter s; requestFilterInitTime := requestFilterInitTime s;
     applicationRunning := applicationRunning s;
     applicationInitialized := applicationInitialized s;
     reloadedRules := reloadedRules s; batchers := batchers s;
     filters := v; groups := groups s;
     filtersVersionInfo := filtersVersionInfo s;
     filtersStateInfo := filtersStateInfo s; groupsStateInfo := groupsStateInfo s;
     store := store s; tasks := tasks s; nextDfd := nextDfd s;
     nextHandle := nextHandle s; now := now s; trace := trace s |}.

Definition with_groups (v : list Group) (s : State) : State :=
  {| requestFilter := requestFilter s; requestFilterInitTime := requestFilterInitTime s;
     applicationRunning := applicationRunning s;
     applicationInitialized := applicationInitialized s;
     reloadedRules := reloadedRules s; batchers := batchers s;
     filters := filters s; groups := v;
     filtersVersionInfo := filtersVersionInfo s;
     filtersStateInfo := filtersStateInfo s; groupsStateInfo := groupsStateInfo s;
     store := store s; tasks := tasks s; nextDfd := nextDfd s;
     nextHandle := nextHandle s; now := now s; trace := trace s |}.

Definition with_store (v : gmap (option nat) (list string)) (s : State) : State :=
  {| requestFilter := requestFilter s; requestFilterInitTime := requestFilterInitTime s;
     applicationRunning := applicationRunning s;
     applicationInitialized := applicationInitialized s;
     reloadedRules := reloadedRules s; batchers := batchers s;
     filters := filters s; groups := groups s;
     filtersVersionInfo := filtersVersionInfo s;
     filtersStateInfo := filtersStateInfo s; groupsStateInfo := groupsStateInfo s;
     store := v; tasks := tasks s; nextDfd := nextDfd s;
     nextHandle := nextHandle s; now := now s; trace := trace s |}.

Definition with_tasks (v : list Task) (s : State) : State :=
  {| requestFilter := requestFilter s; requestFilterInitTime := requestFilterInitTime s;
     applicationRunning := applicationRunning s;
     applicationInitialized := applicationInitialized s;
     reloadedRules := reloadedRules s; batchers := batchers s;
     filters := filters s; groups := groups s;
     filtersVersionInfo := filtersVersionInfo s;
     filtersStateInfo := filtersStateInfo s; groupsStateInfo := groupsStateInfo s;
     store := store s; tasks := v; nextDfd := nextDfd s;
     nextHandle := nextHandle s; now := now s; trace := trace s |}.

Definition with_nextDfd (v : nat) (s : State) : State :=
  {| requestFilter := requestFilter s; requestFilterInitTime := requestFilterInitTime s;
     applicationRunning := applicationRunning s;
     applicationInitialized := applicationInitialized s;
     reloadedRules := reloadedRules s; batchers := batchers s;
     filters := filters s; groups := groups s;
     filtersVersionInfo := filtersVersionInfo s;
     filtersStateInfo := filtersStateInfo s; groupsStateInfo := groupsStateInfo s;
     store := store s; tasks := tasks s; nextDfd := v;
     nextHandle := nextHandle s; now := now s; trace := trace s |}.

Definition with_nextHandle (v : nat) (s : State) : State :=
  {| requestFilter := requestFilter s; requestFilterInitTime := requestFilterInitTime s;
     applicationRunning := applicationRunning s;
     applicationInitialized := applicationInitialized s;
     reloadedRules := reloadedRules s; batchers := batchers s;
     filters := filters s; groups := groups s;
     filtersVersionInfo := filtersVersionInfo s;
     filtersStateInfo := filtersStateInfo s; groupsStateInfo := groupsStateInfo s;
     store := store s; tasks := tasks s; nextDfd := nextDfd s;
     nextHandle := v; now := now s; trace := trace s |}.

Definition with_now (v : nat) (s : State) : State :=
  {| requestFilter := requestFilter s; requestFilterInitTime := requestFilterInitTime s;
     applicationRunning := applicationRunning s;
     applicationInitialized := applicationInitialized s;
     reloadedRules := reloadedRules s; batchers := batchers s;
     filters := filters s; groups := groups s;
     filtersVersionInfo := filtersVersionInfo s;
     filtersStateInfo := filtersStateInfo s; groupsStateInfo := groupsStateInfo s;
     store := store s; tasks := tasks s; nextDfd := nextDfd s;
     nextHandle := nextHandle s; now := v; trace := trace s |}.

Definition with_trace (v : list Effect) (s : State) : State :=
  {| requestFilter := requestFilter s; requestFilterInitTime := requestFilterInitTime s;
     applicationRunning := applicationRunning s;
     applicationInitialized := applicationInitialized s;
     reloadedRules := reloadedRules s; batchers := batchers s;
     filters := filters s; groups := groups s;
     filtersVersionInfo := filtersVersionInfo s;
     filtersStateInfo := filtersStateInfo s; groupsStateInfo := groupsStateInfo s;
     store := store s; tasks := tasks s; nextDfd := nextDfd s;
     nextHandle := nextHandle s; now := now s; trace := v |}.

(** One more effect at the end of the trace. *)
Definition emit (e : Effect) (s : State) : State := with_trace (trace s ++ [e]) s.

(** One more operation in flight. *)
Definition spawn (t : Task) (s : State) : State := with_tasks (tasks s ++ [t]) s.

(** How a call ends: it returns, or it throws and the statements after it,
    up to the caller at the top of the stack, are skipped. *)
Inductive Completion :=
  | Normal (s : State)
  | Throw (s : State).

Definition stateOf (c : Completion) : State :=
  match c with Normal s | Throw s => s end.

(** ** The service *)

(** What the service takes from other modules. *)
Class Collaborators := {
  (** [TSUrlFilter.RuleConverter.convertRules], from the rule library. *)
  convertRules : string -> string;
  (** Modelled from the spec: [engine.startEngine] (declared in [./engine])
      compiles the lists into the engine behind the new handle; the rule
      count of the result is a pure function of the lists. *)
  engineRulesCount : list StringRuleList -> nat;
  (** [subscriptions.isTrustedFilter] *)
  isTrustedFilter : nat -> bool;
  (** [utils.filters.USER_FILTER_ID] *)
  USER_FILTER_ID : JsId
}.

Section AntiBannerService.

Context {collaborators : Collaborators}.

(** *** The event batcher *)

Definition processFilterEvent (ev : EventType) (a : Arg) (rs : list string)
    (b : Batcher) : Batcher :=
  {| filterEventsHistory :=
       filterEventsHistory b
         ++ [{| event := ev; ev_filter := a; rules := rs; group := ANone |}];
     onFilterChangeTimeout := true |}.

Definition processGroupEvent (ev : EventType) (a : Arg) (b : Batcher) : Batcher :=
  {| filterEventsHistory :=
       filterEventsHistory b
         ++ [{| event := ev; ev_filter := ANone; rules := []; group := a |}];
     onFilterChangeTimeout := true |}.

(** The two listeners that [addFiltersChangeEventListener] registers. *)
Definition listener (ev : EventType) (a : Arg) (rs : list string) (b : Batcher) : Batcher :=
  match ev with
  | ADD_RULES | REMOVE_RULE | UPDATE_FILTER_RULES | FILTER_ENABLE_DISABLE
  | UPDATE_USER_FILTER_RULES => processFilterEvent ev a rs b
  | FILTER_GROUP_ENABLE_DISABLE => processGroupEvent ev a b
  | _ => b
  end.

(** [listeners.notifyListeners(ev, a, rs)]: delivery is synchronous. *)
Definition notifyListeners (ev : EventType) (a : Arg) (rs : list string)
    (s : State) : State :=
  with_batchers (List.map (listener ev a rs) (batchers s)) (emit (ENotify ev a) s).

Definition getRequestFilterInfo (s : State) : nat := getRulesCount (requestFilter s).

Definition addFiltersChangeEventListener (s : State) : State :=
  with_batchers
    (batchers s ++ [{| filterEventsHistory := []; onFilterChangeTimeout := false |}]) s.

Definition invoke (cb : Callback) (s : State) : State :=
  match cb with
  | CbUser id => emit (ECallback id) s
  | CbInit id => emit (ECallback id) (addFiltersChangeEventListener s)
  end.

(** [if (typeof callback === 'function') callback()] *)
Definition invokeIfFunction (cb : option Callback) (s : State) : State :=
  match cb with Some f => invoke f s | None => s end.

(** *** Rebuilding the request filter *)

(** The loop of [loadFilterRules]: the identifiers whose rules are read,
    and whether the loop ran to its end; [group.enabled] of a missing
    group throws. *)
Fixpoint loadFilterRules (gs : list Group) (fs : list Filter) : list nat * bool :=
  match fs with
  | [] => ([], true)
  | f :: fs' =>
      if enabled f then
        match getGroup gs (groupId f) with
        | None => ([], false)
        | Some g =>
            let '(ids, ok) := loadFilterRules gs fs' in
            (if g_enabled g then filterId f :: ids else ids, ok)
        end
      else loadFilterRules gs fs'
  end.

Definition readsOf (ids : list nat) : list Effect :=
  List.map (fun id => EStorageRead (Some id)) ids.

Definition createRequestFilter (callback : option Callback) (s : State) : Completion :=
  if negb (applicationRunning s) then Normal (invokeIfFunction callback s)
  else
    let '(ids, ok) := loadFilterRules (groups s) (filters s) in
    if ok then
      let pending := ids ++ [idValue USER_FILTER_ID] in
      Normal (spawn (TLoad callback pending [])
                    (with_trace (trace s ++ readsOf pending) s))
    else Throw (emit EThrow (with_trace (trace s ++ readsOf ids) s)).

Definition isEmptyRulesFilterMap (rulesFilterMap : list (nat * list string)) : bool :=
  let enabledFilterIds := List.map fst rulesFilterMap in
  if Nat.eqb (length enabledFilterIds) 0 then true
  else if Nat.eqb (length enabledFilterIds) 1
          && match head enabledFilterIds with
             | Some k => looseEq k USER_FILTER_ID
             | None => false
             end
  then match getRules (idValue USER_FILTER_ID) rulesFilterMap with
       | None => true
       | Some userRules => Nat.eqb (length userRules) 0
       end
  else false.

(** The lists that [startTSUrlfilterEngine] hands to the engine. *)
Definition ruleLists (rulesFilterMap : list (nat * list string)) : list StringRuleList :=
  List.map (fun kv => {| l_filterId := fst kv; l_rulesText := join (snd kv);
                         l_ignoreCosmetic := false;
                         l_ignoreJS := negb (isTrustedFilter (fst kv)) |})
           rulesFilterMap.

(** [onFiltersLoadedFromStorage] up to [await engine.startEngine(lists)]. *)
Definition onFiltersLoadedFromStorage (rulesFilterMap : list (nat * list string))
    (callback : option Callback) (s : State) : State :=
  let newRequestFilter := nextHandle s in
  let s1 := with_nextHandle (S (nextHandle s)) s in
  let s2 := if Nat.eqb (requestFilterInitTime s1) 0
            then notifyListeners APPLICATION_INITIALIZED ANone []
                   (with_requestFilterInitTime (now s1) s1)
            else s1 in
  let lists := ruleLists rulesFilterMap in
  spawn (TEngine callback rulesFilterMap newRequestFilter lists)
        (emit (EStartEngine lists) s2).

Definition RESET_VERSION : string := "0.0.0.0".

Definition resetFiltersVersion (s : State) : State :=
  with_filters
    (List.map (fun f => {| filterId := filterId f; groupId := groupId f;
                           enabled := enabled f; installed := installed f;
                           loaded := loaded f; version := RESET_VERSION;
                           lastCheckTime := lastCheckTime f;
                           lastUpdateTime := lastUpdateTime f;
                           expires := expires f |})
              (filters s)) s.

(** [filtersUpdate.checkAntiBannerFiltersUpdate(true, ...)] after the reset. *)
Definition reloadAntiBannerFilters (s : State) : State :=
  emit ECheckFiltersUpdate (resetFiltersVersion s).

(** STEP 3, run when [engine.startEngine] has resolved. *)
Definition requestFilterInitialized (callback : option Callback)
    (rulesFilterMap : list (nat * list string)) (newRequestFilter : nat)
    (lists : list StringRuleList) (s : State) : State :=
  let filled := {| handle := newRequestFilter;
                   getRulesCount := engineRulesCount lists |} in
  let s1 := with_requestFilter filled s in
  let s2 := invokeIfFunction callback s1 in
  let s3 := notifyListeners REQUEST_FILTER_UPDATED (AInfo (getRequestFilterInfo s2)) [] s2 in
  if isEmptyRulesFilterMap rulesFilterMap then s3
  else if Nat.eqb (getRulesCount filled) 0 && negb (reloadedRules s3)
  then with_reloadedRules true (reloadAntiBannerFilters s3)
  else if Nat.ltb 0 (getRulesCount filled) && reloadedRules s3
  then with_reloadedRules false s3
  else s3.

(** Remove the first occurrence of [x]. *)
Fixpoint removeFirst (x : nat) (l : list nat) : list nat :=
  match l with
  | [] => []
  | y :: l' => if Nat.eqb x y then l' else y :: removeFirst x l'
  end.

(** The callback of [rulesStorage.read] in [loadFilterRulesFromStorage];
    when it was the last read, [Promise.all] resolves and STEP 2 runs. *)
Definition rulesLoaded (callback : option Callback) (pending : list nat)
    (rulesFilterMap : list (nat * list string)) (id : nat) (s : State) : State :=
  let rulesFilterMap' :=
    match store s !! Some id with
    | Some rulesText => setRules id rulesText rulesFilterMap
    | None => rulesFilterMap
    end in
  match removeFirst id pending with
  | [] => onFiltersLoadedFromStorage rulesFilterMap' callback s
  | pending' => spawn (TLoad callback pending' rulesFilterMap') s
  end.

(** *** Saving rule edits *)

(** [processSaveFilterRulesToStorageEvents] up to the callback of
    [rulesStorage.read]; the result carries the new deferred. *)
Definition processSaveFilterRulesToStorageEvents (key : option nat)
    (events : list FilterEvent) (s : State) : State * nat :=
  let dfd := nextDfd s in
  (spawn (TSaveRead dfd key events)
         (emit (EStorageRead key) (with_nextDfd (S dfd) s)), dfd).

(** The callback of [rulesStorage.read]: apply the events, convert, write.
    [loadedRulesText.length] of a falsy value throws. *)
Definition saveRulesLoaded (dfd : nat) (key : option nat)
    (events : list FilterEvent) (s : State) : State :=
  match applyEvents events (store s !! key) with
  | None => emit EThrow s
  | Some loadedRulesText =>
      let text := join loadedRulesText in
      let converted := split (convertRules text) in
      spawn (TSaveWrite dfd key converted)
            (emit (EStorageWrite key converted) (emit (EConvertRules text) s))
  end.

(** [dfd.resolve()] as seen by the [Promise.all]s that wait for it. *)
Definition resolveIn (dfd : nat) (t : Task) : Task :=
  match t with
  | TThen dfds => TThen (List.filter (fun d => negb (Nat.eqb d dfd)) dfds)
  | _ => t
  end.

Definition resolve (dfd : nat) (s : State) : State :=
  with_tasks (List.map (resolveIn dfd) (tasks s)) s.

(** The callback of [rulesStorage.write]: the slot holds the new lines. *)
Definition rulesWritten (dfd : nat) (key : option nat) (converted : list string)
    (s : State) : State :=
  let s1 := resolve dfd (with_store (<[key := converted]> (store s)) s) in
  if strictEq key USER_FILTER_ID
  then notifyListeners UPDATE_USER_FILTER_RULES (AInfo (getRequestFilterInfo s1)) [] s1
  else s1.

(** The split of a batch by [filterEvent.filter.filterId]. *)
Definition eventsByFilter (filterEvents : list FilterEvent)
  : list (option nat * list FilterEvent) :=
  fold_left (fun obj ev => if truthy (ev_filter ev)
                           then pushEvent (filterIdOf (ev_filter ev)) ev obj
                           else obj)
            filterEvents [].

(** The loop that fills [dfds]. *)
Fixpoint saveAll (byFilter : list (option nat * list FilterEvent)) (s : State)
  : State * list nat :=
  match byFilter with
  | [] => (s, [])
  | (key, events) :: rest =>
      if existsb isSaveRulesToStorageEvent events then
        let '(s1, dfd) := processSaveFilterRulesToStorageEvents key events s in
        let '(s2, dfds) := saveAll rest s1 in
        (s2, dfd :: dfds)
      else saveAll rest s
  end.

(** The timer of batcher [b] fires. *)
Definition processEventsHistory (b : nat) (s : State) : State :=
  match batchers s !! b with
  | None => s
  | Some batcher =>
      let filterEvents := filterEventsHistory batcher in
      let s1 := with_batchers
                  (<[b := {| filterEventsHistory := [];
                             onFilterChangeTimeout := false |}]> (batchers s)) s in
      let needCreateRequestFilter := existsb isUpdateRequestFilterEvent filterEvents in
      let '(s2, dfds) := saveAll (eventsByFilter filterEvents) s1 in
      if needCreateRequestFilter then spawn (TThen dfds) s2
      else notifyListeners REQUEST_FILTER_UPDATED (AInfo (getRequestFilterInfo s2)) [] s2
  end.

(** *** Start, stop and initialization *)

Definition loadGroupsStateInfo (s : State) : State :=
  with_groups
    (List.map (fun g => match groupsStateInfo s !! g_groupId g with
                        | Some e => {| g_groupId := g_groupId g; g_enabled := e |}
                        | None => g
                        end)
              (groups s)) s.

Definition loadFiltersVersionAndStateInfo (s : State) : State :=
  with_filters
    (List.map
       (fun f =>
          let f1 :=
            match filtersVersionInfo s !! filterId f with
            | Some v =>
                {| filterId := filterId f; groupId := groupId f;
                   enabled := enabled f; installed := installed f;
                   loaded := loaded f; version := vi_version v;
                   lastCheckTime := vi_lastCheckTime v;
                   lastUpdateTime := vi_lastUpdateTime v;
                   expires := if Nat.eqb (vi_expires v) 0 then expires f
                              else vi_expires v |}
            | None => f
            end in
          match filtersStateInfo s !! filterId f with
          | Some i =>
              {| filterId := filterId f1; groupId := groupId f1;
                 enabled := si_enabled i; installed := si_installed i;
                 loaded := si_loaded i; version := version f1;
                 lastCheckTime := lastCheckTime f1;
                 lastUpdateTime := lastUpdateTime f1; expires := expires f1 |}
          | None => f1
          end)
       (filters s)) s.

Definition initRequestFilter (callback : nat) (s : State) : Completion :=
  createRequestFilter (Some (CbInit callback))
    (loadGroupsStateInfo (loadFiltersVersionAndStateInfo s)).

(** [onSubscriptionLoaded], run when the run info and the subscriptions
    have been loaded. *)
Definition onSubscriptionLoaded (options : Options) (callback : nat)
    (runInfo : RunInfo) (s : State) : Completion :=
  let s1 := emit ESettingsListener s in
  let branch :=
    if isFirstRun runInfo then
      let s2 := addFiltersChangeEventListener s1 in
      match onInstall options with
      | Some hook => Normal (spawn (TOnInstall callback) (emit (EOnInstall hook callback) s2))
      | None => Normal (invoke (CbUser callback) s2)
      end
    else if isUpdate runInfo then
      Normal (spawn (TAppUpdated runInfo) (spawn (TOnUpdate callback) (emit EOnUpdate s1)))
    else initRequestFilter callback s1 in
  match branch with
  | Normal s3 => Normal (emit (EScheduleFiltersUpdate (isFirstRun runInfo)) s3)
  | Throw s3 => Throw s3
  end.

(** [initialize]: ask for the run info; the rest runs in its callback. *)
Definition initialize (options : Options) (callback : nat) (s : State) : State :=
  spawn (TGetRunInfo options callback) (emit EGetRunInfo s).

Definition start (options : Options) (callback : nat) (s : State) : Completion :=
  if applicationRunning s then Normal (invoke (CbUser callback) s)
  else
    let s1 := with_applicationRunning true s in
    if negb (applicationInitialized s1)
    then Normal (with_applicationInitialized true (initialize options callback s1))
    else createRequestFilter (Some (CbUser callback)) s1.

Definition stop (s : State) : State :=
  let s1 := with_applicationRunning false s in
  let s2 := with_nextHandle (S (nextHandle s1))
              (with_requestFilter {| handle := nextHandle s1; getRulesCount := 0 |} s1) in
  notifyListeners REQUEST_FILTER_UPDATED (AInfo (getRequestFilterInfo s2)) [] s2.

Definition isInitialized (s : State) : bool := applicationInitialized s.

Definition getRequestFilter (s : State) : RequestFilter := requestFilter s.

Definition getRequestFilterInitTime (s : State) : nat := requestFilterInitTime s.

Definition isRunning (s : State) : bool := applicationRunning s.

(** *** The environment

    What the environment does to the service: calls of [start] and [stop],
    notifications, timers and callbacks of operations in flight.  The
    listener that [subscribeToFiltersChangeEvents] registers on
    [settings.onUpdated] (lines 662-668) is not among them: its turns reset
    filter versions and ask for update checks, and touch nothing else of
    this state. *)

Inductive Op :=
  | OpStart (options : Options) (callback : nat)
  | OpStop
  | OpNotify (ev : EventType) (a : Arg) (rs : list string)
  | OpTimer (b : nat)
  | OpRunInfo (i : nat) (runInfo : RunInfo)
  | OpDone (i : nat)
  | OpReadDone (i : nat) (id : nat)
  | OpReadFailed (i : nat) (id : nat)
  | OpEngineStarted (i : nat)
  | OpEngineFailed (i : nat)
  | OpTick (t : nat)
  | OpSubscriptions (fs : list Filter) (gs : list Group).

(** Modelled from the spec: a read of [rulesStorage] (declared in
    [../storage]) that fails hands no rule text to the callback of
    [loadFilterRulesFromStorage], so the [Promise.all] of its rebuild is
    never fulfilled: the rebuild is over. *)
Definition readFailed (s : State) : State := s.

(** Modelled from the spec: [engine.startEngine] (declared in [./engine])
    that fails rejects, so the statements after the [await] do not run: the
    rebuild is over. *)
Definition engineFailed (s : State) : State := s.

(** Task [i] calls back: it leaves the tasks in flight. *)
Definition takeTask (i : nat) (s : State) : option (Task * State) :=
  match tasks s !! i with
  | Some t => Some (t, with_tasks (delete i (tasks s)) s)
  | None => None
  end.

Definition memb (x : nat) (l : list nat) : bool := existsb (Nat.eqb x) l.

(** One turn of the event loop; [None] when the operation cannot happen
    in this state.  An exception that reaches the top of a turn ends it. *)
Definition step (o : Op) (s : State) : option State :=
  match o with
  | OpStart options callback => Some (stateOf (start options callback s))
  | OpStop => Some (stop s)
  | OpNotify ev a rs => Some (notifyListeners ev a rs s)
  | OpTimer b =>
      match batchers s !! b with
      | Some batcher =>
          if onFilterChangeTimeout batcher then Some (processEventsHistory b s) else None
      | None => None
      end
  | OpRunInfo i runInfo =>
      match takeTask i s with
      | Some (TGetRunInfo options callback, s') =>
          Some (stateOf (onSubscriptionLoaded options callback runInfo
                           (emit ESubscriptionsInit s')))
      | _ => None
      end
  | OpDone i =>
      match takeTask i s with
      | Some (TOnInstall callback, s') => Some (invoke (CbUser callback) s')
      | Some (TOnUpdate callback, s') => Some (stateOf (initRequestFilter callback s'))
      | Some (TAppUpdated runInfo, s') =>
        Some (notifyListeners APPLICATION_UPDATED (ARunInfo runInfo) [] s')
      | Some (TSaveRead dfd key events, s') => Some (saveRulesLoaded dfd key events s')
      | Some (TSaveWrite dfd key converted, s') => Some (rulesWritten dfd key converted s')
      | Some (TThen [], s') => Some (stateOf (createRequestFilter None s'))
      | _ => None
      end
  | OpReadDone i id =>
      match takeTask i s with
      | Some (TLoad callback pending rulesFilterMap, s') =>
          if memb id pending then Some (rulesLoaded callback pending rulesFilterMap id s')
          else None
      | _ => None
      end
  | OpReadFailed i id =>
      match takeTask i s with
      | Some (TLoad callback pending rulesFilterMap, s') =>
          if memb id pending then Some (readFailed s') else None
      | _ => None
      end
  | OpEngineStarted i =>
      match takeTask i s with
      | Some (TEngine callback rulesFilterMap newRequestFilter lists, s') =>
          Some (requestFilterInitialized callback rulesFilterMap newRequestFilter lists s')
      | _ => None
      end
  | OpEngineFailed i =>
      match takeTask i s with
      | Some (TEngine _ _ _ _, s') => Some (engineFailed s')
      | _ => None
      end
  | OpTick t => Some (with_now (now s + t) s)
  | OpSubscriptions fs gs => Some (with_groups gs (with_filters fs s))
  end.

Fixpoint run (ops : list Op) (s : State) : option State :=
  match ops with
  | [] => Some s
  | o :: ops' =>
      match step o s with
      | Some s' => run ops' s'
      | None => None
      end
  end.

(** The service when the module has just been evaluated. *)
Definition initial (fs : list Filter) (gs : list Group)
    (versions : gmap nat VersionInfo) (states : gmap nat StateInfo)
    (groupStates : gmap nat bool) (stored : gmap (option nat) (list string)) : State :=
  {| requestFilter := {| handle := 0; getRulesCount := 0 |};
     requestFilterInitTime := 0;
     applicationRunning := false;
     applicationInitialized := false;
     reloadedRules := false;
     batchers := [];
     filters := fs; groups := gs;
     filtersVersionInfo := versions; filtersStateInfo := states;
     groupsStateInfo := groupStates;
     store := stored;
     tasks := []; nextDfd := 0; nextHandle := 1; now := 0; trace := [] |}.

End AntiBannerService.


(** ** Observations on traces and on the tasks in flight *)

Definition isStartEngine (e : Effect) : bool :=
  match e with EStartEngine _ => true | _ => false end.

(** How many times [engine.startEngine] has been called. *)
Definition compilations (t : list Effect) : nat := length (List.filter isStartEngine t).

Definition isGetRunInfo (e : Effect) : bool :=
  match e with EGetRunInfo => true | _ => false end.

(** How many times [initialize] has run. *)
Definition initializations (t : list Effect) : nat := length (List.filter isGetRunInfo t).

Definition isStorageEffect (e : Effect) : bool :=
  match e with
  | EStorageRead _ | EStorageWrite _ _ | EConvertRules _ => true
  | _ => false
  end.

(** The reads, conversions and writes of a trace, in order. *)
Definition storageEffects (t : list Effect) : list Effect := List.filter isStorageEffect t.

Definition isCheckFiltersUpdate (e : Effect) : bool :=
  match e with ECheckFiltersUpdate => true | _ => false end.

(** How many forced update checks have been triggered. *)
Definition forcedUpdateChecks (t : list Effect) : nat :=
  length (List.filter isCheckFiltersUpdate t).

Definition isLoad (t : Task) : bool :=
  match t with TLoad _ _ _ => true | _ => false end.

Definition isEngine (t : Task) : bool :=
  match t with TEngine _ _ _ _ => true | _ => false end.

(** Rebuilds that still wait for rule text. *)
Definition loading (ts : list Task) : nat := length (List.filter isLoad ts).

(** Rebuilds whose engine is being compiled. *)
Definition compiling (ts : list Task) : nat := length (List.filter isEngine ts).

(** No rebuild is in flight. *)
Definition noRebuild (ts : list Task) : bool :=
  forallb (fun t => negb (isLoad t || isEngine t)) ts.

(** The callbacks of a rebuild's reads and of its engine start. *)
Definition isRebuildOp (o : Op) : bool :=
  match o with OpReadDone _ _ | OpEngineStarted _ => true | _ => false end.

Definition isStart (o : Op) : bool :=
  match o with OpStart _ _ => true | _ => false end.

(** The handle that an engine start in flight will publish. *)
Definition handleOf (t : Task) : option nat :=
  match t with TEngine _ _ h _ => Some h | _ => None end.

(** The deferreds a task waits for. *)
Definition waitsFor (t : Task) : list nat :=
  match t with TThen dfds => dfds | _ => [] end.

(** ** A concrete installation, for running the model *)

(** An engine that counts the non-empty lines of its lists. *)
Definition countRules (lists : list StringRuleList) : nat :=
  list_sum
    (List.map (fun l => length (List.filter (fun line => negb (String.eqb line EmptyString))
                                            (split (l_rulesText l))))
              lists).

(** A converter that leaves the text as it is, every filter trusted, the
    user filter under the number 0. *)
Definition exampleCollaborators : Collaborators :=
  {| convertRules := fun text => text;
     engineRulesCount := countRules;
     isTrustedFilter := fun _ => true;
     USER_FILTER_ID := IdNumber 0 |}.

Definition adsFilter : Filter :=
  {| filterId := 1; groupId := 1; enabled := true; installed := true; loaded := true;
     version := "1.0.0.0"; lastCheckTime := 0; lastUpdateTime := 0; expires := 0 |}.

Definition privacyFilter : Filter :=
  {| filterId := 2; groupId := 2; enabled := true; installed := true; loaded := true;
     version := "1.0.0.0"; lastCheckTime := 0; lastUpdateTime := 0; expires := 0 |}.

Definition adsGroup : Group := {| g_groupId := 1; g_enabled := true |}.

Definition privacyGroup : Group := {| g_groupId := 2; g_enabled := false |}.

Definition adsRules : list string := ["a.com##.ad"; "b.com##.ad"].

(** Filter 1 enabled in an enabled group, filter 2 enabled in a disabled
    group, the user filter empty. *)
Definition installation : State :=
  initial [adsFilter; privacyFilter] [adsGroup; privacyGroup] ∅ ∅ ∅
          (<[Some 2 := ["c.com##.ad"]]> {[ Some 1 := adsRules ]}).

Definition noInstallHook : Options := {| onInstall := None |}.

Definition normalRun : RunInfo := {| isFirstRun := false; isUpdate := false |}.

Definition runExample : list Op -> State -> option State :=
  @run exampleCollaborators.

(** [start], the run info, the two reads and the engine start of the first
    rebuild: the service is running with two rules. *)
Definition bootOps : list Op :=
  [OpStart noInstallHook 7; OpRunInfo 0 normalRun; OpReadDone 0 1; OpReadDone 0 0;
   OpEngineStarted 0].

Definition booted : State := default installation (runExample bootOps installation).

(** Nothing is subscribed and nothing is stored. *)
Definition emptyInstallation : State := initial [] [] ∅ ∅ ∅ ∅.

(** The filters whose rule text takes part in a rebuild, in the words of
    the specification: [filter.enabled && group.enabled]. *)
Definition participates (gs : list Group) (f : Filter) : bool :=
  enabled f && match getGroup gs (groupId f) with
               | Some g => g_enabled g
               | None => false
               end.

Definition participating (gs : list Group) (fs : list Filter) : list nat :=
  List.map filterId (List.filter (participates gs) fs).

(** Every enabled filter belongs to a registered group. *)
Definition groupsKnown (gs : list Group) (fs : list Filter) : bool :=
  forallb (fun f => negb (enabled f) || bool_decide (is_Some (getGroup gs (groupId f)))) fs.

(** The rule map after the reads of [ids] have called back, in that order. *)
Definition loadedMap (stored : gmap (option nat) (list string)) (ids : list nat)
    (rulesFilterMap : list (nat * list string)) : list (nat * list string) :=
  fold_left (fun m id => match stored !! Some id with
                         | Some rulesText => setRules id rulesText m
                         | None => m
                         end) ids rulesFilterMap.

(** States the service can be in: those some sequence of operations reaches
    from a freshly evaluated module. *)
Definition reachable {collaborators : Collaborators} (s : State) : Prop :=
  exists ops fs gs versions states groupStates stored,
    run ops (initial fs gs versions states groupStates stored) = Some s.

(** What the loop over [eventsByFilter] starts: one read per filter that has
    an event to save, each with a fresh deferred. *)
Fixpoint saveTasks (dfd : nat) (byFilter : list (option nat * list FilterEvent)) : list Task :=
  match byFilter with
  | [] => []
  | (key, events) :: rest =>
      if existsb isSaveRulesToStorageEvent events
      then TSaveRead dfd key events :: saveTasks (S dfd) rest
      else saveTasks dfd rest
  end.

Fixpoint saveReads (byFilter : list (option nat * list FilterEvent)) : list Effect :=
  match byFilter with
  | [] => []
  | (key, events) :: rest =>
      if existsb isSaveRulesToStorageEvent events
      then EStorageRead key :: saveReads rest
      else saveReads rest
  end.

Definition saveCount (byFilter : list (option nat * list FilterEvent)) : nat :=
  length (saveReads byFilter).


(** Effects other than a call of [initialize] or of [engine.startEngine]. *)
Definition quietEffect (e : Effect) : bool := negb (isGetRunInfo e || isStartEngine e).

(** What a handler changes besides batchers and registry: it appends [es] to
    the trace and [new] to the tasks in flight, and leaves the handle, the
    flags, the handle counter and the store alone. *)
Definition delta (s s' : State) (es : list Effect) (new : list Task) : Prop :=
  trace s' = trace s ++ es /\ tasks s' = tasks s ++ new /\
  requestFilter s' = requestFilter s /\
  applicationRunning s' = applicationRunning s /\
  applicationInitialized s' = applicationInitialized s /\
  nextHandle s' = nextHandle s /\ store s' = store s.

(** The state once task [i], if any, has left the tasks in flight. *)
Definition without (i : option nat) (s : State) : State :=
  match i with
  | Some j => with_tasks (delete j (tasks s)) s
  | None => s
  end.

(** The shapes a turn of the event loop can have. *)
Inductive Turn {collaborators : Collaborators} (o : Op) (s s' : State) : Prop :=
  | TurnStart options cb :
      o = OpStart options cb -> s' = stateOf (start options cb s) -> Turn o s s'
  | TurnStop :
      o = OpStop -> s' = stop s -> Turn o s s'
  | TurnPlain (i : option nat) es new :
      (forall j, i = Some j ->
         exists t, tasks s !! j = Some t /\ isLoad t = false /\ isEngine t = false
                   /\ waitsFor t = []) ->
      delta (without i s) s' es new ->
      forallb quietEffect es = true ->
      compiling new = 0 ->
      (applicationRunning s = false -> noRebuild new = true) ->
      Turn o s s'
  | TurnWritten i dfd key converted :
      o = OpDone i -> tasks s !! i = Some (TSaveWrite dfd key converted) ->
      s' = rulesWritten dfd key converted (without (Some i) s) -> Turn o s s'
  | TurnRead i id cb pending rulesFilterMap :
      o = OpReadDone i id -> tasks s !! i = Some (TLoad cb pending rulesFilterMap) ->
      memb id pending = true ->
      s' = rulesLoaded cb pending rulesFilterMap id (without (Some i) s) -> Turn o s s'
  | TurnReadFailed i id cb pending rulesFilterMap :
      o = OpReadFailed i id -> tasks s !! i = Some (TLoad cb pending rulesFilterMap) ->
      memb id pending = true ->
      s' = without (Some i) s -> Turn o s s'
  | TurnEngine i cb rulesFilterMap h lists :
      o = OpEngineStarted i -> tasks s !! i = Some (TEngine cb rulesFilterMap h lists) ->
      s' = requestFilterInitialized cb rulesFilterMap h lists (without (Some i) s) ->
      Turn o s s'
  | TurnEngineFailed i cb rulesFilterMap h lists :
      o = OpEngineFailed i -> tasks s !! i = Some (TEngine cb rulesFilterMap h lists) ->
      s' = without (Some i) s -> Turn o s s'.

Definition isStop (o : Op) : bool :=
  match o with OpStop => true | _ => false end.

(** A read or an engine start of a rebuild fails. *)
Definition isFailure (o : Op) : bool :=
  match o with OpReadFailed _ _ | OpEngineFailed _ => true | _ => false end.

(** [initialize] has run exactly when the flag says so, and a running
    application has been initialized. *)
Definition initializedOnce (s : State) : Prop :=
  initializations (trace s) = (if applicationInitialized s then 1 else 0) /\
  (applicationRunning s = true -> applicationInitialized s = true).

(** Every handle that is live or about to be published has been allocated. *)
Definition handlesAllocated (s : State) : Prop :=
  handle (requestFilter s) < nextHandle s /\
  Forall (fun t => forall h, handleOf t = Some h -> h < nextHandle s) (tasks s).

(** The application is stopped and no rebuild is in flight. *)
Definition stoppedQuiet (s : State) : Prop :=
  applicationRunning s = false /\ noRebuild (tasks s) = true.

(** Some [Promise.all] in flight still waits for deferred [dfd]. *)
Definition waiting (dfd : nat) (ts : list Task) : bool :=
  existsb (fun t => memb dfd (waitsFor t)) ts.

(** The deferred that a save resolves. *)
Definition dfdOf (t : Task) : option nat :=
  match t with
  | TSaveRead dfd _ _ | TSaveWrite dfd _ _ => Some dfd
  | _ => None
  end.

(** *** Runs of the concrete installation *)

(** Filter 1 is toggled and the debounce timer fires. *)
Definition toggleAds : list Op :=
  [OpNotify FILTER_ENABLE_DISABLE (AFilter 1) []; OpTimer 0].

(** A first rebuild is requested and is in flight. *)
Definition firstRequest : list Op := toggleAds ++ [OpDone 0].

Definition rebuilding : State := default booted (runExample firstRequest booted).

(** Two more rebuilds are requested while the first is in flight. *)
Definition twoMoreRequests : list Op := toggleAds ++ [OpDone 1] ++ toggleAds ++ [OpDone 2].

Definition threeRebuilds : State := default booted (runExample twoMoreRequests rebuilding).

(** The reads of the three rebuilds call back, filter 1 first. *)
Definition allReads : list Op :=
  [OpReadDone 0 1; OpReadDone 0 1; OpReadDone 0 1;
   OpReadDone 0 0; OpReadDone 0 0; OpReadDone 0 0].

Definition threeCompiling : State := default booted (runExample allReads threeRebuilds).

Definition allEngineStarts : list Op :=
  [OpEngineStarted 0; OpEngineStarted 0; OpEngineStarted 0].

Definition threeCompiled : State :=
  default booted (runExample allEngineStarts threeCompiling).

(** The reads of the first rebuild have called back; its engine is starting. *)
Definition compilingOnce : State :=
  default booted (runExample [OpReadDone 0 1; OpReadDone 0 0] rebuilding).

Definition publishedOnce : State :=
  default booted (runExample [OpEngineStarted 0] compilingOnce).

(** The application is stopped and started again. *)
Definition restarted : State :=
  default booted (runExample [OpStop; OpStart noInstallHook 8] booted).

(** The application is stopped; afterwards a toggle arrives and its batch
    asks for a rebuild. *)
Definition stopped : State := stop booted.

Definition lateTrigger : list Op := toggleAds ++ [OpDone 0].

Definition afterLateTrigger : State := default booted (runExample lateTrigger stopped).

(** A rule is added to filter 1 and another one removed from it. *)
Definition editAds : list Op :=
  [OpNotify ADD_RULES (AFilter 1) ["c.com##.ad"];
   OpNotify REMOVE_RULE (AFilter 1) ["a.com##.ad"]].

Definition edited : State := default booted (runExample editAds booted).

(** The timer has fired on these edits: the save is reading. *)
Definition editing : State := default booted (runExample [OpTimer 0] edited).

Definition editsOfAds : Batcher :=
  {| filterEventsHistory :=
       [{| event := ADD_RULES; ev_filter := AFilter 1; rules := ["c.com##.ad"];
           group := ANone |};
        {| event := REMOVE_RULE; ev_filter := AFilter 1; rules := ["a.com##.ad"];
           group := ANone |}];
     onFilterChangeTimeout := true |}.

(** The rules of filter 1 are replaced and the timer has fired: the save is
    reading and the rebuild waits for it. *)
Definition replaceAds : list Op :=
  [OpNotify UPDATE_FILTER_RULES (AFilter 1) ["d.com##.ad"]].

Definition replaced : State := default booted (runExample replaceAds booted).

Definition replacementOfAds : Batcher :=
  {| filterEventsHistory :=
       [{| event := UPDATE_FILTER_RULES; ev_filter := AFilter 1; rules := ["d.com##.ad"];
           group := ANone |}];
     onFilterChangeTimeout := true |}.

Definition saving : State := default booted (runExample [OpTimer 0] replaced).

Definition savingRead : State := default booted (runExample [OpDone 0] saving).



(** The events of a batch that belong to the filter with property name
    [key], in arrival order. *)
Definition eventsOf (key : option nat) (filterEvents : list FilterEvent) : list FilterEvent :=
  List.filter (fun ev => truthy (ev_filter ev)
                         && bool_decide (filterIdOf (ev_filter ev) = key)) filterEvents.

(** [obj[key]] *)
Definition getEvents (key : option nat) (obj : list (option nat * list FilterEvent))
  : option (list FilterEvent) :=
  snd <$> List.find (fun kv => bool_decide (fst kv = key)) obj.

(** The name [a] stands before the name [b] in an enumeration: they differ,
    and an array index stands only after smaller array indices. *)
Definition inOrder (a b : option nat) : Prop :=
  a <> b /\ (isIndexKey b = true -> keyBefore a b = true).

(** The property names of [obj] are in enumeration order. *)
Definition enumerated (obj : list (option nat * list FilterEvent)) : Prop :=
  StronglySorted (fun a b => inOrder (fst a) (fst b)) obj.



(** ** Installing a filter *)

(** Modelled from the spec: [subscriptions.getFilter] (declared in
    [./subscription]) looks the identifier up in the Subscription Registry,
    the catalog of known filters; an unknown identifier gives no filter. *)
Definition getFilter (fs : list Filter) (id : nat) : option Filter :=
  List.find (fun f => Nat.eqb (filterId f) id) fs.

(** [getFilterById]: [None] stands for the thrown [Error]. *)
Definition getFilterById (id : nat) (s : State) : option Filter :=
  getFilter (filters s) id.

(** [filter.installed = true] *)
Definition asInstalled (f : Filter) : Filter :=
  {| filterId := filterId f; groupId := groupId f; enabled := enabled f;
     installed := true; loaded := loaded f; version := version f;
     lastCheckTime := lastCheckTime f; lastUpdateTime := lastUpdateTime f;
     expires := expires f |}.

(** The assignment is made on the object that [getFilter] returned: the
    registry holds that very object, so its first filter with this
    identifier changes. *)
Fixpoint setInstalled (id : nat) (fs : list Filter) : list Filter :=
  match fs with
  | [] => []
  | f :: fs' =>
      if Nat.eqb (filterId f) id then asInstalled f :: fs'
      else f :: setInstalled id fs'
  end.

(** How a call of [addAntiBannerFilter] goes on: [callback(success)] has
    been called, or [filtersUpdate.loadFilterRules(filter, false,
    onFilterLoaded)] (declared in [./filters-update]) is in flight, or
    [getFilterById] has thrown. *)
Inductive Added :=
  | AddedCallback (success : bool) (s : State)
  | AddedLoading (s : State)
  | AddedThrow (s : State).

Definition addedState (a : Added) : State :=
  match a with AddedCallback _ s | AddedLoading s | AddedThrow s => s end.

(** The closure [onFilterLoaded] up to its call of [callback(success)]. *)
Definition onFilterLoaded (id : nat) (success : bool) (s : State) : State :=
  if success
  then notifyListeners FILTER_ADD_REMOVE (AFilter id) []
         (with_filters (setInstalled id (filters s)) s)
  else s.

Definition addAntiBannerFilter (id : nat) (s : State) : Added :=
  match getFilterById id s with
  | None => AddedThrow s
  | Some filter =>
      if installed filter then AddedCallback true s
      else if loaded filter then AddedCallback true (onFilterLoaded id true s)
      else AddedLoading s
  end.

(** [filtersUpdate.loadFilterRules] calls [onFilterLoaded] back with its
    outcome; the registry is taken to hold, at that time, the filter object
    that [getFilterById] returned. *)
Definition filterRulesLoaded (id : nat) (success : bool) (s : State) : Added :=
  AddedCallback success (onFilterLoaded id success s).

(** ** Observations on batchers, listeners and the update check *)

(** The timer of a batcher is armed exactly when events are pending. *)
Definition wellArmed (b : Batcher) : Prop :=
  onFilterChangeTimeout b = true <-> filterEventsHistory b <> [].

(** The batcher that [addFiltersChangeEventListener] creates, and that
    [processEventsHistory] leaves behind. *)
Definition freshBatcher : Batcher :=
  {| filterEventsHistory := []; onFilterChangeTimeout := false |}.

(** How many calls of [addFiltersChangeEventListener] a callback makes. *)
Definition cbInstalls (cb : option Callback) : nat :=
  match cb with Some (CbInit _) => 1 | _ => 0 end.

(** How many calls of [addFiltersChangeEventListener] a task in flight
    still leads to: the run info and the update hook end in
    [initRequestFilter], a rebuild in its callback. *)
Definition installsOf (t : Task) : nat :=
  match t with
  | TGetRunInfo _ _ | TOnUpdate _ => 1
  | TLoad cb _ _ | TEngine cb _ _ _ => cbInstalls cb
  | _ => 0
  end.

Definition pendingInstalls (ts : list Task) : nat := list_sum (List.map installsOf ts).

(** The change listeners that are installed or still to be installed. *)
Definition owedListeners (s : State) : nat := length (batchers s) + pendingInstalls (tasks s).

Definition listenerBound (s : State) : Prop :=
  owedListeners s <= (if applicationInitialized s then 1 else 0).

(** The forced update checks made so far, and one more while the
    [reloadedRules] flag is clear. *)
Definition checkBudget (s : State) : nat :=
  forcedUpdateChecks (trace s) + (if reloadedRules s then 0 else 1).

(** The read of a save in flight has an event to save. *)
Definition savesSomething (t : Task) : bool :=
  match t with
  | TSaveRead _ _ events => existsb isSaveRulesToStorageEvent events
  | _ => true
  end.

(** A save in flight will resolve the deferred [dfd]. *)
Definition owed (dfd : nat) (ts : list Task) : bool :=
  existsb (fun t => bool_decide (dfdOf t = Some dfd)) ts.

(** Every save in flight has an event to save, and every deferred that a
    [Promise.all] in flight waits for is owed by a save in flight. *)
Definition savesLinked (ts : list Task) : bool :=
  forallb savesSomething ts
  && forallb (fun t => forallb (fun dfd => owed dfd ts) (waitsFor t)) ts.

(** What a handler other than STEP 3 of a rebuild keeps: the
    [reloadedRules] flag, the number of forced update checks, the
    initialization flag, an initialization time that has been set, armed
    timers, at most [k] more listeners installed or to be installed, and
    the link between the saves in flight and the rebuilds that wait for
    them. *)
Definition calm (k : nat) (s s' : State) : Prop :=
  reloadedRules s' = reloadedRules s /\
  forcedUpdateChecks (trace s') = forcedUpdateChecks (trace s) /\
  applicationInitialized s' = applicationInitialized s /\
  (requestFilterInitTime s <> 0 -> requestFilterInitTime s' = requestFilterInitTime s) /\
  (Forall wellArmed (batchers s) -> Forall wellArmed (batchers s')) /\
  owedListeners s' <= owedListeners s + k /\
  (savesLinked (tasks s) = true -> savesLinked (tasks s') = true).





(** What the two listeners of a batcher append to its history when they
    are notified. *)
Definition recorded (n : EventType * Arg * list string) : list FilterEvent :=
  let '(ev, a, rs) := n in
  match ev with
  | ADD_RULES | REMOVE_RULE | UPDATE_FILTER_RULES | FILTER_ENABLE_DISABLE
  | UPDATE_USER_FILTER_RULES =>
      [{| event := ev; ev_filter := a; rules := rs; group := ANone |}]
  | FILTER_GROUP_ENABLE_DISABLE =>
      [{| event := ev; ev_filter := ANone; rules := []; group := a |}]
  | _ => []
  end.

Definition notifyOp (n : EventType * Arg * list string) : Op :=
  let '(ev, a, rs) := n in OpNotify ev a rs.

(** What a call of [addAntiBannerFilter] leaves alone: everything but the
    trace and the [installed] flag of the filter [id]. *)
Definition installsOnly (id : nat) (s s' : State) : Prop :=
  batchers s' = batchers s /\ tasks s' = tasks s /\ store s' = store s /\
  requestFilter s' = requestFilter s /\ groups s' = groups s /\
  applicationRunning s' = applicationRunning s /\
  List.map filterId (filters s') = List.map filterId (filters s) /\
  List.map enabled (filters s') = List.map enabled (filters s) /\
  participating (groups s') (filters s') = participating (groups s) (filters s) /\
  forall j, j <> id -> getFilter (filters s') j = getFilter (filters s) j.

(** ** Observations on the registry *)

(** The registry on which [initRequestFilter] starts the first rebuild. *)
Definition hydrated (s : State) : State :=
  loadGroupsStateInfo (loadFiltersVersionAndStateInfo s).

(** The flag [filtersState] holds for a filter, or else the registry's. *)
Definition persistedFilterEnabled (s : State) (f : Filter) : bool :=
  match filtersStateInfo s !! filterId f with
  | Some i => si_enabled i
  | None => enabled f
  end.

Definition persistedGroupEnabled (s : State) (g : Group) : bool :=
  default (g_enabled g) (groupsStateInfo s !! g_groupId g).

(** ** Observations on rule text *)

(** The line holds a line feed. *)
Fixpoint hasLineFeed (line : string) : bool :=
  match line with
  | EmptyString => false
  | String c rest => Ascii.eqb c lineFeedChar || hasLineFeed rest
  end.

(** The property names of a rule map are in enumeration order. *)
Definition rulesEnumerated (rulesFilterMap : list (nat * list string)) : Prop :=
  StronglySorted (fun a b => inOrder (Some a) (Some b)) (List.map fst rulesFilterMap).

(** *** More runs of the concrete installation *)

(** The clock shows 5 when the service is started. *)
Definition lateBootOps : list Op := OpTick 5 :: bootOps.

Definition bootedLate : State := default installation (runExample lateBootOps installation).

(** The application is stopped and, later, started again; the rebuild of the
    restart runs to its end. *)
Definition restartOps : list Op :=
  [OpStop; OpTick 7; OpStart noInstallHook 8; OpReadDone 0 1; OpReadDone 0 0;
   OpEngineStarted 0].

Definition restartedLate : State := default bootedLate (runExample restartOps bootedLate).









(** A filter of the catalog that is loaded and not installed. *)
Definition optionalFilter : Filter :=
  {| filterId := 3; groupId := 1; enabled := false; installed := false; loaded := true;
     version := "1.0.0.0"; lastCheckTime := 0; lastUpdateTime := 0; expires := 0 |}.

Definition catalogue : State := with_filters [adsFilter; privacyFilter; optionalFilter] booted.

(** A rule is added to the user filter; the timer has fired and the read of
    the save has called back: the write is in flight. *)
Definition addUserRule : list Op :=
  [OpNotify ADD_RULES (AFilter 0) ["x.com##.ad"]; OpTimer 0; OpDone 0].

Definition userSaving : State := default booted (runExample addUserRule booted).

(** The same collaborators with the user filter under the string "0". *)
Definition stringIdCollaborators : Collaborators :=
  {| convertRules := fun text => text;
     engineRulesCount := countRules;
     isTrustedFilter := fun _ => true;
     USER_FILTER_ID := IdString 0 |}.

Definition userSavingAsString : State :=
  default installation (@run stringIdCollaborators (bootOps ++ addUserRule) installation).

(** The notifications of [editAds]. *)
Definition editBurst : list (EventType * Arg * list string) :=
  [(ADD_RULES, AFilter 1, ["c.com##.ad"]); (REMOVE_RULE, AFilter 1, ["a.com##.ad"])].

(** An enabled filter whose group is not registered. *)
Definition strayFilter : Filter :=
  {| filterId := 4; groupId := 9; enabled := true; installed := true; loaded := true;
     version := "1.0.0.0"; lastCheckTime := 0; lastUpdateTime := 0; expires := 0 |}.

Definition strayInstallation : State := initial [strayFilter] [adsGroup] ∅ ∅ ∅ ∅.

(** The service is started; the first rebuild throws. *)
Definition strayBoot : list Op := [OpStart noInstallHook 7; OpRunInfo 0 normalRun].

Definition strayBooted : State :=
  default strayInstallation (runExample strayBoot strayInstallation).

(** It is stopped and started again, and an edit is notified. *)
Definition strayOps : list Op :=
  [OpStop; OpStart noInstallHook 8; OpNotify ADD_RULES (AFilter 4) ["x.com##.ad"]].

Definition strayLater : State := default strayBooted (runExample strayOps strayBooted).

(** *** The saves of a batch, from the reads to the writes *)


(** The writes in flight once the reads of these saves have called back. *)
Fixpoint writeTasks (dfd : nat) (saved : list (option nat * list string)) : list Task :=
  match saved with
  | [] => []
  | (key, converted) :: rest => TSaveWrite dfd key converted :: writeTasks (S dfd) rest
  end.







(** * Properties *)

Section Properties.

Context {collaborators : Collaborators}.

(** ** Counting in traces and task lists *)

Lemma compilations_app t u : compilations (t ++ u) = compilations t + compilations u.
Proof. unfold compilations. by rewrite List.filter_app, length_app. Qed.

Lemma initializations_app t u :
  initializations (t ++ u) = initializations t + initializations u.
Proof. unfold initializations. by rewrite List.filter_app, length_app. Qed.

Lemma forcedUpdateChecks_app t u :
  forcedUpdateChecks (t ++ u) = forcedUpdateChecks t + forcedUpdateChecks u.
Proof. unfold forcedUpdateChecks. by rewrite List.filter_app, length_app. Qed.

Lemma storageEffects_app t u : storageEffects (t ++ u) = storageEffects t ++ storageEffects u.
Proof. apply List.filter_app. Qed.

Lemma loading_app ts us : loading (ts ++ us) = loading ts + loading us.
Proof. unfold loading. by rewrite List.filter_app, length_app. Qed.

Lemma compiling_app ts us : compiling (ts ++ us) = compiling ts + compiling us.
Proof. unfold compiling. by rewrite List.filter_app, length_app. Qed.

Lemma noRebuild_app ts us : noRebuild (ts ++ us) = noRebuild ts && noRebuild us.
Proof. apply forallb_app. Qed.

(** Taking task [i] out of the list, by cases on what it is. *)
Lemma delete_split (ts : list Task) i t :
  ts !! i = Some t ->
  exists before after, ts = before ++ t :: after /\ delete i ts = before ++ after
                       /\ length before = i.
Proof.
  revert i. induction ts as [|u ts IH]; intros [|i] H; simpl in *; try discriminate.
  - injection H as ->. by exists [], ts.
  - destruct (IH _ H) as (b & a & -> & E & L).
    exists (u :: b), a. simpl. rewrite E, L. done.
Qed.

Lemma loading_delete ts i t :
  ts !! i = Some t -> loading ts = loading (delete i ts) + (if isLoad t then 1 else 0).
Proof.
  intros H. destruct (delete_split _ _ _ H) as (b & a & -> & -> & _).
  rewrite !loading_app. change (t :: a) with ([t] ++ a). rewrite loading_app.
  unfold loading at 2. simpl. destruct (isLoad t); simpl; lia.
Qed.

Lemma compiling_delete ts i t :
  ts !! i = Some t -> compiling ts = compiling (delete i ts) + (if isEngine t then 1 else 0).
Proof.
  intros H. destruct (delete_split _ _ _ H) as (b & a & -> & -> & _).
  rewrite !compiling_app. change (t :: a) with ([t] ++ a). rewrite compiling_app.
  unfold compiling at 2. simpl. destruct (isEngine t); simpl; lia.
Qed.

Lemma noRebuild_delete ts i : noRebuild ts = true -> noRebuild (delete i ts) = true.
Proof.
  unfold noRebuild. revert i. induction ts as [|t ts IH]; intros [|i]; simpl; auto.
  - intros H. apply andb_prop in H. tauto.
  - intros H. apply andb_prop in H as [-> H]. simpl. auto.
Qed.

Lemma noRebuild_lookup ts i t :
  noRebuild ts = true -> ts !! i = Some t -> isLoad t = false /\ isEngine t = false.
Proof.
  unfold noRebuild. rewrite forallb_forall. intros H Hi.
  assert (In t ts) as Ht by (apply list_elem_of_In; eapply list_elem_of_lookup_2; eauto).
  specialize (H _ Ht). destruct (isLoad t), (isEngine t); simpl in H; auto; discriminate.
Qed.

(** ** Equality of states, field by field *)

Lemma state_eq (s1 s2 : State) :
  requestFilter s1 = requestFilter s2 ->
  requestFilterInitTime s1 = requestFilterInitTime s2 ->
  applicationRunning s1 = applicationRunning s2 ->
  applicationInitialized s1 = applicationInitialized s2 ->
  reloadedRules s1 = reloadedRules s2 ->
  batchers s1 = batchers s2 ->
  filters s1 = filters s2 ->
  groups s1 = groups s2 ->
  filtersVersionInfo s1 = filtersVersionInfo s2 ->
  filtersStateInfo s1 = filtersStateInfo s2 ->
  groupsStateInfo s1 = groupsStateInfo s2 ->
  store s1 = store s2 ->
  tasks s1 = tasks s2 ->
  nextDfd s1 = nextDfd s2 ->
  nextHandle s1 = nextHandle s2 ->
  now s1 = now s2 ->
  trace s1 = trace s2 ->
  s1 = s2.
Proof. destruct s1, s2. simpl. intros. subst. reflexivity. Qed.

(** ** The loop that starts the saves of a batch *)

Lemma saveAll_eq byFilter s :
  saveAll byFilter s =
    (with_tasks (tasks s ++ saveTasks (nextDfd s) byFilter)
       (with_trace (trace s ++ saveReads byFilter)
          (with_nextDfd (nextDfd s + saveCount byFilter) s)),
     seq (nextDfd s) (saveCount byFilter)).
Proof.
  revert s. induction byFilter as [|[key events] rest IH]; intros s.
  - unfold saveCount. simpl. f_equal.
    apply state_eq; simpl; rewrite ?app_nil_r, ?Nat.add_0_r; reflexivity.
  - simpl. destruct (existsb isSaveRulesToStorageEvent events) eqn:E.
    + unfold processSaveFilterRulesToStorageEvents. rewrite IH.
      unfold saveCount. simpl. rewrite E. simpl. f_equal.
      apply state_eq; simpl; rewrite <- ?app_assoc, ?Nat.add_succ_r; reflexivity.
    + rewrite IH. unfold saveCount. simpl. rewrite E. reflexivity.
Qed.


Lemma saveReads_not_init byFilter : initializations (saveReads byFilter) = 0.
Proof.
  induction byFilter as [|[key events] rest IH]; simpl; auto.
  destruct (existsb _ events); simpl; auto.
Qed.


Lemma saveTasks_noRebuild dfd byFilter : noRebuild (saveTasks dfd byFilter) = true.
Proof.
  revert dfd. induction byFilter as [|[key events] rest IH]; intros dfd; simpl; auto.
  destruct (existsb _ events); simpl; auto.
Qed.

Lemma readsOf_not_init ids : initializations (readsOf ids) = 0.
Proof. induction ids; simpl; auto. Qed.

Lemma readsOf_not_compile ids : compilations (readsOf ids) = 0.
Proof. induction ids; simpl; auto. Qed.

(** Unfolding the handlers down to record updates. *)
Ltac unfold_service :=
  unfold start, stop, initialize,
    onSubscriptionLoaded, initRequestFilter,
    createRequestFilter, rulesLoaded,
    onFiltersLoadedFromStorage, requestFilterInitialized,
    reloadAntiBannerFilters, resetFiltersVersion,
    saveRulesLoaded, rulesWritten, resolve,
    processEventsHistory, loadGroupsStateInfo, loadFiltersVersionAndStateInfo,
    invokeIfFunction, invoke, addFiltersChangeEventListener, notifyListeners,
    getRequestFilterInfo, stateOf, spawn, emit in *.

(** ** What each handler changes *)

Lemma quiet_initializations es : forallb quietEffect es = true -> initializations es = 0.
Proof.
  induction es as [|e es IH]; simpl; auto. intros H. apply andb_prop in H as [He H].
  unfold initializations in *. simpl. destruct e; simpl in *; auto; discriminate.
Qed.

Lemma quiet_compilations es : forallb quietEffect es = true -> compilations es = 0.
Proof.
  induction es as [|e es IH]; simpl; auto. intros H. apply andb_prop in H as [He H].
  unfold compilations in *. simpl. destruct e; simpl in *; auto; discriminate.
Qed.

Lemma readsOf_quiet ids : forallb quietEffect (readsOf ids) = true.
Proof. induction ids; simpl; auto. Qed.

Lemma saveReads_quiet byFilter : forallb quietEffect (saveReads byFilter) = true.
Proof.
  induction byFilter as [|[key events] rest IH]; simpl; auto.
  destruct (existsb _ events); simpl; auto.
Qed.

Lemma delta_refl s : delta s s [] [].
Proof. unfold delta. rewrite !app_nil_r. tauto. Qed.

Lemma delta_trans s1 s2 s3 es1 es2 new1 new2 :
  delta s1 s2 es1 new1 -> delta s2 s3 es2 new2 -> delta s1 s3 (es1 ++ es2) (new1 ++ new2).
Proof.
  unfold delta. intros (T1 & K1 & A1 & B1 & C1 & D1 & E1) (T2 & K2 & A2 & B2 & C2 & D2 & E2).
  rewrite T2, T1, K2, K1, !app_assoc. repeat split; congruence.
Qed.

Ltac solve_delta :=
  unfold delta; unfold_service; simpl;
  rewrite ?app_nil_r, <- ?app_assoc; simpl; repeat split; reflexivity.

Lemma emit_delta e s : delta s (emit e s) [e] [].
Proof. solve_delta. Qed.

Lemma spawn_delta t s : delta s (spawn t s) [] [t].
Proof. solve_delta. Qed.

Lemma notifyListeners_delta ev a rs s : delta s (notifyListeners ev a rs s) [ENotify ev a] [].
Proof. solve_delta. Qed.

Lemma invoke_delta cb s :
  delta s (invoke cb s) [ECallback match cb with CbUser id | CbInit id => id end] [].
Proof. destruct cb; solve_delta. Qed.

Lemma invokeIfFunction_delta cb s :
  exists es, delta s (invokeIfFunction cb s) es [] /\ forallb quietEffect es = true.
Proof.
  destruct cb as [cb|]; simpl.
  - eexists. split; [apply invoke_delta | done].
  - exists []. split; [apply delta_refl | done].
Qed.

Lemma createRequestFilter_delta cb s :
  exists es new, delta s (stateOf (createRequestFilter cb s)) es new
    /\ forallb quietEffect es = true /\ compiling new = 0
    /\ (applicationRunning s = false -> new = []).
Proof.
  unfold createRequestFilter.
  destruct (applicationRunning s) eqn:R; simpl.
  - destruct (loadFilterRules (groups s) (filters s)) as [ids [|]]; simpl.
    + exists (readsOf (ids ++ [idValue USER_FILTER_ID])),
        [TLoad cb (ids ++ [idValue USER_FILTER_ID]) []].
      split; [solve_delta|]. rewrite readsOf_quiet. split; [done|]. split; [done|]. discriminate.
    + exists (readsOf ids ++ [EThrow]), []. split; [solve_delta|].
      rewrite forallb_app, readsOf_quiet. auto.
  - destruct (invokeIfFunction_delta cb s) as (es & D & Q). exists es, []. auto.
Qed.

Lemma initRequestFilter_delta cb s :
  exists es new, delta s (stateOf (initRequestFilter cb s)) es new
    /\ forallb quietEffect es = true /\ compiling new = 0
    /\ (applicationRunning s = false -> new = []).
Proof.
  unfold initRequestFilter.
  set (s1 := loadGroupsStateInfo (loadFiltersVersionAndStateInfo s)).
  destruct (createRequestFilter_delta (Some (CbInit cb)) s1) as (es & new & D & Q & C & N).
  exists es, new. split; [|auto].
  assert (delta s s1 [] []) as D0 by (subst s1; solve_delta).
  apply (delta_trans _ _ _ _ _ _ _ D0 D).
Qed.

Lemma saveRulesLoaded_delta dfd key events s :
  exists es new, delta s (saveRulesLoaded dfd key events s) es new
    /\ forallb quietEffect es = true /\ noRebuild new = true.
Proof.
  unfold saveRulesLoaded.
  destruct (applyEvents events (store s !! key)) as [l|].
  - exists [EConvertRules (join l); EStorageWrite key (split (convertRules (join l)))],
      [TSaveWrite dfd key (split (convertRules (join l)))].
    split; [solve_delta | done].
  - exists [EThrow], []. split; [solve_delta | done].
Qed.

Lemma processEventsHistory_delta b s :
  exists es new, delta s (processEventsHistory b s) es new
    /\ forallb quietEffect es = true /\ noRebuild new = true.
Proof.
  unfold processEventsHistory.
  destruct (batchers s !! b) as [batcher|]; [|exists [], []; split; [apply delta_refl | done]].
  rewrite saveAll_eq.
  set (byFilter := eventsByFilter (filterEventsHistory batcher)).
  destruct (existsb isUpdateRequestFilterEvent (filterEventsHistory batcher)).
  - exists (saveReads byFilter),
      (saveTasks (nextDfd s) byFilter ++ [TThen (seq (nextDfd s) (saveCount byFilter))]).
    split; [solve_delta|]. rewrite saveReads_quiet, noRebuild_app, saveTasks_noRebuild. done.
  - eexists (saveReads byFilter ++ [ENotify REQUEST_FILTER_UPDATED _]),
      (saveTasks (nextDfd s) byFilter).
    split; [solve_delta|]. rewrite forallb_app, saveReads_quiet, saveTasks_noRebuild. done.
Qed.

Lemma compiling_noRebuild new : noRebuild new = true -> compiling new = 0.
Proof.
  unfold noRebuild, compiling. induction new as [|t new IH]; simpl; auto.
  intros H. apply andb_prop in H as [Ht H]. destruct (isEngine t); simpl.
  - rewrite orb_true_r in Ht. discriminate.
  - auto.
Qed.

Lemma onSubscriptionLoaded_delta options cb runInfo s :
  exists es new, delta s (stateOf (onSubscriptionLoaded options cb runInfo s)) es new
    /\ forallb quietEffect es = true /\ compiling new = 0
    /\ (applicationRunning s = false -> noRebuild new = true).
Proof.
  unfold onSubscriptionLoaded.
  destruct (isFirstRun runInfo); [|destruct (isUpdate runInfo)].
  - destruct (onInstall options) as [hook|]; simpl.
    + exists [ESettingsListener; EOnInstall hook cb; EScheduleFiltersUpdate true],
        [TOnInstall cb]. split; [solve_delta | done].
    + exists [ESettingsListener; ECallback cb; EScheduleFiltersUpdate true], [].
      split; [solve_delta | done].
  - simpl. exists [ESettingsListener; EOnUpdate; EScheduleFiltersUpdate false],
      [TOnUpdate cb; TAppUpdated runInfo]. split; [solve_delta | done].
  - destruct (initRequestFilter_delta cb (emit ESettingsListener s))
      as (es & new & D & Q & C & N).
    pose proof (delta_trans _ _ _ _ _ _ _ (emit_delta ESettingsListener s) D) as D1.
    destruct (initRequestFilter cb (emit ESettingsListener s)) as [s3|s3]; simpl in *.
    + exists ((ESettingsListener :: es) ++ [EScheduleFiltersUpdate false]), (new ++ []).
      split; [apply (delta_trans _ _ _ _ _ _ _ D1 (emit_delta _ _))|].
      split; [simpl; rewrite forallb_app, Q; done|].
      rewrite app_nil_r. split; [done|]. intros R. rewrite (N R). done.
    + exists (ESettingsListener :: es), new. split; [done|].
      split; [simpl; by rewrite Q|]. split; [done|]. intros R. rewrite (N R). done.
Qed.

Lemma start_summary options cb s :
  let s' := stateOf (start options cb s) in
  exists es new,
    trace s' = trace s ++ es /\ tasks s' = tasks s ++ new /\
    requestFilter s' = requestFilter s /\ nextHandle s' = nextHandle s /\
    store s' = store s /\ applicationRunning s' = true /\
    applicationInitialized s' = applicationInitialized s || negb (applicationRunning s) /\
    compilations es = 0 /\ compiling new = 0 /\
    initializations es
      = (if applicationRunning s || applicationInitialized s then 0 else 1).
Proof.
  unfold start. destruct (applicationRunning s) eqn:R; simpl.
  - exists [ECallback cb], []. rewrite app_nil_r, orb_false_r. repeat split; done.
  - destruct (applicationInitialized s) eqn:I; simpl.
    + destruct (createRequestFilter_delta (Some (CbUser cb)) (with_applicationRunning true s))
        as (es & new & D & Q & C & N).
      destruct D as (T & K & A & B & E & F & G). simpl in *.
      exists es, new. rewrite (quiet_compilations _ Q), (quiet_initializations _ Q).
      rewrite E, I. repeat split; auto.
    + exists [EGetRunInfo], [TGetRunInfo options cb]. repeat split; done.
Qed.

Lemma stop_summary s :
  trace (stop s) = trace s ++ [ENotify REQUEST_FILTER_UPDATED (AInfo 0)] /\
  tasks (stop s) = tasks s /\
  requestFilter (stop s) = {| handle := nextHandle s; getRulesCount := 0 |} /\
  nextHandle (stop s) = S (nextHandle s) /\ store (stop s) = store s /\
  applicationRunning (stop s) = false /\
  applicationInitialized (stop s) = applicationInitialized s.
Proof. repeat split; reflexivity. Qed.

Lemma rulesWritten_summary dfd key converted s :
  let s' := rulesWritten dfd key converted s in
  exists es,
    trace s' = trace s ++ es /\ forallb quietEffect es = true /\
    tasks s' = List.map (resolveIn dfd) (tasks s) /\
    requestFilter s' = requestFilter s /\ nextHandle s' = nextHandle s /\
    store s' = <[key := converted]> (store s) /\
    applicationRunning s' = applicationRunning s /\
    applicationInitialized s' = applicationInitialized s.
Proof.
  unfold rulesWritten. destruct (strictEq key USER_FILTER_ID); simpl.
  - eexists [ENotify UPDATE_USER_FILTER_RULES _]. repeat split; reflexivity.
  - exists []. rewrite app_nil_r. repeat split; reflexivity.
Qed.

Lemma onFiltersLoadedFromStorage_summary rulesFilterMap cb s :
  let s' := onFiltersLoadedFromStorage rulesFilterMap cb s in
  exists es,
    trace s' = trace s ++ es ++ [EStartEngine (ruleLists rulesFilterMap)] /\
    forallb quietEffect es = true /\
    tasks s' = tasks s ++ [TEngine cb rulesFilterMap (nextHandle s) (ruleLists rulesFilterMap)] /\
    requestFilter s' = requestFilter s /\ nextHandle s' = S (nextHandle s) /\
    store s' = store s /\ applicationRunning s' = applicationRunning s /\
    applicationInitialized s' = applicationInitialized s.
Proof.
  unfold onFiltersLoadedFromStorage. simpl.
  destruct (Nat.eqb (requestFilterInitTime s) 0); simpl.
  - exists [ENotify APPLICATION_INITIALIZED ANone]. rewrite <- app_assoc.
    repeat split; reflexivity.
  - exists []. repeat split; reflexivity.
Qed.

Lemma rulesLoaded_summary cb pending rulesFilterMap id s :
  let s' := rulesLoaded cb pending rulesFilterMap id s in
  let rulesFilterMap' := loadedMap (store s) [id] rulesFilterMap in
  requestFilter s' = requestFilter s /\ store s' = store s /\
  applicationRunning s' = applicationRunning s /\
  applicationInitialized s' = applicationInitialized s /\
  ((removeFirst id pending <> [] /\ trace s' = trace s /\
    tasks s' = tasks s ++ [TLoad cb (removeFirst id pending) rulesFilterMap'] /\
    nextHandle s' = nextHandle s)
   \/ (removeFirst id pending = [] /\
       (exists es, trace s' = trace s ++ es ++ [EStartEngine (ruleLists rulesFilterMap')]
                   /\ forallb quietEffect es = true) /\
       tasks s' = tasks s
                    ++ [TEngine cb rulesFilterMap' (nextHandle s) (ruleLists rulesFilterMap')] /\
       nextHandle s' = S (nextHandle s))).
Proof.
  unfold rulesLoaded, loadedMap. simpl.
  set (m := match store s !! Some id with Some t => setRules id t rulesFilterMap
                                     | None => rulesFilterMap end).
  destruct (removeFirst id pending) as [|p ps] eqn:E.
  - destruct (onFiltersLoadedFromStorage_summary m cb s)
      as (es & T & Q & K & A & B & C & D & F).
    repeat split; auto. right. split; [done|]. split; [exists es; auto|]. auto.
  - simpl. repeat split; auto.
Qed.

Lemma requestFilterInitialized_summary cb rulesFilterMap h lists s :
  let s' := requestFilterInitialized cb rulesFilterMap h lists s in
  exists es,
    trace s' = trace s ++ es /\ forallb quietEffect es = true /\
    tasks s' = tasks s /\
    requestFilter s' = {| handle := h; getRulesCount := engineRulesCount lists |} /\
    nextHandle s' = nextHandle s /\ store s' = store s /\
    applicationRunning s' = applicationRunning s /\
    applicationInitialized s' = applicationInitialized s.
Proof.
  unfold requestFilterInitialized.
  destruct cb as [[id|id]|]; simpl;
    destruct (isEmptyRulesFilterMap rulesFilterMap); simpl;
    destruct (Nat.eqb (engineRulesCount lists) 0); simpl;
    destruct (reloadedRules s); simpl;
    try destruct (Nat.ltb 0 (engineRulesCount lists)); simpl;
    eexists; (split; [rewrite <- ?app_assoc; simpl; reflexivity|]);
    (split; [reflexivity|]); repeat split; reflexivity.
Qed.

(** ** The shape of every turn *)

Lemma plain_untaken o s s' es new :
  delta s s' es new -> forallb quietEffect es = true -> noRebuild new = true ->
  Turn o s s'.
Proof.
  intros D Q N. apply (TurnPlain o s s' None es new); auto.
  - discriminate.
  - by apply compiling_noRebuild.
Qed.

Lemma plain_taken o s s' j t es new :
  tasks s !! j = Some t -> isLoad t = false -> isEngine t = false -> waitsFor t = [] ->
  delta (without (Some j) s) s' es new -> forallb quietEffect es = true ->
  compiling new = 0 -> (applicationRunning s = false -> noRebuild new = true) ->
  Turn o s s'.
Proof.
  intros H L E W D Q C N. apply (TurnPlain o s s' (Some j) es new); auto.
  intros ? [= <-]. eauto.
Qed.

Lemma step_turn o s s' : step o s = Some s' -> Turn o s s'.
Proof.
  intros H. destruct o; simpl in H.
  - injection H as <-. by eapply TurnStart.
  - injection H as <-. by apply TurnStop.
  - injection H as <-. eapply plain_untaken; [apply notifyListeners_delta | done | done].
  - destruct (batchers s !! b) as [batcher|]; [|discriminate].
    destruct (onFilterChangeTimeout batcher); [|discriminate]. injection H as <-.
    destruct (processEventsHistory_delta b s) as (es & new & D & Q & N).
    by eapply plain_untaken.
  - unfold takeTask in H. destruct (tasks s !! i) as [t|] eqn:Ht; [|discriminate].
    destruct t; try discriminate. injection H as <-.
    destruct (onSubscriptionLoaded_delta options callback runInfo
                (emit ESubscriptionsInit (without (Some i) s))) as (es & new & D & Q & C & N).
    apply (plain_taken _ _ _ i _ (ESubscriptionsInit :: es) new Ht);
      [done | done | done | | by simpl; rewrite Q | done | done].
    apply (delta_trans _ _ _ _ _ _ _ (emit_delta _ _) D).
  - unfold takeTask in H. destruct (tasks s !! i) as [t|] eqn:Ht; [|discriminate].
    destruct t; try discriminate.
    + injection H as <-.
      apply (plain_taken _ _ _ i _ [ECallback callback] [] Ht);
        [done | done | done | apply (invoke_delta (CbUser callback)) | done | done | done].
    + injection H as <-.
      destruct (initRequestFilter_delta callback (without (Some i) s))
        as (es & new & D & Q & C & N).
      apply (plain_taken _ _ _ i _ es new Ht); [done | done | done | done | done | done |].
      intros R. rewrite (N R). done.
    + injection H as <-.
      apply (plain_taken _ _ _ i _ [ENotify APPLICATION_UPDATED (ARunInfo runInfo)] [] Ht);
        [done | done | done | apply notifyListeners_delta | done | done | done].
    + injection H as <-.
      destruct (saveRulesLoaded_delta dfd key events (without (Some i) s))
        as (es & new & D & Q & N).
      apply (plain_taken _ _ _ i _ es new Ht);
        [done | done | done | done | done | by apply compiling_noRebuild | done].
    + injection H as <-. by eapply TurnWritten.
    + destruct dfds; [|discriminate]. injection H as <-.
      destruct (createRequestFilter_delta None (without (Some i) s))
        as (es & new & D & Q & C & N).
      apply (plain_taken _ _ _ i _ es new Ht); [done | done | done | done | done | done |].
      intros R. rewrite (N R). done.
  - unfold takeTask in H. destruct (tasks s !! i) as [t|] eqn:Ht; [|discriminate].
    destruct t; try discriminate. destruct (memb id pending) eqn:M; [|discriminate].
    injection H as <-. by eapply TurnRead.
  - unfold takeTask in H. destruct (tasks s !! i) as [t|] eqn:Ht; [|discriminate].
    destruct t; try discriminate. destruct (memb id pending) eqn:M; [|discriminate].
    injection H as <-. by eapply TurnReadFailed.
  - unfold takeTask in H. destruct (tasks s !! i) as [t|] eqn:Ht; [|discriminate].
    destruct t; try discriminate. injection H as <-. by eapply TurnEngine.
  - unfold takeTask in H. destruct (tasks s !! i) as [t|] eqn:Ht; [|discriminate].
    destruct t; try discriminate. injection H as <-. by eapply TurnEngineFailed.
  - injection H as <-. apply (plain_untaken _ _ _ [] []); [|done|done].
    unfold delta. simpl. rewrite !app_nil_r. repeat split; reflexivity.
  - injection H as <-. apply (plain_untaken _ _ _ [] []); [|done|done].
    unfold delta. simpl. rewrite !app_nil_r. repeat split; reflexivity.
Qed.

Lemma run_app ops1 ops2 s :
  run (ops1 ++ ops2) s = match run ops1 s with Some s1 => run ops2 s1 | None => None end.
Proof.
  revert s. induction ops1 as [|o ops1 IH]; intros s; simpl; auto.
  destruct (step o s); auto.
Qed.

(** An invariant of [step] that holds initially holds in every reachable state. *)
Lemma run_invariant (P : State -> Prop) :
  (forall o s s', step o s = Some s' -> P s -> P s') ->
  forall ops s s', run ops s = Some s' -> P s -> P s'.
Proof.
  intros Hstep ops. induction ops as [|o ops IH]; intros s s' H Hs; simpl in H.
  - by injection H as <-.
  - destruct (step o s) as [s1|] eqn:E; [|discriminate]. eauto.
Qed.

Lemma reachable_invariant (P : State -> Prop) :
  (forall fs gs versions states groupStates stored,
      P (initial fs gs versions states groupStates stored)) ->
  (forall o s s', step o s = Some s' -> P s -> P s') ->
  forall s, reachable s -> P s.
Proof.
  intros Hinit Hstep s (ops & fs & gs & v & st & gst & stored & H).
  eapply run_invariant; eauto.
Qed.

Lemma reachable_run ops s s' : reachable s -> run ops s = Some s' -> reachable s'.
Proof.
  intros (ops0 & fs & gs & v & st & gst & stored & H) H'.
  exists (ops0 ++ ops), fs, gs, v, st, gst, stored. rewrite run_app, H. done.
Qed.

(** ** Initialization runs once *)

Lemma step_initializedOnce o s s' :
  step o s = Some s' -> initializedOnce s -> initializedOnce s'.
Proof.
  unfold initializedOnce. intros H [I R]. destruct (step_turn _ _ _ H)
    as [options cb _ -> | _ -> | i es new _ D Q _ _
       | i dfd key converted _ _ -> | i id cb pending m _ _ _ ->
       | i id cb pending m _ _ _ -> | i cb m h lists _ _ -> | i cb m h lists _ _ ->].
  - destruct (start_summary options cb s) as (es & new & T & _ & _ & _ & _ & Rn & In & _ & _ & N).
    rewrite T, In, initializations_app, N, I.
    destruct (applicationRunning s) eqn:E, (applicationInitialized s) eqn:F;
      simpl; split; auto.
  - destruct (stop_summary s) as (T & _ & _ & _ & _ & Rn & In).
    rewrite T, In, Rn, initializations_app, I. simpl. rewrite Nat.add_0_r. split; [done | discriminate].
  - destruct D as (T & _ & _ & Rn & In & _ & _). rewrite T, Rn, In, initializations_app.
    rewrite (quiet_initializations _ Q), Nat.add_0_r. destruct i; simpl in *; split; auto.
  - destruct (rulesWritten_summary dfd key converted (without (Some i) s))
      as (es & T & Q & _ & _ & _ & _ & Rn & In).
    rewrite T, Rn, In, initializations_app, (quiet_initializations _ Q), Nat.add_0_r.
    simpl. split; auto.
  - destruct (rulesLoaded_summary cb pending m id (without (Some i) s))
      as (_ & _ & Rn & In & [(_ & T & _ & _) | (_ & (es & T & Q) & _ & _)]);
      rewrite T, Rn, In; simpl; [split; auto|].
    rewrite !initializations_app, (quiet_initializations _ Q). simpl.
    rewrite !Nat.add_0_r. split; auto.
  - simpl. auto.
  - destruct (requestFilterInitialized_summary cb m h lists (without (Some i) s))
      as (es & T & Q & _ & _ & _ & _ & Rn & In).
    rewrite T, Rn, In, initializations_app, (quiet_initializations _ Q), Nat.add_0_r.
    simpl. split; auto.
  - simpl. auto.
Qed.

Lemma reachable_initializedOnce s : reachable s -> initializedOnce s.
Proof.
  apply reachable_invariant; [|apply step_initializedOnce].
  intros. split; [reflexivity | discriminate].
Qed.

(** C6: While the application is running, [start] only invokes the
    completion callback: the call returns the state it was given with one
    more callback in the trace.  Two such calls give two callbacks and
    nothing else.  [initialize] has run exactly once by then, and it never
    runs again, whatever happens afterwards. *)
Theorem start_while_running_only_calls_back options1 cb1 options2 cb2 s ops s' :
  reachable s -> applicationRunning s = true -> run ops s = Some s' ->
  start options1 cb1 s = Normal (emit (ECallback cb1) s) /\
  run [OpStart options1 cb1; OpStart options2 cb2] s
    = Some (with_trace (trace s ++ [ECallback cb1; ECallback cb2]) s) /\
  initializations (trace s) = 1 /\
  initializations (trace s') = 1.
Proof.
  intros Hs R H. split; [|split; [|split]].
  - unfold start. rewrite R. reflexivity.
  - simpl. unfold start. rewrite R. simpl. rewrite R. f_equal.
    apply state_eq; simpl; rewrite <- ?app_assoc; reflexivity.
  - destruct (reachable_initializedOnce s Hs) as [I Ri]. rewrite I, (Ri R). done.
  - destruct (reachable_initializedOnce s Hs) as [_ Ri].
    destruct (reachable_initializedOnce s' (reachable_run _ _ _ Hs H)) as [I' _].
    rewrite I'. assert (applicationInitialized s' = true) as ->; [|done].
    clear I'. revert H. generalize (Ri R). clear. revert s.
    induction ops as [|o ops IH]; intros s I H; simpl in H.
    + by injection H as <-.
    + destruct (step o s) as [s1|] eqn:E; [|discriminate]. apply (IH s1); [|done].
      clear IH H. destruct (step_turn _ _ _ E)
        as [options cb _ -> | _ -> | i es new _ D Q _ _
           | i dfd key converted _ _ -> | i id cb pending m _ _ _ ->
           | i id cb pending m _ _ _ -> | i cb m h lists _ _ -> | i cb m h lists _ _ ->].
      * destruct (start_summary options cb s) as (es & new & _ & _ & _ & _ & _ & _ & In & _).
        rewrite In, I. done.
      * done.
      * destruct D as (_ & _ & _ & _ & In & _). rewrite In. by destruct i.
      * destruct (rulesWritten_summary dfd key converted (without (Some i) s))
          as (es & _ & _ & _ & _ & _ & _ & _ & In). by rewrite In.
      * destruct (rulesLoaded_summary cb pending m id (without (Some i) s))
          as (_ & _ & _ & In & _). by rewrite In.
      * done.
      * destruct (requestFilterInitialized_summary cb m h lists (without (Some i) s))
          as (es & _ & _ & _ & _ & _ & _ & _ & In). by rewrite In.
      * done.
Qed.

(** ** Handles are allocated before they are published *)

Lemma handleOf_resolveIn dfd t : handleOf (resolveIn dfd t) = handleOf t.
Proof. by destruct t. Qed.

Lemma compiling_zero_handles new :
  compiling new = 0 -> Forall (fun t => handleOf t = None) new.
Proof.
  unfold compiling. induction new as [|t new IH]; simpl; [constructor|].
  destruct t; simpl; try discriminate; intros H; constructor; auto.
Qed.

Lemma allocated_weaken (n m : nat) ts :
  n <= m ->
  Forall (fun t => forall h, handleOf t = Some h -> h < n) ts ->
  Forall (fun t => forall h, handleOf t = Some h -> h < m) ts.
Proof.
  intros L A. eapply Forall_impl; [exact A|]. simpl. intros t H h E. specialize (H h E). lia.
Qed.

Lemma allocated_new (n : nat) new :
  compiling new = 0 -> Forall (fun t => forall h, handleOf t = Some h -> h < n) new.
Proof.
  intros C. eapply Forall_impl; [apply (compiling_zero_handles _ C)|].
  simpl. intros t -> h [=].
Qed.

Lemma allocated_delete (n : nat) ts i :
  Forall (fun t => forall h, handleOf t = Some h -> h < n) ts ->
  Forall (fun t => forall h, handleOf t = Some h -> h < n) (delete i ts).
Proof.
  revert i. induction ts as [|t ts IH]; intros [|i] H; simpl; auto;
    inversion H; subst; auto.
Qed.

Lemma allocated_without (n : nat) i s :
  Forall (fun t => forall h, handleOf t = Some h -> h < n) (tasks s) ->
  Forall (fun t => forall h, handleOf t = Some h -> h < n) (tasks (without i s)).
Proof. destruct i; simpl; auto. apply allocated_delete. Qed.

Lemma step_handlesAllocated o s s' :
  step o s = Some s' -> handlesAllocated s -> handlesAllocated s'.
Proof.
  unfold handlesAllocated. intros H [L A]. destruct (step_turn _ _ _ H)
    as [options cb _ -> | _ -> | i es new _ D Q C _
       | i dfd key converted _ _ -> | i id cb pending m _ _ _ ->
       | i id cb pending m _ _ _ -> | i cb m h lists _ Ht -> | i cb m h lists _ _ ->].
  - destruct (start_summary options cb s) as (es & new & _ & K & F & N & _ & _ & _ & _ & C & _).
    rewrite K, F, N. split; [done|]. apply Forall_app. split; [done|].
    by apply allocated_new.
  - destruct (stop_summary s) as (_ & K & F & N & _). rewrite K, F, N. simpl.
    split; [lia|]. eapply allocated_weaken; [|exact A]. lia.
  - destruct D as (_ & K & F & _ & _ & N & _). rewrite K, F, N.
    split; [by destruct i|]. apply Forall_app. split; [|by apply allocated_new].
    replace (nextHandle (without i s)) with (nextHandle s) by (by destruct i).
    by apply allocated_without.
  - destruct (rulesWritten_summary dfd key converted (without (Some i) s))
      as (es & _ & _ & K & F & N & _). rewrite K, F, N. simpl. split; [done|].
    apply Forall_map. eapply Forall_impl; [apply (allocated_delete _ _ i A)|].
    simpl. intros t Ht h. rewrite handleOf_resolveIn. apply Ht.
  - destruct (rulesLoaded_summary cb pending m id (without (Some i) s))
      as (F & _ & _ & _ & [(_ & _ & K & N) | (_ & _ & K & N)]); rewrite K, F, N; simpl.
    + split; [done|]. apply Forall_app. split; [by apply allocated_delete|].
      constructor; [|constructor]. intros h [=].
    + split; [lia|]. apply Forall_app. split.
      * eapply allocated_weaken; [|apply (allocated_delete _ _ i A)]. lia.
      * constructor; [|constructor]. simpl. intros h [= <-]. lia.
  - simpl. split; [done|]. by apply allocated_delete.
  - destruct (requestFilterInitialized_summary cb m h lists (without (Some i) s))
      as (es & _ & _ & K & F & N & _). rewrite K, F, N. simpl. split.
    + rewrite Forall_forall in A. apply (A (TEngine cb m h lists)); [|done].
      eapply list_elem_of_lookup_2; eauto.
    + by apply allocated_delete.
  - simpl. split; [done|]. by apply allocated_delete.
Qed.

Lemma reachable_handlesAllocated s : reachable s -> handlesAllocated s.
Proof.
  apply reachable_invariant; [|apply step_handlesAllocated].
  intros. split; simpl; [lia | constructor].
Qed.

(** C7: Every call of [stop] leaves the application stopped, puts a fresh
    handle with rule count 0 in place of the live one (the handle that
    [getRequestFilter] returns afterwards is neither the previous handle
    nor one that a rebuild in flight is about to publish), and announces
    REQUEST_FILTER_UPDATED with rule count 0. *)
Theorem stop_fail_closed s :
  reachable s ->
  applicationRunning (stop s) = false /\
  getRulesCount (getRequestFilter (stop s)) = 0 /\
  handle (getRequestFilter (stop s)) <> handle (getRequestFilter s) /\
  Forall (fun t => handleOf t <> Some (handle (getRequestFilter (stop s)))) (tasks (stop s)) /\
  trace (stop s) = trace s ++ [ENotify REQUEST_FILTER_UPDATED (AInfo 0)].
Proof.
  intros Hs. destruct (reachable_handlesAllocated s Hs) as [L A].
  unfold getRequestFilter. simpl. repeat split; auto.
  - lia.
  - eapply Forall_impl; [exact A|]. simpl. intros t Ht E. specialize (Ht _ E). lia.
Qed.

(** ** Stopped and quiet *)

Lemma noRebuild_map_resolveIn dfd ts :
  noRebuild (List.map (resolveIn dfd) ts) = noRebuild ts.
Proof.
  unfold noRebuild. induction ts as [|t ts IH]; simpl; auto. rewrite IH. by destruct t.
Qed.

Lemma noRebuild_without i s : noRebuild (tasks s) = true -> noRebuild (tasks (without i s)) = true.
Proof. destruct i; simpl; auto. apply noRebuild_delete. Qed.

(** A turn other than a call of [start] or [stop] keeps a stopped service
    without rebuilds in flight as it is: stopped, without rebuilds, with the
    same handle and without a compilation. *)
Lemma step_stoppedQuiet o s s' :
  step o s = Some s' -> isStart o = false -> stoppedQuiet s ->
  stoppedQuiet s' /\ (isStop o = false -> requestFilter s' = requestFilter s) /\
  getRulesCount (requestFilter s') <= getRulesCount (requestFilter s) /\
  compilations (trace s') = compilations (trace s).
Proof.
  unfold stoppedQuiet. intros H NS [R N]. destruct (step_turn _ _ _ H)
    as [options cb -> _ | -> -> | i es new _ D Q C Nn
       | i dfd key converted _ _ -> | i id cb pending m _ Ht _ _
       | i id cb pending m _ Ht _ _ | i cb m h lists _ Ht _ | i cb m h lists _ Ht _].
  - discriminate.
  - destruct (stop_summary s) as (T & K & F & _ & _ & Rn & _).
    rewrite T, K, F, compilations_app. simpl.
    repeat split; auto; [discriminate | lia].
  - destruct D as (T & K & F & Rn & _). rewrite T, K, F, Rn, compilations_app.
    rewrite (quiet_compilations _ Q), noRebuild_app, (Nn R), (noRebuild_without i s N).
    destruct i; simpl; repeat split; auto; lia.
  - destruct (rulesWritten_summary dfd key converted (without (Some i) s))
      as (es & T & Q & K & F & _ & _ & Rn & _).
    rewrite T, K, F, Rn, compilations_app, (quiet_compilations _ Q), noRebuild_map_resolveIn.
    simpl. rewrite (noRebuild_delete _ i N). repeat split; auto; lia.
  - destruct (noRebuild_lookup _ _ _ N Ht). discriminate.
  - destruct (noRebuild_lookup _ _ _ N Ht). discriminate.
  - destruct (noRebuild_lookup _ _ _ N Ht). discriminate.
  - destruct (noRebuild_lookup _ _ _ N Ht). discriminate.
Qed.

Lemma loading_noRebuild new : noRebuild new = true -> loading new = 0.
Proof.
  unfold noRebuild, loading. induction new as [|t new IH]; simpl; auto.
  intros H. apply andb_prop in H as [Ht H]. destruct (isLoad t); [discriminate|auto].
Qed.

Lemma loading_map_resolveIn dfd ts : loading (List.map (resolveIn dfd) ts) = loading ts.
Proof.
  unfold loading. induction ts as [|t ts IH]; simpl; [done|].
  destruct t; simpl; auto.
Qed.

Lemma compiling_map_resolveIn dfd ts : compiling (List.map (resolveIn dfd) ts) = compiling ts.
Proof.
  unfold compiling. induction ts as [|t ts IH]; simpl; [done|].
  destruct t; simpl; auto.
Qed.

Lemma loading_load cb pending m : loading [TLoad cb pending m] = 1.
Proof. reflexivity. Qed.

Lemma compiling_load cb pending m : compiling [TLoad cb pending m] = 0.
Proof. reflexivity. Qed.

Lemma loading_engine cb m h lists : loading [TEngine cb m h lists] = 0.
Proof. reflexivity. Qed.

Lemma compiling_engine cb m h lists : compiling [TEngine cb m h lists] = 1.
Proof. reflexivity. Qed.

Lemma compilations_start lists : compilations [EStartEngine lists] = 1.
Proof. reflexivity. Qed.

(** A turn other than a call of [start] or [stop] in a stopped service,
    whatever is in flight: the service stays stopped and no rebuild is
    started; an engine is started only by a rebuild that was loading, and
    the handle is replaced only by a rebuild that leaves the ones in
    flight. *)
Lemma step_stopped o s s' :
  step o s = Some s' -> isStart o = false -> isStop o = false ->
  applicationRunning s = false ->
  applicationRunning s' = false /\
  loading (tasks s') <= loading (tasks s) /\
  loading (tasks s') + compiling (tasks s') <= loading (tasks s) + compiling (tasks s) /\
  compilations (trace s') + loading (tasks s') <= compilations (trace s) + loading (tasks s) /\
  (requestFilter s' = requestFilter s \/
   loading (tasks s') + compiling (tasks s') < loading (tasks s) + compiling (tasks s)).
Proof.
  intros H NS NP R. destruct (step_turn _ _ _ H)
    as [options cb -> _ | -> _ | i es new Hi D Q C Nn
       | i dfd key converted _ Ht -> | i id cb pending m _ Ht _ ->
       | i id cb pending m _ Ht _ -> | i cb m h lists _ Ht -> | i cb m h lists _ Ht ->];
    try discriminate.
  - destruct D as (T & K & F & Rn & _). rewrite T, K, F, Rn, compilations_app, loading_app,
      compiling_app, (quiet_compilations _ Q), (loading_noRebuild _ (Nn R)), C.
    destruct i as [j|]; simpl; [|repeat split; auto; lia].
    destruct (Hi j eq_refl) as (t & Ht & L & E & _).
    pose proof (loading_delete _ _ _ Ht) as Ld. pose proof (compiling_delete _ _ _ Ht) as Cd.
    rewrite L in Ld. rewrite E in Cd. repeat split; auto; lia.
  - destruct (rulesWritten_summary dfd key converted (without (Some i) s))
      as (es & T & Q & K & F & _ & _ & Rn & _).
    rewrite T, K, F, Rn, compilations_app, (quiet_compilations _ Q), loading_map_resolveIn,
      compiling_map_resolveIn. simpl.
    pose proof (loading_delete _ _ _ Ht) as Ld. pose proof (compiling_delete _ _ _ Ht) as Cd.
    simpl in Ld, Cd. repeat split; auto; lia.
  - pose proof (loading_delete _ _ _ Ht) as Ld. pose proof (compiling_delete _ _ _ Ht) as Cd.
    simpl in Ld, Cd.
    destruct (rulesLoaded_summary cb pending m id (without (Some i) s))
      as (F & _ & Rn & _ & [(_ & T & K & _) | (_ & (es & T & Q) & K & _)]);
      rewrite T, K, F, Rn, ?compilations_app, loading_app, compiling_app;
      rewrite ?(quiet_compilations _ Q); simpl.
    + rewrite loading_load, compiling_load. repeat split; auto; lia.
    + rewrite loading_engine, compiling_engine, compilations_start.
      repeat split; auto; lia.
  - pose proof (loading_delete _ _ _ Ht) as Ld. pose proof (compiling_delete _ _ _ Ht) as Cd.
    simpl in *. repeat split; auto; lia.
  - pose proof (loading_delete _ _ _ Ht) as Ld. pose proof (compiling_delete _ _ _ Ht) as Cd.
    simpl in Ld, Cd.
    destruct (requestFilterInitialized_summary cb m h lists (without (Some i) s))
      as (es & T & Q & K & _ & _ & _ & Rn & _).
    rewrite T, K, Rn, compilations_app, (quiet_compilations _ Q). simpl.
    split; [done|]. split; [lia|]. split; [lia|]. split; [lia|]. right. lia.
  - pose proof (loading_delete _ _ _ Ht) as Ld. pose proof (compiling_delete _ _ _ Ht) as Cd.
    simpl in *. repeat split; auto; lia.
Qed.

(** C10 (amended): When the application is not running, whatever is in
    flight, [createRequestFilter] calls its callback, if it is a function,
    and returns: it reads no rule text, starts no engine and leaves the
    handle alone.  Hence, while the application is stopped, no turn other
    than a call of [start] or [stop] starts a rebuild: the rebuilds in
    flight only become fewer, and an engine is started only for a rebuild
    that was already loading.  The handle is replaced only when such a
    rebuild, which passed the guard before the application stopped, leaves
    the rebuilds in flight; with no rebuild in flight the handle stays and
    nothing is compiled. *)
Theorem createRequestFilter_stopped_is_guarded cb s ops s' :
  applicationRunning s = false ->
  forallb (fun o => negb (isStart o || isStop o)) ops = true ->
  run ops s = Some s' ->
  createRequestFilter cb s = Normal (invokeIfFunction cb s) /\
  getRequestFilter (invokeIfFunction cb s) = getRequestFilter s /\
  tasks (invokeIfFunction cb s) = tasks s /\
  store (invokeIfFunction cb s) = store s /\
  storageEffects (trace (invokeIfFunction cb s)) = storageEffects (trace s) /\
  compilations (trace (invokeIfFunction cb s)) = compilations (trace s) /\
  applicationRunning s' = false /\
  loading (tasks s') <= loading (tasks s) /\
  loading (tasks s') + compiling (tasks s') <= loading (tasks s) + compiling (tasks s) /\
  compilations (trace s') + loading (tasks s') <= compilations (trace s) + loading (tasks s) /\
  (getRequestFilter s' = getRequestFilter s \/
   loading (tasks s') + compiling (tasks s') < loading (tasks s) + compiling (tasks s)) /\
  (noRebuild (tasks s) = true ->
   noRebuild (tasks s') = true /\ getRequestFilter s' = getRequestFilter s /\
   compilations (trace s') = compilations (trace s)).
Proof.
  intros R Hops H. split; [unfold createRequestFilter; by rewrite R|].
  split; [by destruct cb as [[|]|]|]. split; [by destruct cb as [[|]|]|].
  split; [by destruct cb as [[|]|]|].
  split; [destruct cb as [[|]|]; simpl; rewrite ?storageEffects_app, ?app_nil_r; done|].
  split; [destruct cb as [[|]|]; simpl; rewrite ?compilations_app; simpl; unfold compilations;
          simpl; lia|].
  unfold getRequestFilter.
  assert (applicationRunning s' = false /\
          loading (tasks s') <= loading (tasks s) /\
          loading (tasks s') + compiling (tasks s') <= loading (tasks s) + compiling (tasks s) /\
          compilations (trace s') + loading (tasks s')
            <= compilations (trace s) + loading (tasks s) /\
          (requestFilter s' = requestFilter s \/
           loading (tasks s') + compiling (tasks s')
             < loading (tasks s) + compiling (tasks s))) as (G1 & G2 & G3 & G4 & G5);
    [|do 5 (split; [assumption|])].
  - clear cb. revert s R H.
    induction ops as [|o ops IH]; intros s R H; simpl in *.
    + injection H as <-. repeat split; auto.
    + apply andb_prop in Hops as [Ho Hops]. apply negb_true_iff, orb_false_iff in Ho as [Hs Hp].
      destruct (step o s) as [s1|] eqn:E; [|discriminate].
      destruct (step_stopped _ _ _ E Hs Hp R) as (R1 & L1 & B1 & C1 & F1).
      destruct (IH Hops s1 R1 H) as (R' & L' & B' & C' & F').
      split; [exact R'|]. split; [lia|]. split; [lia|]. split; [lia|].
      destruct F' as [F'|F']; [|right; lia]. rewrite F'.
      destruct F1 as [F1|F1]; [by left|right; lia].
  - intros N. assert (stoppedQuiet s) as Q by (split; done). clear R N G1 G2 G3 G4 G5.
    revert s Q H. induction ops as [|o ops IH]; intros s Q H; simpl in *.
    + injection H as <-. destruct Q. auto.
    + apply andb_prop in Hops as [Ho Hops]. apply negb_true_iff, orb_false_iff in Ho as [Hs Hp].
      destruct (step o s) as [s1|] eqn:E; [|discriminate].
      destruct (step_stoppedQuiet _ _ _ E Hs Q) as (Q1 & F & _ & C).
      destruct (IH Hops s1 Q1 H) as (N' & F' & C'). rewrite F', C', (F Hp), C. auto.
Qed.

(** ** A failed rebuild *)

Lemma without_fields i s :
  requestFilter (without i s) = requestFilter s /\ trace (without i s) = trace s /\
  store (without i s) = store s.
Proof. by destruct i. Qed.

Lemma failure_drops_rebuild o s s' :
  isFailure o = true -> step o s = Some s' ->
  exists i t, tasks s !! i = Some t /\ isLoad t || isEngine t = true
              /\ s' = without (Some i) s.
Proof.
  intros F H. destruct o; try discriminate; simpl in H; unfold takeTask in H;
    destruct (tasks s !! i) as [t|] eqn:Ht; try discriminate;
    destruct t; try discriminate.
  - destruct (memb id pending); [|discriminate]. injection H as <-. eauto.
  - injection H as <-. eauto.
Qed.

Lemma handle_changes_by_stop_or_engine o s s' :
  step o s = Some s' ->
  requestFilter s' = requestFilter s \/ o = OpStop \/
  exists i cb rulesFilterMap h lists,
    o = OpEngineStarted i /\ tasks s !! i = Some (TEngine cb rulesFilterMap h lists) /\
    requestFilter s' = {| handle := h; getRulesCount := engineRulesCount lists |}.
Proof.
  intros H. destruct (step_turn _ _ _ H)
    as [options cb -> -> | -> -> | i es new Hi D Q C Nn
       | i dfd key converted -> Ht -> | i id cb pending m -> Ht M ->
       | i id cb pending m -> Ht M -> | i cb m h lists -> Ht -> | i cb m h lists -> Ht ->].
  - left. by destruct (start_summary options cb s) as (es & new & _ & _ & F & _).
  - auto.
  - destruct D as (_ & _ & F & _). destruct (without_fields i s) as (F0 & _). left. congruence.
  - left. by destruct (rulesWritten_summary dfd key converted (without (Some i) s))
      as (es & _ & _ & _ & F & _).
  - left. by destruct (rulesLoaded_summary cb pending m id (without (Some i) s)) as (F & _).
  - by left.
  - right. right. exists i, cb, m, h, lists.
    by destruct (requestFilterInitialized_summary cb m h lists (without (Some i) s))
      as (es & _ & _ & _ & F & _).
  - by left.
Qed.

(** C9: When a storage read or the engine start of a rebuild fails, the
    turn only drops that rebuild: the handle that [getRequestFilter]
    returns, the trace and the store are as before, and one rebuild less is
    in flight, so nothing retries.  In any turn the handle changes only by
    [stop] or by the callback of a successful engine start, which publishes
    the handle compiled from the lists of that rebuild. *)
Theorem rebuild_failure_keeps_handle o s s' o2 s2 s2' :
  isFailure o = true -> step o s = Some s' -> step o2 s2 = Some s2' ->
  (exists i t, tasks s !! i = Some t /\ isLoad t || isEngine t = true
               /\ s' = without (Some i) s) /\
  getRequestFilter s' = getRequestFilter s /\ trace s' = trace s /\
  store s' = store s /\
  S (loading (tasks s') + compiling (tasks s')) = loading (tasks s) + compiling (tasks s) /\
  (getRequestFilter s2' = getRequestFilter s2 \/ o2 = OpStop \/
   exists i cb rulesFilterMap h lists,
     o2 = OpEngineStarted i /\
     tasks s2 !! i = Some (TEngine cb rulesFilterMap h lists) /\
     getRequestFilter s2' = {| handle := h; getRulesCount := engineRulesCount lists |}).
Proof.
  intros F H H2. destruct (failure_drops_rebuild _ _ _ F H) as (i & t & Ht & L & ->).
  split; [eauto|]. unfold getRequestFilter. simpl. repeat split.
  - rewrite (loading_delete _ _ _ Ht), (compiling_delete _ _ _ Ht).
    destruct t; simpl in *; try discriminate; lia.
  - by apply handle_changes_by_stop_or_engine.
Qed.

(** ** An empty batch *)

(** The body of [processEventsHistory] has no guard for an empty list: on
    one it would read and write no rule text and request no rebuild, and
    would announce REQUEST_FILTER_UPDATED with the rule count of the live
    handle. *)
Lemma processEventsHistory_nil b s batcher :
  batchers s !! b = Some batcher -> filterEventsHistory batcher = [] ->
  processEventsHistory b s
    = notifyListeners REQUEST_FILTER_UPDATED (AInfo (getRulesCount (getRequestFilter s))) []
        (with_batchers (<[b := {| filterEventsHistory := [];
                                  onFilterChangeTimeout := false |}]> (batchers s)) s) /\
  store (processEventsHistory b s) = store s /\
  tasks (processEventsHistory b s) = tasks s /\
  getRequestFilter (processEventsHistory b s) = getRequestFilter s /\
  trace (processEventsHistory b s)
    = trace s ++ [ENotify REQUEST_FILTER_UPDATED (AInfo (getRulesCount (getRequestFilter s)))].
Proof.
  intros Hb He. unfold processEventsHistory. rewrite Hb, He. simpl. done.
Qed.

(** ** A rebuild from an empty rule map *)



(** When a rebuild does trigger the forced update check: its rule map is not
    empty, the engine compiled no rule, and the flag is clear. *)
Lemma forced_update_check_condition cb rulesFilterMap h lists s :
  forcedUpdateChecks (trace (requestFilterInitialized cb rulesFilterMap h lists s))
    = forcedUpdateChecks (trace s)
      + (if negb (isEmptyRulesFilterMap rulesFilterMap)
            && Nat.eqb (engineRulesCount lists) 0 && negb (reloadedRules s)
         then 1 else 0).
Proof.
  unfold requestFilterInitialized.
  destruct cb as [[id|id]|]; simpl;
    destruct (isEmptyRulesFilterMap rulesFilterMap); simpl;
    destruct (Nat.eqb (engineRulesCount lists) 0); simpl;
    destruct (reloadedRules s); simpl;
    try destruct (Nat.ltb 0 (engineRulesCount lists)); simpl;
    rewrite ?forcedUpdateChecks_app; unfold forcedUpdateChecks; simpl; lia.
Qed.

(** ** Which rule text a rebuild reads *)

Lemma loadFilterRules_participating gs fs :
  groupsKnown gs fs = true -> loadFilterRules gs fs = (participating gs fs, true).
Proof.
  unfold groupsKnown, participating. induction fs as [|f fs IH]; simpl; [done|].
  intros H. apply andb_prop in H as [Hf H]. unfold participates at 1.
  destruct (enabled f); simpl in *.
  - destruct (getGroup gs (groupId f)) as [g|] eqn:G.
    + rewrite (IH H). by destruct (g_enabled g).
    + apply bool_decide_eq_true in Hf. destruct Hf. discriminate.
  - auto.
Qed.

Lemma participating_spec gs fs id :
  In id (participating gs fs) <->
  exists f g, In f fs /\ filterId f = id /\ enabled f = true /\
              getGroup gs (groupId f) = Some g /\ g_enabled g = true.
Proof.
  unfold participating. rewrite in_map_iff. split.
  - intros (f & <- & Hf). apply filter_In in Hf as [Hin Hp]. unfold participates in Hp.
    apply andb_prop in Hp as [He Hg].
    destruct (getGroup gs (groupId f)) as [g|] eqn:G; [|discriminate]. by exists f, g.
  - intros (f & g & Hin & <- & He & G & Hg). exists f. split; [done|].
    apply filter_In. split; [done|]. unfold participates. by rewrite He, G.
Qed.

Lemma setRules_keys key text obj k :
  In k (List.map fst (setRules key text obj)) -> k = key \/ In k (List.map fst obj).
Proof.
  induction obj as [|[k0 t0] obj IH]; simpl.
  - intros [<-|[]]. by left.
  - destruct (Nat.eqb key k0) eqn:E;
      [|destruct (isArrayIndex key && (negb (isArrayIndex k0) || Nat.ltb key k0))]; simpl.
    + tauto.
    + intros [<-|H]; tauto.
    + intros [<-|H]; [tauto|]. destruct (IH H); tauto.
Qed.


Lemma ruleLists_keys obj : List.map l_filterId (ruleLists obj) = List.map fst obj.
Proof. unfold ruleLists. rewrite List.map_map. reflexivity. Qed.

Lemma loadedMap_app stored ids1 ids2 obj :
  loadedMap stored (ids1 ++ ids2) obj = loadedMap stored ids2 (loadedMap stored ids1 obj).
Proof. apply fold_left_app. Qed.

Lemma step_read_done s i cb pending rulesFilterMap id :
  tasks s !! i = Some (TLoad cb pending rulesFilterMap) -> memb id pending = true ->
  step (OpReadDone i id) s
    = Some (rulesLoaded cb pending rulesFilterMap id (without (Some i) s)).
Proof. intros H M. simpl. unfold takeTask. by rewrite H, M. Qed.

Lemma removeFirst_head id rest : removeFirst id (id :: rest) = rest.
Proof. simpl. by rewrite Nat.eqb_refl. Qed.

Lemma memb_head id rest : memb id (id :: rest) = true.
Proof. unfold memb. simpl. by rewrite Nat.eqb_refl. Qed.

Lemma rulesLoaded_more cb pending rulesFilterMap id s :
  removeFirst id pending <> [] ->
  rulesLoaded cb pending rulesFilterMap id s
    = spawn (TLoad cb (removeFirst id pending) (loadedMap (store s) [id] rulesFilterMap)) s.
Proof.
  unfold rulesLoaded, loadedMap. simpl. destruct (removeFirst id pending); [congruence | done].
Qed.

Lemma rulesLoaded_last cb pending rulesFilterMap id s :
  removeFirst id pending = [] ->
  rulesLoaded cb pending rulesFilterMap id s
    = onFiltersLoadedFromStorage (loadedMap (store s) [id] rulesFilterMap) cb s.
Proof. unfold rulesLoaded, loadedMap. simpl. by intros ->. Qed.

Lemma app_not_nil (pre post : list nat) : post <> [] -> pre ++ post <> [].
Proof. destruct pre; [done | discriminate]. Qed.

(** The reads of a rebuild call back in the order they were issued: while
    reads are outstanding, the rebuild only collects rule text. *)
Lemma reads_collect cb before pre post rulesFilterMap s :
  post <> [] -> tasks s = before ++ [TLoad cb (pre ++ post) rulesFilterMap] ->
  run (List.map (OpReadDone (length before)) pre) s
    = Some (with_tasks (before ++ [TLoad cb post (loadedMap (store s) pre rulesFilterMap)]) s).
Proof.
  intros Hpost. revert rulesFilterMap s.
  induction pre as [|id pre IH]; intros m s Ht.
  - simpl. f_equal. apply state_eq; simpl; auto.
  - cbn [List.map run].
    assert (tasks s !! length before = Some (TLoad cb ((id :: pre) ++ post) m)) as Hi.
    { rewrite Ht. apply list_lookup_middle. done. }
    rewrite (step_read_done _ _ _ _ _ _ Hi (memb_head _ _)).
    simpl app. rewrite rulesLoaded_more; rewrite removeFirst_head;
      [|by apply app_not_nil].
    assert (delete (length before) (tasks s) = before) as Hd.
    { rewrite Ht. rewrite delete_middle. apply app_nil_r. }
    erewrite IH; [|simpl; rewrite Hd; reflexivity].
    f_equal; apply state_eq; simpl; auto.
Qed.

(** When the last read has called back the engine is started, not before. *)
Lemma reads_complete cb before pending rulesFilterMap s :
  pending <> [] -> tasks s = before ++ [TLoad cb pending rulesFilterMap] ->
  run (List.map (OpReadDone (length before)) pending) s
    = Some (onFiltersLoadedFromStorage (loadedMap (store s) pending rulesFilterMap) cb
              (with_tasks before s)).
Proof.
  intros Hne Ht. destruct (exists_last Hne) as (pre & id & ->).
  rewrite List.map_app, run_app, (reads_collect cb before pre [id] rulesFilterMap s);
    [|discriminate|done].
  cbn [List.map run].
  rewrite (step_read_done _ (length before) cb [id] (loadedMap (store s) pre rulesFilterMap) id);
    [|simpl; by apply list_lookup_middle|apply memb_head].
  rewrite rulesLoaded_last; [|apply removeFirst_head]. simpl.
  rewrite delete_middle, app_nil_r, loadedMap_app. reflexivity.
Qed.

Lemma createRequestFilter_running cb s :
  applicationRunning s = true -> groupsKnown (groups s) (filters s) = true ->
  createRequestFilter cb s
    = Normal (spawn (TLoad cb (participating (groups s) (filters s)
                                 ++ [idValue USER_FILTER_ID]) [])
                (with_trace (trace s ++ readsOf (participating (groups s) (filters s)
                                                   ++ [idValue USER_FILTER_ID])) s)).
Proof.
  intros R G. unfold createRequestFilter.
  rewrite R, (loadFilterRules_participating _ _ G). reflexivity.
Qed.


(** ** Rebuilds are not merged *)

Lemma step_engine_started s i cb rulesFilterMap h lists :
  tasks s !! i = Some (TEngine cb rulesFilterMap h lists) ->
  step (OpEngineStarted i) s
    = Some (requestFilterInitialized cb rulesFilterMap h lists (without (Some i) s)).
Proof. intros H. simpl. unfold takeTask. by rewrite H. Qed.

Lemma rebuild_turn_counts o s s' :
  isRebuildOp o = true -> step o s = Some s' ->
  compilations (trace s') + loading (tasks s') = compilations (trace s) + loading (tasks s).
Proof.
  intros Ho H. destruct o; try discriminate; simpl in H; unfold takeTask in H;
    destruct (tasks s !! i) as [[]|] eqn:E; try discriminate.
  - destruct (memb id pending); [|discriminate]. injection H as <-.
    destruct (rulesLoaded_summary callback pending rulesFilterMap id
                (with_tasks (delete i (tasks s)) s))
      as (_ & _ & _ & _ & [(_ & T & K & _) | (_ & (es & T & Q) & K & _)]);
      simpl in T, K; rewrite T, K, ?compilations_app, ?loading_app;
      rewrite ?(quiet_compilations _ Q); simpl;
      rewrite (loading_delete _ _ _ E); simpl;
      unfold compilations, loading; simpl; lia.
  - injection H as <-.
    destruct (requestFilterInitialized_summary callback rulesFilterMap newRequestFilter lists
                (with_tasks (delete i (tasks s)) s)) as (es & T & Q & K & _).
    simpl in T, K. rewrite T, K, compilations_app, (quiet_compilations _ Q). simpl.
    rewrite (loading_delete _ _ _ E). simpl. lia.
Qed.

(** C1 (amended): Rebuilds are not single-flight.  Every call of
    [createRequestFilter] on a running application starts a rebuild of its
    own, whatever is in flight: a second call during the first adds a
    second one.  The callbacks of reads and engine starts never merge
    rebuilds: the compilations started so far plus the rebuilds still
    loading stay the same in number, so each rebuild in flight starts the
    engine once, and two requests during a first rebuild give two more
    compilations. *)
Theorem every_rebuild_request_compiles cb cb2 s ops s' :
  applicationRunning s = true -> groupsKnown (groups s) (filters s) = true ->
  forallb isRebuildOp ops = true -> run ops s = Some s' ->
  (exists s1 s2 pending,
      createRequestFilter cb s = Normal s1 /\
      tasks s1 = tasks s ++ [TLoad cb pending []] /\
      createRequestFilter cb2 s1 = Normal s2 /\
      tasks s2 = tasks s ++ [TLoad cb pending []; TLoad cb2 pending []] /\
      loading (tasks s2) = 2 + loading (tasks s) /\
      compilations (trace s2) = compilations (trace s)) /\
  compilations (trace s') + loading (tasks s') = compilations (trace s) + loading (tasks s).
Proof.
  intros R G Hops H. split.
  - set (ids := participating (groups s) (filters s) ++ [idValue USER_FILTER_ID]).
    set (s1 := spawn (TLoad cb ids []) (with_trace (trace s ++ readsOf ids) s)).
    exists s1, (spawn (TLoad cb2 ids []) (with_trace (trace s1 ++ readsOf ids) s1)), ids.
    split; [by apply createRequestFilter_running|]. split; [done|].
    split; [by apply (createRequestFilter_running cb2 s1)|].
    simpl. rewrite <- !app_assoc. split; [done|].
    rewrite !loading_app, !compilations_app, !readsOf_not_compile.
    change (loading [TLoad cb ids []]) with 1. change (loading [TLoad cb2 ids []]) with 1.
    split; lia.
  - clear R G. revert s H. induction ops as [|o ops IH]; intros s H; simpl in *.
    + by injection H as <-.
    + apply andb_prop in Hops as [Ho Hops].
      destruct (step o s) as [s1|] eqn:E; [|discriminate].
      rewrite (IH Hops s1 H). by apply (rebuild_turn_counts o).
Qed.

(** ** Saving the edits of a batch *)

Lemma applyEvents_loaded events l :
  applyEvents events (Some l) = Some (fold_left specApplyEvent events l).
Proof.
  revert l. induction events as [|ev events IH]; intros l; simpl; [done|].
  rewrite IH. reflexivity.
Qed.

(** The loop of the source computes the sequential application of the
    specification. *)
Lemma applyEvents_spec events stored :
  events <> [] -> applyEvents events stored = Some (specApplyEvents events stored).
Proof.
  destruct events as [|ev events]; [done|]. intros _. unfold specApplyEvents. simpl.
  rewrite applyEvents_loaded. by destruct stored.
Qed.

Lemma eventsByFilter_from id acc events :
  Forall (fun e => ev_filter e = AFilter id) events -> acc <> [] ->
  fold_left (fun obj ev => if truthy (ev_filter ev)
                           then pushEvent (filterIdOf (ev_filter ev)) ev obj
                           else obj) events [(Some id, acc)]
    = [(Some id, acc ++ events)].
Proof.
  intros H. revert acc. induction H as [|ev events Hev _ IH]; intros acc Hacc; simpl.
  - by rewrite app_nil_r.
  - rewrite Hev. simpl. destruct (decide (Some id = Some id)); [|done].
    rewrite IH; [|by destruct acc]. by rewrite <- app_assoc.
Qed.

Lemma eventsByFilter_single id events :
  Forall (fun e => ev_filter e = AFilter id) events -> events <> [] ->
  eventsByFilter events = [(Some id, events)].
Proof.
  intros H Hne. destruct events as [|ev events]; [done|]. inversion H as [|? ? Hev Hrest]; subst.
  unfold eventsByFilter. simpl. rewrite Hev. simpl.
  by rewrite (eventsByFilter_from id [ev] events Hrest).
Qed.

Lemma step_save_read s i dfd key events :
  tasks s !! i = Some (TSaveRead dfd key events) ->
  step (OpDone i) s = Some (saveRulesLoaded dfd key events (without (Some i) s)).
Proof. intros H. simpl. unfold takeTask. by rewrite H. Qed.

Lemma step_save_write s i dfd key converted :
  tasks s !! i = Some (TSaveWrite dfd key converted) ->
  step (OpDone i) s = Some (rulesWritten dfd key converted (without (Some i) s)).
Proof. intros H. simpl. unfold takeTask. by rewrite H. Qed.

Lemma saveRulesLoaded_ok dfd key events s :
  events <> [] ->
  saveRulesLoaded dfd key events s
    = spawn (TSaveWrite dfd key
               (split (convertRules (join (specApplyEvents events (store s !! key))))))
        (emit (EStorageWrite key
                 (split (convertRules (join (specApplyEvents events (store s !! key))))))
           (emit (EConvertRules (join (specApplyEvents events (store s !! key)))) s)).
Proof. intros H. unfold saveRulesLoaded. by rewrite (applyEvents_spec _ _ H). Qed.

Lemma step_timer s b batcher :
  batchers s !! b = Some batcher -> onFilterChangeTimeout batcher = true ->
  step (OpTimer b) s = Some (processEventsHistory b s).
Proof. intros H T. simpl. by rewrite H, T. Qed.

(** What a batch starts: one read per filter with an event to save and, when
    an event asks for a rebuild, the [then] that waits for their deferreds;
    otherwise the announcement. *)
Lemma processEventsHistory_eq b s batcher :
  batchers s !! b = Some batcher ->
  let byFilter := eventsByFilter (filterEventsHistory batcher) in
  let s1 := with_tasks (tasks s ++ saveTasks (nextDfd s) byFilter)
              (with_trace (trace s ++ saveReads byFilter)
                 (with_nextDfd (nextDfd s + saveCount byFilter)
                    (with_batchers (<[b := {| filterEventsHistory := [];
                                              onFilterChangeTimeout := false |}]> (batchers s))
                       s))) in
  processEventsHistory b s
    = if existsb isUpdateRequestFilterEvent (filterEventsHistory batcher)
      then spawn (TThen (seq (nextDfd s) (saveCount byFilter))) s1
      else notifyListeners REQUEST_FILTER_UPDATED (AInfo (getRulesCount (requestFilter s))) [] s1.
Proof.
  intros Hb. unfold processEventsHistory. rewrite Hb, saveAll_eq. reflexivity.
Qed.

(** A save started by a batch, from the callback of its read to the
    callback of its write. *)
Lemma save_round s i dfd key events :
  events <> [] -> tasks s !! i = Some (TSaveRead dfd key events) ->
  let content := specApplyEvents events (store s !! key) in
  let converted := split (convertRules (join content)) in
  exists s',
    run [OpDone i; OpDone (length (tasks s) - 1)] s = Some s' /\
    store s' = <[key := converted]> (store s) /\
    storageEffects (trace s')
      = storageEffects (trace s) ++ [EConvertRules (join content); EStorageWrite key converted] /\
    tasks s' = List.map (resolveIn dfd) (delete i (tasks s)) /\
    requestFilter s' = requestFilter s.
Proof.
  intros Hne Hi content converted. cbn [run].
  rewrite (step_save_read _ _ _ _ _ Hi), (saveRulesLoaded_ok _ _ _ _ Hne).
  cbn [without store with_tasks]. fold content. fold converted.
  set (s2 := spawn (TSaveWrite dfd key converted) _).
  assert (tasks s2 = delete i (tasks s) ++ [TSaveWrite dfd key converted]) as Ht2 by reflexivity.
  assert (length (tasks s) - 1 = length (delete i (tasks s))) as Hlen.
  { rewrite length_delete; [done | by eexists]. }
  assert (tasks s2 !! (length (tasks s) - 1) = Some (TSaveWrite dfd key converted)) as Hj.
  { rewrite Ht2, Hlen. by apply list_lookup_middle. }
  rewrite (step_save_write _ _ _ _ _ Hj).
  eexists. split; [reflexivity|].
  unfold rulesWritten. cbn [without]. rewrite Ht2, Hlen, delete_middle, app_nil_r.
  destruct (strictEq key USER_FILTER_ID); simpl;
    rewrite ?storageEffects_app; simpl; rewrite ?app_nil_r, <- ?app_assoc; done.
Qed.

Lemma existsb_save events :
  events <> [] -> Forall (fun e => isSaveRulesToStorageEvent e = true) events ->
  existsb isSaveRulesToStorageEvent events = true.
Proof.
  destruct events as [|ev events]; [done|]. intros _ H. inversion H; subst. simpl.
  by rewrite H2.
Qed.

(** A batch that holds only add, remove and replace events of one filter,
    from the timer to the callback of the write. *)
Lemma single_filter_batch_round b s batcher id :
  batchers s !! b = Some batcher -> onFilterChangeTimeout batcher = true ->
  filterEventsHistory batcher <> [] ->
  Forall (fun e => ev_filter e = AFilter id) (filterEventsHistory batcher) ->
  Forall (fun e => isSaveRulesToStorageEvent e = true) (filterEventsHistory batcher) ->
  let events := filterEventsHistory batcher in
  let content := specApplyEvents events (store s !! Some id) in
  let converted := split (convertRules (join content)) in
  let n := length (tasks s) in
  let k := if existsb isUpdateRequestFilterEvent events then 1 else 0 in
  exists s',
    run [OpTimer b; OpDone n; OpDone (n + k)] s = Some s' /\
    store s' = <[Some id := converted]> (store s) /\
    storageEffects (trace s')
      = storageEffects (trace s)
          ++ [EStorageRead (Some id); EConvertRules (join content);
              EStorageWrite (Some id) converted] /\
    getRequestFilter s' = getRequestFilter s.
Proof.
  intros Hb Ht Hne Hid Hsave events content converted n k.
  change (run [OpTimer b; OpDone n; OpDone (n + k)] s)
    with (match step (OpTimer b) s with
          | Some s1 => run [OpDone n; OpDone (n + k)] s1
          | None => None
          end).
  rewrite (step_timer _ _ _ Hb Ht), (processEventsHistory_eq _ _ _ Hb).
  cbv zeta. subst events. set (events := filterEventsHistory batcher) in *.
  rewrite (eventsByFilter_single id events Hid Hne).
  unfold saveCount. cbn [saveTasks saveReads]. rewrite (existsb_save events Hne Hsave).
  cbn [length seq]. set (s0 := with_tasks _ _).
  assert (tasks s0 = tasks s ++ [TSaveRead (nextDfd s) (Some id) events]) as Ht0 by reflexivity.
  assert (store s0 = store s) as Hs0 by reflexivity.
  assert (storageEffects (trace s0) = storageEffects (trace s) ++ [EStorageRead (Some id)])
    as He0 by (subst s0; simpl; by rewrite storageEffects_app).
  assert (requestFilter s0 = requestFilter s) as Hr0 by reflexivity.
  clearbody s0. subst k. destruct (existsb isUpdateRequestFilterEvent events).
  - set (s1 := spawn _ s0).
    assert (tasks s1 !! n = Some (TSaveRead (nextDfd s) (Some id) events)) as Hn.
    { subst s1. simpl. rewrite Ht0, <- app_assoc. by apply list_lookup_middle. }
    destruct (save_round s1 n _ _ _ Hne Hn) as (s' & Hrun & Hst & Htr & _ & Hrf).
    assert (length (tasks s1) - 1 = n + 1) as Hl.
    { subst s1. simpl. rewrite Ht0, !length_app. simpl. fold n. lia. }
    rewrite Hl in Hrun. exists s'. split; [exact Hrun|].
    subst s1. simpl in Hst, Htr, Hrf. rewrite Hs0 in Hst, Htr. rewrite He0 in Htr.
    split; [exact Hst|]. split; [|unfold getRequestFilter; congruence].
    rewrite Htr, <- app_assoc. reflexivity.
  - set (s1 := notifyListeners _ _ _ s0).
    assert (tasks s1 !! n = Some (TSaveRead (nextDfd s) (Some id) events)) as Hn.
    { subst s1. simpl. rewrite Ht0. by apply list_lookup_middle. }
    destruct (save_round s1 n _ _ _ Hne Hn) as (s' & Hrun & Hst & Htr & _ & Hrf).
    assert (length (tasks s1) - 1 = n + 0) as Hl.
    { subst s1. simpl. rewrite Ht0, !length_app. simpl. fold n. lia. }
    rewrite Hl in Hrun. exists s'. split; [exact Hrun|].
    subst s1. simpl in Hst, Htr, Hrf. rewrite Hs0 in Hst, Htr.
    rewrite storageEffects_app, He0 in Htr. simpl in Htr. rewrite app_nil_r in Htr.
    split; [exact Hst|]. split; [|unfold getRequestFilter; congruence].
    rewrite Htr, <- app_assoc. reflexivity.
Qed.

(** ** A rebuild waits for the saves of its batch *)

Lemma saveTasks_dfds dfd byFilter :
  List.map dfdOf (saveTasks dfd byFilter) = List.map Some (seq dfd (saveCount byFilter)).
Proof.
  unfold saveCount. revert dfd. induction byFilter as [|[key events] rest IH]; intros dfd;
    simpl; [done|].
  destruct (existsb _ events); simpl; [by rewrite IH | apply IH].
Qed.

Lemma then_fires s i dfds :
  tasks s !! i = Some (TThen dfds) ->
  step (OpDone i) s
    = match dfds with
      | [] => Some (stateOf (createRequestFilter None (without (Some i) s)))
      | _ :: _ => None
      end.
Proof. intros H. simpl. unfold takeTask. rewrite H. by destruct dfds. Qed.

Lemma waiting_app d ts us : waiting d (ts ++ us) = waiting d ts || waiting d us.
Proof. apply existsb_app. Qed.


Lemma waiting_resolve d dfd ts :
  d <> dfd -> waiting d (List.map (resolveIn dfd) ts) = waiting d ts.
Proof.
  intros Hd. unfold waiting. induction ts as [|t ts IH]; simpl; [done|]. rewrite IH. f_equal.
  destruct t; simpl; try done. unfold memb.
  induction dfds as [|x dfds IHd]; simpl; [done|].
  destruct (Nat.eqb x dfd) eqn:E; simpl.
  - apply Nat.eqb_eq in E. subst x.
    destruct (Nat.eqb d dfd) eqn:E'; [apply Nat.eqb_eq in E'; done | done].
  - by rewrite IHd.
Qed.



(** ** The split of a batch by filter *)

Lemma keyBefore_ne a b : keyBefore a b = true -> a <> b.
Proof.
  destruct a as [x|], b as [y|]; simpl; try done. intros H [= ->].
  destruct (isArrayIndex y); simpl in H; [|done]. apply Nat.ltb_lt in H. lia.
Qed.

Lemma keyBefore_index a b : keyBefore a b = true -> isIndexKey a = true.
Proof. destruct a as [x|], b as [y|]; simpl; try done. intros H. by apply andb_prop in H as [H _]. Qed.

(** A new name that goes before an existing one goes before all that follow it. *)
Lemma inOrder_before key a b : keyBefore key a = true -> inOrder a b -> inOrder key b.
Proof.
  intros K [N O]. pose proof (keyBefore_index _ _ K) as I.
  destruct key as [x|]; [|done]. simpl in I.
  assert (isIndexKey b = true -> keyBefore (Some x) b = true) as B.
  { intros Ib. specialize (O Ib). destruct b as [z|]; [|done]. simpl in Ib.
    destruct a as [y|]; [|done]. simpl in K, O |- *. rewrite I, Ib in *. simpl in *.
    apply andb_prop in O as [Ia O]. rewrite Ia in K. simpl in K.
    apply Nat.ltb_lt in K, O. apply Nat.ltb_lt. lia. }
  split; [|exact B]. intros <-. specialize (B I). by apply keyBefore_ne in B.
Qed.

(** A new name that does not go before an existing one follows it. *)
Lemma inOrder_after key k : key <> k -> keyBefore key k = false -> inOrder k key.
Proof.
  intros N K. split; [congruence|]. intros I. destruct key as [x|]; [|done]. simpl in I.
  destruct k as [y|]; simpl in K |- *; rewrite I in K; [|done]. simpl in K.
  apply orb_false_elim in K as [Iy K]. apply negb_false_iff in Iy. rewrite Iy, I. simpl.
  apply Nat.ltb_ge in K. apply Nat.ltb_lt. assert (x <> y) by congruence. lia.
Qed.

Lemma enumerated_absent key k evs obj :
  enumerated ((k, evs) :: obj) -> keyBefore key k = true -> getEvents key ((k, evs) :: obj) = None.
Proof.
  unfold enumerated, getEvents. intros S L. apply StronglySorted_inv in S as [_ F].
  simpl. rewrite bool_decide_eq_false_2 by (intros <-; by apply keyBefore_ne in L).
  induction F as [|[k' evs'] obj' Hk' _ IH]; simpl; [done|].
  rewrite bool_decide_eq_false_2; [done|].
  simpl in Hk'. intros <-. by destruct (inOrder_before _ _ _ L Hk').
Qed.

Lemma pushEvent_keys key ev obj kv :
  In kv (pushEvent key ev obj) -> fst kv = key \/ exists kv', In kv' obj /\ fst kv = fst kv'.
Proof.
  induction obj as [|[k evs] obj IH]; simpl.
  - intros [<-|[]]. by left.
  - destruct (decide (key = k)) as [->|Hne]; [|destruct (keyBefore key k)]; simpl.
    + intros [<-|H]; [by left | right; eauto].
    + intros [<-|[<-|H]]; [by left | right; eauto | right; eauto].
    + intros [<-|H]; [right; eauto|]. destruct (IH H) as [|(kv' & Hin & E)]; [by left|].
      right; eauto.
Qed.

Lemma pushEvent_enumerated key ev obj : enumerated obj -> enumerated (pushEvent key ev obj).
Proof.
  unfold enumerated. induction 1 as [|[k evs] obj S IH F]; simpl.
  - constructor; constructor.
  - destruct (decide (key = k)) as [->|Hne]; [|destruct (keyBefore key k) eqn:L].
    + by constructor.
    + constructor; [by constructor|]. constructor.
      * split; [by apply keyBefore_ne|done].
      * eapply Forall_impl; [exact F|]. simpl. intros kv Hkv. by eapply inOrder_before.
    + constructor; [done|]. apply Forall_forall. intros kv Hkv.
      apply list_elem_of_In in Hkv. destruct (pushEvent_keys _ _ _ _ Hkv) as [->|(kv' & Hin & ->)].
      * by apply inOrder_after.
      * rewrite Forall_forall in F. apply F. by apply list_elem_of_In.
Qed.

Lemma getEvents_pushEvent key ev obj k :
  enumerated obj ->
  getEvents k (pushEvent key ev obj)
    = if decide (k = key) then Some (default [] (getEvents k obj) ++ [ev]) else getEvents k obj.
Proof.
  intros S. induction S as [|[k0 evs] obj S IH F]; simpl.
  - unfold getEvents. simpl. destruct (decide (k = key)) as [->|Hne].
    + by rewrite bool_decide_eq_true_2.
    + by rewrite bool_decide_eq_false_2.
  - destruct (decide (key = k0)) as [->|Hne]; [|destruct (keyBefore key k0) eqn:L].
    + unfold getEvents. simpl. destruct (decide (k = k0)) as [->|Hk].
      * by rewrite !bool_decide_eq_true_2.
      * by rewrite !bool_decide_eq_false_2.
    + destruct (decide (k = key)) as [->|Hk].
      * rewrite (enumerated_absent key k0 evs obj); [|by constructor|done].
        unfold getEvents. simpl. by rewrite bool_decide_eq_true_2.
      * unfold getEvents at 1. simpl. rewrite bool_decide_eq_false_2 by done. reflexivity.
    + unfold getEvents in *. simpl. destruct (decide (k0 = k)) as [->|Hk].
      * rewrite !bool_decide_eq_true_2 by done. simpl.
        destruct (decide (k = key)); [congruence | done].
      * rewrite !bool_decide_eq_false_2 by done. apply IH.
Qed.

(** Every filter of the batch gets its events, in arrival order. *)
Lemma eventsByFilter_fold filterEvents obj :
  enumerated obj ->
  let obj' := fold_left (fun obj ev => if truthy (ev_filter ev)
                                       then pushEvent (filterIdOf (ev_filter ev)) ev obj
                                       else obj) filterEvents obj in
  enumerated obj' /\
  forall k, getEvents k obj'
            = match getEvents k obj, eventsOf k filterEvents with
              | None, [] => None
              | old, new => Some (default [] old ++ new)
              end.
Proof.
  revert obj. induction filterEvents as [|ev evs IH]; intros obj S; simpl.
  - split; [done|]. intros k. destruct (getEvents k obj); simpl; by rewrite ?app_nil_r.
  - destruct (truthy (ev_filter ev)) eqn:T; simpl.
    + destruct (IH (pushEvent (filterIdOf (ev_filter ev)) ev obj) (pushEvent_enumerated _ _ _ S))
        as [S' G]. split; [exact S'|]. intros k. rewrite G, (getEvents_pushEvent _ _ _ _ S).
      destruct (decide (k = filterIdOf (ev_filter ev))) as [->|Hk].
      * rewrite bool_decide_eq_true_2 by done.
        destruct (getEvents (filterIdOf (ev_filter ev)) obj); simpl;
          rewrite <- ?app_assoc; simpl; reflexivity.
      * rewrite bool_decide_eq_false_2 by congruence. reflexivity.
    + destruct (IH obj S) as [S' G]. split; [exact S'|]. intros k. rewrite G. reflexivity.
Qed.

Lemma eventsByFilter_enumerated filterEvents : enumerated (eventsByFilter filterEvents).
Proof. apply (eventsByFilter_fold filterEvents []). constructor. Qed.

Lemma eventsByFilter_get filterEvents k :
  getEvents k (eventsByFilter filterEvents)
    = match eventsOf k filterEvents with [] => None | new => Some new end.
Proof.
  destruct (eventsByFilter_fold filterEvents [] (SSorted_nil _)) as [_ G].
  unfold eventsByFilter. rewrite G. by destruct (eventsOf k filterEvents).
Qed.



Lemma eventsOf_nonempty key filterEvents :
  existsb isSaveRulesToStorageEvent (eventsOf key filterEvents) = true ->
  eventsOf key filterEvents <> [].
Proof. by destruct (eventsOf key filterEvents). Qed.

(** ** The loop on arrays that may be shared *)

Lemma held_agree h h' events :
  Forall (fun ev => h' !! h_rules ev = h !! h_rules ev) events ->
  List.map (held h') events = List.map (held h) events.
Proof.
  induction 1 as [|ev events E _ IH]; simpl; [done|]. f_equal; [|exact IH].
  unfold held, elements. by rewrite E.
Qed.

Lemma elements_insert h a lines : elements (<[a := lines]> h) a = lines.
Proof. unfold elements. by rewrite lookup_insert_eq. Qed.

Lemma elements_insert_ne h a b lines : a <> b -> elements (<[a := lines]> h) b = elements h b.
Proof. intros N. unfold elements. by rewrite lookup_insert_ne. Qed.

(** [if (!loadedRulesText) loadedRulesText = []]: the array that the
    variable names afterwards holds what was loaded, and the arrays of the
    events are as before. *)
Lemma loaded_or_new (l : option nat) (h : Arrays) next (refs : list nat) :
  Forall (fun r => r < next) refs ->
  (forall a, l = Some a -> a < next /\ ~ In a refs) ->
  exists current h1 next1,
    match l with
    | Some a => (a, h, next)
    | None => (next, <[next := []]> h, S next)
    end = (current, h1, next1) /\
    elements h1 current = match elements h <$> l with Some x => x | None => [] end /\
    (forall r, r < next -> r <> current -> h1 !! r = h !! r) /\
    next <= next1 /\ current < next1 /\ ~ In current refs.
Proof.
  intros F L. destruct l as [a|].
  - destruct (L a eq_refl) as [A N]. exists a, h, next. repeat split; auto.
  - exists next, (<[next := []]> h), (S next). split; [done|].
    split; [apply elements_insert|]. split; [intros r _ R; by apply lookup_insert_ne|].
    split; [lia|]. split; [lia|]. intros I.
    eapply Forall_forall in F; [|apply list_elem_of_In; exact I]. lia.
Qed.

(** When no event carries an array that the loop has edited in place, the
    loop on arrays computes what the loop on values computes. *)
Lemma applyEventsInPlace_own events l h next :
  ownArrays events l next ->
  loadedLines (applyEventsInPlace events l h next)
    = applyEvents (List.map (held h) events) (elements h <$> l).
Proof.
  revert l h next. induction events as [|ev rest IH]; intros l h next (N & F & L); [done|].
  destruct N as [Nev N].
  apply Forall_cons in F as [Fev F].
  assert (Fr : Forall (fun r => r < next) (List.map h_rules (ev :: rest))).
  { apply Forall_forall. intros r I. apply list_elem_of_In, in_map_iff in I as (x & <- & I).
    simpl in I. destruct I as [<-|I]; [exact Fev|].
    eapply Forall_forall in F; [exact F|by apply list_elem_of_In]. }
  destruct (loaded_or_new l h next _ Fr L) as (current & h1 & next1 & E & C & A & Le & Lc & Nc).
  cbn [applyEventsInPlace List.map applyEvents]. rewrite E. cbn [held event rules].
  assert (Er : elements h1 (h_rules ev) = elements h (h_rules ev)).
  { unfold elements. rewrite A; [done|exact Fev|]. intros <-. apply Nc. by left. }
  assert (Ag : forall h2, (forall r, r < next -> r <> current -> h2 !! r = h1 !! r) ->
                          List.map (held h2) rest = List.map (held h) rest).
  { intros h2 A2. apply held_agree, Forall_forall. intros x I.
    assert (h_rules x < next) as Lx by (eapply Forall_forall in F; [exact F|exact I]).
    assert (h_rules x <> current) as Nx.
    { intros <-. apply Nc. right. apply in_map. by apply list_elem_of_In. }
    rewrite A2 by done. by apply A. }
  assert (Fn : forall n, next <= n -> Forall (fun ev => h_rules ev < n) rest).
  { intros n Hn. eapply Forall_impl; [exact F|]. simpl. intros x Hx. lia. }
  assert (Nr : forall r, next <= r -> ~ In r (List.map h_rules rest)).
  { intros r Hr I. apply in_map_iff in I as (x & <- & I).
    eapply Forall_forall in F; [|apply list_elem_of_In; exact I]. simpl in F. lia. }
  destruct (h_event ev) eqn:K.
  1: { rewrite IH.
       - simpl. rewrite elements_insert, Er, C. f_equal. apply Ag.
         intros r R Rc. apply lookup_insert_ne. lia.
       - split; [exact N|]. split; [apply Fn; lia|]. intros a [= <-]. split; [lia|].
         apply Nr. lia. }
  1: { rewrite IH.
       - simpl. rewrite elements_insert, Er, C. f_equal. apply Ag.
         intros r R Rc. apply lookup_insert_ne. congruence.
       - split; [exact N|]. split; [apply Fn; lia|]. intros a [= <-]. split; [lia|].
         intros I. apply Nc. by right. }
  1: { rewrite IH.
       - simpl. rewrite Er. f_equal. by apply Ag.
       - split; [exact N|]. split; [apply Fn; lia|]. intros a [= <-]. split; [lia|].
         by apply Nev. }
  all: rewrite IH;
    [simpl; rewrite C; f_equal; by apply Ag
    |split; [exact N|]; split; [apply Fn; lia|]; intros a [= <-]; split; [lia|];
     intros I; apply Nc; by right].
Qed.


End Properties.

(** * Further properties of the service *)

Section Coverage.

Context {collaborators : Collaborators}.

(** ** What every turn keeps *)

Lemma pendingInstalls_app ts us :
  pendingInstalls (ts ++ us) = pendingInstalls ts + pendingInstalls us.
Proof. unfold pendingInstalls. by rewrite List.map_app, list_sum_app. Qed.

Lemma pendingInstalls_delete ts i t :
  ts !! i = Some t -> pendingInstalls (delete i ts) + installsOf t = pendingInstalls ts.
Proof.
  intros H. destruct (delete_split ts i t H) as (before & after & -> & -> & _).
  rewrite !pendingInstalls_app. change (t :: after) with ([t] ++ after).
  rewrite pendingInstalls_app. unfold pendingInstalls at 4. simpl. lia.
Qed.

Lemma pendingInstalls_resolve dfd ts :
  pendingInstalls (List.map (resolveIn dfd) ts) = pendingInstalls ts.
Proof.
  unfold pendingInstalls. induction ts as [|t ts IH]; [done|].
  simpl. rewrite IH. by destruct t.
Qed.

Lemma saveTasks_no_installs dfd byFilter : pendingInstalls (saveTasks dfd byFilter) = 0.
Proof.
  revert dfd. induction byFilter as [|[key events] rest IH]; intros dfd; [done|].
  simpl. destruct (existsb _ _); [|apply IH].
  change (TSaveRead dfd key events :: saveTasks (S dfd) rest)
    with ([TSaveRead dfd key events] ++ saveTasks (S dfd) rest).
  rewrite pendingInstalls_app, IH. reflexivity.
Qed.

Lemma saveReads_no_check byFilter : forcedUpdateChecks (saveReads byFilter) = 0.
Proof.
  induction byFilter as [|[key events] rest IH]; [done|].
  simpl. destruct (existsb _ _); [|apply IH]. exact IH.
Qed.

Lemma readsOf_no_check ids : forcedUpdateChecks (readsOf ids) = 0.
Proof. induction ids as [|id ids IH]; [done|]. exact IH. Qed.

Lemma freshBatcher_wellArmed : wellArmed freshBatcher.
Proof. split; [discriminate|]. intros H. by destruct H. Qed.

Lemma listener_wellArmed ev a rs b : wellArmed b -> wellArmed (listener ev a rs b).
Proof.
  intros H. destruct ev; simpl; try exact H;
    (split; [intros _; simpl; by destruct (filterEventsHistory b)|reflexivity]).
Qed.

Lemma savesLinked_spec ts :
  savesLinked ts = true
  <-> forallb savesSomething ts = true /\
      forall d, waiting d ts = true -> owed d ts = true.
Proof.
  unfold savesLinked, waiting. rewrite andb_true_iff. apply and_iff_compat_l.
  rewrite forallb_forall. split.
  - intros H d W. apply existsb_exists in W as (t & I & M).
    specialize (H t I). rewrite forallb_forall in H. apply H.
    unfold memb in M. apply existsb_exists in M as (x & Ix & E).
    apply Nat.eqb_eq in E. by subst.
  - intros H t I. apply forallb_forall. intros d Id. apply H.
    apply existsb_exists. exists t. split; [exact I|].
    unfold memb. apply existsb_exists. exists d. split; [exact Id|apply Nat.eqb_refl].
Qed.

Lemma owed_app d ts us : owed d (ts ++ us) = owed d ts || owed d us.
Proof. apply existsb_app. Qed.

Lemma owed_resolve d dfd ts : owed d (List.map (resolveIn dfd) ts) = owed d ts.
Proof.
  unfold owed. induction ts as [|t ts IH]; [done|]. simpl. rewrite IH. by destruct t.
Qed.

Lemma owed_delete d ts i t :
  ts !! i = Some t -> owed d ts = owed d (delete i ts) || bool_decide (dfdOf t = Some d).
Proof.
  intros H. destruct (delete_split ts i t H) as (before & after & -> & -> & _).
  rewrite !owed_app. simpl. by destruct (owed d before), (bool_decide _), (owed d after).
Qed.

Lemma savesSomething_resolve dfd ts :
  forallb savesSomething (List.map (resolveIn dfd) ts) = forallb savesSomething ts.
Proof. induction ts as [|t ts IH]; [done|]. simpl. rewrite IH. by destruct t. Qed.

Lemma In_delete (ts : list Task) i t : In t (delete i ts) -> In t ts.
Proof.
  revert i. induction ts as [|x ts IH]; intros [|i]; simpl; auto.
  intros [H|H]; eauto.
Qed.

Lemma savesSomething_delete ts i :
  forallb savesSomething ts = true -> forallb savesSomething (delete i ts) = true.
Proof.
  rewrite !forallb_forall. intros H t I. by apply H, (In_delete ts i).
Qed.

Lemma waiting_resolved d ts : waiting d (List.map (resolveIn d) ts) = false.
Proof.
  unfold waiting. induction ts as [|t ts IH]; [done|]. simpl. rewrite IH, orb_false_r.
  destruct t; simpl; try reflexivity.
  induction dfds as [|x dfds IHd]; [done|]. simpl.
  destruct (Nat.eqb_spec x d) as [E|E]; simpl; [exact IHd|].
  destruct (Nat.eqb_spec d x); [congruence|exact IHd].
Qed.

Lemma waiting_sub d ts i : waiting d (delete i ts) = true -> waiting d ts = true.
Proof.
  unfold waiting. rewrite !existsb_exists. intros (t & I & M). exists t. split; [|exact M].
  by apply (In_delete ts i).
Qed.

(** Tasks that are no saves and wait for none. *)
Lemma savesLinked_more ts new :
  forallb (fun t => savesSomething t && bool_decide (waitsFor t = [])) new = true ->
  savesLinked ts = true -> savesLinked (ts ++ new) = true.
Proof.
  rewrite !savesLinked_spec, forallb_forall. intros N [S W]. split.
  - rewrite forallb_app, S. simpl. apply forallb_forall. intros t I.
    by apply N, andb_true_iff in I as [I _].
  - intros d Wd. rewrite waiting_app in Wd. rewrite owed_app.
    apply orb_true_iff in Wd as [Wd|Wd]; [by rewrite (W d Wd)|].
    unfold waiting in Wd. apply existsb_exists in Wd as (t & I & M).
    apply N, andb_true_iff in I as [_ I]. apply bool_decide_eq_true in I.
    rewrite I in M. discriminate.
Qed.

Lemma savesLinked_resolve dfd ts :
  savesLinked ts = true -> savesLinked (List.map (resolveIn dfd) ts) = true.
Proof.
  rewrite !savesLinked_spec. intros [S W]. split; [by rewrite savesSomething_resolve|].
  intros d Wd. rewrite owed_resolve. apply W.
  destruct (decide (d = dfd)) as [->|N]; [by rewrite waiting_resolved in Wd|].
  by rewrite waiting_resolve in Wd.
Qed.

Lemma savesLinked_delete ts i t :
  ts !! i = Some t -> dfdOf t = None -> savesLinked ts = true ->
  savesLinked (delete i ts) = true.
Proof.
  rewrite !savesLinked_spec. intros H D [S W]. split; [by apply savesSomething_delete|].
  intros d Wd. apply waiting_sub, W in Wd. rewrite (owed_delete d ts i t H), D in Wd.
  rewrite bool_decide_eq_false_2 in Wd by discriminate. by rewrite orb_false_r in Wd.
Qed.

Lemma saveTasks_save dfd byFilter :
  forallb savesSomething (saveTasks dfd byFilter) = true.
Proof.
  revert dfd. induction byFilter as [|[key events] rest IH]; intros dfd; [done|].
  simpl. destruct (existsb _ _) eqn:E; [|apply IH]. simpl. by rewrite E, IH.
Qed.

Lemma saveTasks_wait d dfd byFilter : waiting d (saveTasks dfd byFilter) = false.
Proof.
  revert dfd. induction byFilter as [|[key events] rest IH]; intros dfd; [done|].
  simpl. destruct (existsb _ _); [|apply IH]. unfold waiting in *. simpl. apply IH.
Qed.

Lemma saveTasks_owed d dfd byFilter :
  In d (seq dfd (saveCount byFilter)) -> owed d (saveTasks dfd byFilter) = true.
Proof.
  intros I. pose proof (saveTasks_dfds dfd byFilter) as M.
  unfold owed. apply existsb_exists.
  assert (J : In (Some d) (List.map dfdOf (saveTasks dfd byFilter))).
  { rewrite M. by apply in_map. }
  apply in_map_iff in J as (t & E & J). exists t. split; [exact J|].
  by apply bool_decide_eq_true.
Qed.

(** The saves of a batch and the [Promise.all] that waits for them. *)
Lemma savesLinked_batch ts dfd byFilter :
  savesLinked ts = true ->
  savesLinked (ts ++ saveTasks dfd byFilter) = true /\
  savesLinked ((ts ++ saveTasks dfd byFilter) ++ [TThen (seq dfd (saveCount byFilter))]) = true.
Proof.
  rewrite !savesLinked_spec. intros [S W]. split; split.
  - by rewrite forallb_app, S, saveTasks_save.
  - intros d Wd. rewrite waiting_app, saveTasks_wait, orb_false_r in Wd.
    by rewrite owed_app, (W d Wd).
  - by rewrite !forallb_app, S, saveTasks_save.
  - intros d Wd. rewrite !waiting_app, saveTasks_wait, orb_false_r in Wd.
    rewrite !owed_app. apply orb_true_iff in Wd as [Wd|Wd]; [by rewrite (W d Wd)|].
    unfold waiting in Wd. simpl in Wd. rewrite orb_false_r in Wd.
    unfold memb in Wd. apply existsb_exists in Wd as (x & I & E).
    apply Nat.eqb_eq in E. subst x. rewrite (saveTasks_owed d dfd byFilter I).
    by rewrite orb_true_r.
Qed.

(** The read of a save has called back: its write is in flight. *)
Lemma savesLinked_read ts i dfd key events converted :
  ts !! i = Some (TSaveRead dfd key events) -> savesLinked ts = true ->
  savesLinked (delete i ts ++ [TSaveWrite dfd key converted]) = true.
Proof.
  rewrite !savesLinked_spec. intros H [S W]. split.
  - rewrite forallb_app, (savesSomething_delete _ _ S). reflexivity.
  - intros d Wd. rewrite waiting_app in Wd. change (waiting d [TSaveWrite dfd key converted])
      with false in Wd. rewrite orb_false_r in Wd. apply waiting_sub, W in Wd.
    rewrite (owed_delete d ts i _ H) in Wd. rewrite owed_app. simpl in *.
    by destruct (owed d (delete i ts)), (bool_decide (Some dfd = Some d)).
Qed.

(** The write of a save has called back: its deferred is resolved. *)
Lemma savesLinked_written ts i dfd key converted :
  ts !! i = Some (TSaveWrite dfd key converted) -> savesLinked ts = true ->
  savesLinked (List.map (resolveIn dfd) (delete i ts)) = true.
Proof.
  rewrite !savesLinked_spec. intros H [S W]. split.
  - rewrite savesSomething_resolve. by apply savesSomething_delete.
  - intros d Wd. rewrite owed_resolve.
    destruct (decide (d = dfd)) as [->|N]; [by rewrite waiting_resolved in Wd|].
    rewrite waiting_resolve in Wd by exact N. apply waiting_sub, W in Wd.
    rewrite (owed_delete d ts i _ H) in Wd. simpl in Wd.
    rewrite bool_decide_eq_false_2 in Wd by congruence. by rewrite orb_false_r in Wd.
Qed.

Lemma calm_refl s : calm 0 s s.
Proof. unfold calm. repeat split; auto. lia. Qed.

Lemma calm_trans k1 k2 s1 s2 s3 : calm k1 s1 s2 -> calm k2 s2 s3 -> calm (k1 + k2) s1 s3.
Proof.
  intros (R1 & C1 & I1 & T1 & B1 & O1 & L1) (R2 & C2 & I2 & T2 & B2 & O2 & L2).
  unfold calm. split; [congruence|]. split; [congruence|]. split; [congruence|].
  split; [|split; [auto|split; [lia|auto]]].
  intros H. rewrite T2; [auto|]. rewrite T1; auto.
Qed.

Lemma calm_weaken k k' s s' : k <= k' -> calm k s s' -> calm k' s s'.
Proof.
  intros L (R1 & C1 & I1 & T1 & B1 & O1 & L1). unfold calm.
  split; [exact R1|]. split; [exact C1|]. split; [exact I1|]. split; [exact T1|].
  split; [exact B1|]. split; [lia|exact L1].
Qed.

Lemma calm_step k1 k2 k s1 s2 s3 :
  calm k2 s2 s3 -> k1 + k2 <= k -> calm k1 s1 s2 -> calm k s1 s3.
Proof.
  intros B L A. apply calm_weaken with (k1 + k2); [exact L|]. by apply calm_trans with s2.
Qed.

Lemma calm_step_sum k1 k2 s1 s2 s3 :
  calm k2 s2 s3 -> calm k1 s1 s2 -> calm (k1 + k2) s1 s3.
Proof. intros B A. by apply calm_trans with s2. Qed.

Lemma trace_calm es s :
  forcedUpdateChecks es = 0 -> calm 0 s (with_trace (trace s ++ es) s).
Proof.
  intros H. unfold calm, owedListeners. simpl.
  rewrite forcedUpdateChecks_app, H. repeat split; auto; lia.
Qed.

Lemma emit_calm e s : isCheckFiltersUpdate e = false -> calm 0 s (emit e s).
Proof.
  intros H. apply trace_calm. unfold forcedUpdateChecks. simpl. by rewrite H.
Qed.

Lemma spawn_calm t s :
  savesSomething t && bool_decide (waitsFor t = []) = true ->
  calm (installsOf t) s (spawn t s).
Proof.
  intros P. unfold calm, owedListeners, spawn. simpl. rewrite pendingInstalls_app.
  change (pendingInstalls [t]) with (installsOf t + 0).
  split; [reflexivity|]. split; [reflexivity|]. split; [reflexivity|].
  split; [auto|]. split; [auto|]. split; [lia|].
  apply savesLinked_more. simpl. by rewrite P.
Qed.

Lemma notifyListeners_calm ev a rs s : calm 0 s (notifyListeners ev a rs s).
Proof.
  unfold calm, owedListeners, notifyListeners, emit. simpl.
  rewrite forcedUpdateChecks_app, length_map.
  repeat split; auto; try (unfold forcedUpdateChecks; simpl; lia); try lia.
  intros H. apply Forall_map. eapply Forall_impl; [exact H|].
  intros b. apply listener_wellArmed.
Qed.

Lemma addFiltersChangeEventListener_calm s : calm 1 s (addFiltersChangeEventListener s).
Proof.
  unfold calm, owedListeners, addFiltersChangeEventListener. simpl.
  rewrite length_app. simpl. repeat split; auto; try lia.
  intros H. apply Forall_app. split; [exact H|].
  constructor; [apply freshBatcher_wellArmed|constructor].
Qed.

Lemma registry_calm fs gs s : calm 0 s (with_groups gs (with_filters fs s)).
Proof. unfold calm, owedListeners. simpl. repeat split; auto. lia. Qed.

Lemma readsOf_calm ids s : calm 0 s (with_trace (trace s ++ readsOf ids) s).
Proof. apply trace_calm, readsOf_no_check. Qed.

(** The outermost update of a state, then the ones inside it. *)
Ltac calm_outer :=
  first [ (apply spawn_calm; reflexivity) | apply notifyListeners_calm | apply readsOf_calm
        | apply addFiltersChangeEventListener_calm | apply registry_calm
        | (apply emit_calm; reflexivity) ].

Ltac calm_sum :=
  first [ eassumption | apply calm_refl | calm_outer
        | eapply calm_step_sum; [calm_outer|calm_sum] ].

Ltac calm_chain := eapply calm_weaken; [|calm_sum]; simpl; lia.

Lemma invoke_calm cb s : calm (cbInstalls (Some cb)) s (invoke cb s).
Proof. destruct cb as [id|id]; unfold invoke; calm_chain. Qed.

Lemma invokeIfFunction_calm cb s : calm (cbInstalls cb) s (invokeIfFunction cb s).
Proof. destruct cb as [cb|]; [apply invoke_calm|apply calm_refl]. Qed.

Lemma createRequestFilter_calm cb s :
  calm (cbInstalls cb) s (stateOf (createRequestFilter cb s)).
Proof.
  unfold createRequestFilter. destruct (applicationRunning s); simpl.
  - destruct (loadFilterRules (groups s) (filters s)) as [ids ok]. destruct ok; simpl.
    + calm_chain.
    + calm_chain.
  - apply invokeIfFunction_calm.
Qed.

Lemma initRequestFilter_calm cb s : calm 1 s (stateOf (initRequestFilter cb s)).
Proof.
  unfold initRequestFilter.
  eapply (calm_step 0); [apply createRequestFilter_calm| |].
  2: { unfold loadGroupsStateInfo, loadFiltersVersionAndStateInfo.
       unfold calm, owedListeners. simpl. repeat split; auto. lia. }
  simpl. lia.
Qed.

Lemma onSubscriptionLoaded_calm options cb runInfo s :
  calm 1 s (stateOf (onSubscriptionLoaded options cb runInfo s)).
Proof.
  unfold onSubscriptionLoaded.
  destruct (isFirstRun runInfo).
  - destruct (onInstall options) as [hook|]; simpl.
    + calm_chain.
    + unfold addFiltersChangeEventListener. fold (addFiltersChangeEventListener (emit ESettingsListener s)).
      calm_chain.
  - destruct (isUpdate runInfo); simpl.
    + calm_chain.
    + pose proof (initRequestFilter_calm cb (emit ESettingsListener s)) as I.
      destruct (initRequestFilter cb (emit ESettingsListener s)) as [s3|s3]; simpl in *.
      * eapply calm_weaken;
          [|eapply calm_step_sum; [calm_outer|eapply calm_step_sum; [exact I|calm_sum]]].
        simpl. lia.
      * eapply calm_weaken; [|eapply calm_step_sum; [exact I|calm_sum]]. simpl. lia.
Qed.

Lemma saveRulesLoaded_calm dfd key events s : calm 0 s (saveRulesLoaded dfd key events s).
Proof.
  unfold saveRulesLoaded. destruct (applyEvents events (store s !! key)) as [l|].
  - calm_chain.
  - calm_chain.
Qed.

Lemma rulesWritten_calm dfd key converted s : calm 0 s (rulesWritten dfd key converted s).
Proof.
  unfold rulesWritten.
  assert (R : calm 0 s (resolve dfd (with_store (<[key:=converted]> (store s)) s))).
  { unfold calm, owedListeners, resolve. simpl. rewrite pendingInstalls_resolve.
    repeat split; auto; [lia|apply savesLinked_resolve]. }
  destruct (strictEq key USER_FILTER_ID); [|exact R].
  calm_chain.
Qed.

Lemma processEventsHistory_calm b s : calm 0 s (processEventsHistory b s).
Proof.
  unfold processEventsHistory. destruct (batchers s !! b) as [batcher|] eqn:B; [|apply calm_refl].
  rewrite saveAll_eq. simpl.
  set (byFilter := eventsByFilter (filterEventsHistory batcher)).
  set (s2 := with_tasks _ _).
  assert (W : Forall wellArmed (batchers s) ->
              Forall wellArmed (<[b := {| filterEventsHistory := [];
                                          onFilterChangeTimeout := false |}]> (batchers s))).
  { intros H. apply Forall_insert; [exact H|apply freshBatcher_wellArmed]. }
  assert (S2 : calm 0 s s2).
  { unfold calm, owedListeners, s2. simpl.
    rewrite forcedUpdateChecks_app, saveReads_no_check, pendingInstalls_app,
      saveTasks_no_installs, length_insert.
    repeat split; auto; try lia.
    intros L. by apply savesLinked_batch. }
  destruct (existsb _ _).
  - unfold calm, owedListeners, spawn, s2. simpl.
    rewrite forcedUpdateChecks_app, saveReads_no_check, !pendingInstalls_app,
      saveTasks_no_installs, length_insert.
    change (pendingInstalls [TThen (seq (nextDfd s) (saveCount byFilter))]) with 0.
    repeat split; auto; try lia.
    intros L. by apply savesLinked_batch.
  - calm_chain.
Qed.

Lemma stop_calm s : calm 0 s (stop s).
Proof.
  unfold stop. eapply (calm_step 0); [calm_outer| |].
  2: { unfold calm, owedListeners. simpl. repeat split; auto. lia. }
  simpl. lia.
Qed.

Lemma onFiltersLoadedFromStorage_calm rulesFilterMap cb s :
  calm (cbInstalls cb) s (onFiltersLoadedFromStorage rulesFilterMap cb s).
Proof.
  unfold onFiltersLoadedFromStorage.
  set (s1 := with_nextHandle _ s).
  set (s2 := if Nat.eqb (requestFilterInitTime s1) 0 then _ else s1).
  assert (S2 : calm 0 s s2).
  { unfold s2. destruct (Nat.eqb_spec (requestFilterInitTime s1) 0) as [E|E].
    - eapply (calm_step 0); [calm_outer| |].
      2: { unfold calm, owedListeners. simpl. repeat split; auto; [|lia].
           intros N. by destruct N. }
      simpl. lia.
    - unfold calm, owedListeners. simpl. repeat split; auto. lia. }
  calm_chain.
Qed.

Lemma rulesLoaded_calm cb pending rulesFilterMap id s :
  calm (cbInstalls cb) s (rulesLoaded cb pending rulesFilterMap id s).
Proof.
  unfold rulesLoaded. destruct (removeFirst id pending).
  - apply onFiltersLoadedFromStorage_calm.
  - by apply (spawn_calm (TLoad cb _ _)).
Qed.

Lemma without_owed i t s :
  tasks s !! i = Some t -> owedListeners (without (Some i) s) + installsOf t = owedListeners s.
Proof.
  intros H. unfold owedListeners. simpl.
  pose proof (pendingInstalls_delete _ _ _ H). lia.
Qed.

Lemma calm_taken k i t s s' :
  tasks s !! i = Some t -> k <= installsOf t -> calm k (without (Some i) s) s' ->
  (savesLinked (tasks s) = true -> savesLinked (tasks s') = true) ->
  (requestFilterInitTime s <> 0 -> requestFilterInitTime s' = requestFilterInitTime s) /\
  (Forall wellArmed (batchers s) -> Forall wellArmed (batchers s')) /\
  (listenerBound s -> listenerBound s') /\
  (savesLinked (tasks s) = true -> savesLinked (tasks s') = true) /\
  checkBudget s' = checkBudget s.
Proof.
  intros H L (R1 & C1 & I1 & T1 & B1 & O1 & _) K.
  pose proof (without_owed _ _ _ H) as W. simpl in *.
  split; [exact T1|]. split; [exact B1|]. split; [|split; [exact K|]].
  - unfold listenerBound. rewrite I1. lia.
  - unfold checkBudget. by rewrite R1, C1.
Qed.

(** A task that is no save has called back. *)
Lemma linked_taken k i t s s' :
  tasks s !! i = Some t -> dfdOf t = None -> calm k (without (Some i) s) s' ->
  savesLinked (tasks s) = true -> savesLinked (tasks s') = true.
Proof.
  intros H D (_ & _ & _ & _ & _ & _ & L) K. apply L. simpl.
  by apply (savesLinked_delete _ _ _ H D).
Qed.

Lemma linked_save_read s i dfd key events :
  tasks s !! i = Some (TSaveRead dfd key events) -> savesLinked (tasks s) = true ->
  events <> [] /\
  savesLinked (tasks (saveRulesLoaded dfd key events (without (Some i) s))) = true.
Proof.
  intros H K. assert (N : events <> []).
  { apply savesLinked_spec in K as [K _]. rewrite forallb_forall in K.
    specialize (K _ (proj1 (list_elem_of_In _ _) (list_elem_of_lookup_2 _ _ _ H))).
    simpl in K. intros ->. discriminate. }
  split; [exact N|]. rewrite saveRulesLoaded_ok by exact N. simpl.
  by apply (savesLinked_read _ _ _ _ _ _ H).
Qed.

Lemma linked_save_write s i dfd key converted :
  tasks s !! i = Some (TSaveWrite dfd key converted) -> savesLinked (tasks s) = true ->
  savesLinked (tasks (rulesWritten dfd key converted (without (Some i) s))) = true.
Proof.
  intros H K.
  destruct (rulesWritten_summary dfd key converted (without (Some i) s)) as (es & _ & _ & T & _).
  rewrite T. simpl. by apply (savesLinked_written _ _ _ _ _ H).
Qed.

Lemma calm_untaken s s' :
  calm 0 s s' ->
  (requestFilterInitTime s <> 0 -> requestFilterInitTime s' = requestFilterInitTime s) /\
  (Forall wellArmed (batchers s) -> Forall wellArmed (batchers s')) /\
  (listenerBound s -> listenerBound s') /\
  (savesLinked (tasks s) = true -> savesLinked (tasks s') = true) /\
  checkBudget s' = checkBudget s.
Proof.
  intros (R1 & C1 & I1 & T1 & B1 & O1 & L1).
  split; [exact T1|]. split; [exact B1|]. split; [|split; [exact L1|]].
  - unfold listenerBound. rewrite I1. lia.
  - unfold checkBudget. by rewrite R1, C1.
Qed.

Lemma start_calm options cb s :
  let s' := stateOf (start options cb s) in
  (requestFilterInitTime s <> 0 -> requestFilterInitTime s' = requestFilterInitTime s) /\
  (Forall wellArmed (batchers s) -> Forall wellArmed (batchers s')) /\
  (listenerBound s -> listenerBound s') /\
  (savesLinked (tasks s) = true -> savesLinked (tasks s') = true) /\
  checkBudget s' = checkBudget s.
Proof.
  unfold start. destruct (applicationRunning s) eqn:R; simpl.
  - exact (calm_untaken _ _ (invoke_calm (CbUser cb) s)).
  - destruct (applicationInitialized s) eqn:I; simpl.
    + pose proof (createRequestFilter_calm (Some (CbUser cb)) (with_applicationRunning true s))
        as (R1 & C1 & I1 & T1 & B1 & O1 & L1).
      simpl in *. split; [exact T1|]. split; [exact B1|]. split; [|split; [exact L1|]].
      * unfold listenerBound. rewrite I1, I. unfold owedListeners in *. simpl in *. lia.
      * unfold checkBudget. by rewrite R1, C1.
    + unfold initialize, spawn, emit. simpl.
      split; [auto|]. split; [auto|]. split; [|split].
      * unfold listenerBound, owedListeners. simpl. rewrite I, pendingInstalls_app.
        change (pendingInstalls [TGetRunInfo options cb]) with 1. lia.
      * by apply savesLinked_more.
      * unfold checkBudget. simpl. rewrite forcedUpdateChecks_app.
        change (forcedUpdateChecks [EGetRunInfo]) with 0. lia.
Qed.

Lemma requestFilterInitialized_budget cb rulesFilterMap h lists s :
  let s' := requestFilterInitialized cb rulesFilterMap h lists s in
  requestFilterInitTime s' = requestFilterInitTime s /\
  applicationInitialized s' = applicationInitialized s /\
  (Forall wellArmed (batchers s) -> Forall wellArmed (batchers s')) /\
  owedListeners s' <= owedListeners s + cbInstalls cb /\
  (savesLinked (tasks s) = true -> savesLinked (tasks s') = true) /\
  (getRulesCount (requestFilter s') = 0 -> checkBudget s' = checkBudget s).
Proof.
  unfold requestFilterInitialized.
  set (filled := {| handle := h; getRulesCount := engineRulesCount lists |}).
  set (s1 := with_requestFilter filled s).
  set (s2 := invokeIfFunction cb s1).
  set (s3 := notifyListeners _ _ _ s2).
  assert (C : calm (cbInstalls cb) s s3
              /\ requestFilterInitTime s3 = requestFilterInitTime s
              /\ requestFilter s3 = filled).
  { split; [|split].
    - assert (S1 : calm 0 s s1).
      { unfold calm, owedListeners, s1. simpl. repeat split; auto. lia. }
      eapply calm_weaken;
        [|eapply calm_step_sum;
            [apply notifyListeners_calm
            |eapply calm_step_sum; [apply (invokeIfFunction_calm cb s1)|exact S1]]].
      simpl. lia.
    - unfold s3, s2, s1. destruct cb as [[id|id]|]; reflexivity.
    - unfold s3, s2, s1. destruct cb as [[id|id]|]; reflexivity. }
  destruct C as ((R3 & C3 & I3 & _ & B3 & O3 & L3) & T3 & F3).
  clearbody s3. clear s2.
  assert (K : requestFilterInitTime s3 = requestFilterInitTime s /\
              applicationInitialized s3 = applicationInitialized s /\
              (Forall wellArmed (batchers s) -> Forall wellArmed (batchers s3)) /\
              owedListeners s3 <= owedListeners s + cbInstalls cb /\
              (savesLinked (tasks s) = true -> savesLinked (tasks s3) = true) /\
              (getRulesCount (requestFilter s3) = 0 -> checkBudget s3 = checkBudget s)).
  { do 5 (split; [assumption|]). intros _. unfold checkBudget. by rewrite R3, C3. }
  destruct (isEmptyRulesFilterMap rulesFilterMap); [exact K|].
  change (getRulesCount filled) with (engineRulesCount lists).
  destruct (Nat.eqb_spec (engineRulesCount lists) 0) as [Z|Z].
  - replace (Nat.ltb 0 (engineRulesCount lists)) with false
      by (symmetry; apply Nat.ltb_ge; lia).
    destruct (reloadedRules s3) eqn:R; cbn [andb negb]; [exact K|].
    unfold reloadAntiBannerFilters, resetFiltersVersion, emit. simpl.
    do 5 (split; [assumption|]).
    intros _. unfold checkBudget. simpl. rewrite forcedUpdateChecks_app, C3, <- R3.
    change (forcedUpdateChecks [ECheckFiltersUpdate]) with 1. lia.
  - replace (Nat.ltb 0 (engineRulesCount lists)) with true
      by (symmetry; apply Nat.ltb_lt; lia).
    destruct (reloadedRules s3) eqn:R; cbn [andb negb]; [|exact K].
    simpl. do 5 (split; [assumption|]). rewrite F3. simpl. intros E. by destruct Z.
Qed.


(** Every turn of the event loop keeps an initialization time that has
    been set, the agreement of timers and pending events, the bound on the
    listeners and the link between saves and waiting rebuilds; it keeps the
    budget of forced update checks unless it publishes an engine that has
    rules. *)
Lemma step_keeps o s s' :
  step o s = Some s' ->
  (requestFilterInitTime s <> 0 -> requestFilterInitTime s' = requestFilterInitTime s) /\
  (Forall wellArmed (batchers s) -> Forall wellArmed (batchers s')) /\
  (listenerBound s -> listenerBound s') /\
  (savesLinked (tasks s) = true -> savesLinked (tasks s') = true) /\
  (getRulesCount (requestFilter s') = 0 -> checkBudget s' = checkBudget s).
Proof.
  intros H.
  assert (W : forall P Q R L (B B' : nat),
             P /\ Q /\ R /\ L /\ B = B' ->
             P /\ Q /\ R /\ L /\ (getRulesCount (requestFilter s') = 0 -> B = B')).
  { intros P Q R L B B' (p & q & r & l & b). auto. }
  destruct o; simpl in H.
  - injection H as <-. apply W, start_calm.
  - injection H as <-. apply W, calm_untaken, stop_calm.
  - injection H as <-. apply W, calm_untaken, notifyListeners_calm.
  - destruct (batchers s !! b) as [batcher|]; [|discriminate].
    destruct (onFilterChangeTimeout batcher); [|discriminate].
    injection H as <-. apply W, calm_untaken, processEventsHistory_calm.
  - unfold takeTask in H. destruct (tasks s !! i) as [t|] eqn:T; [|discriminate].
    destruct t; try discriminate. injection H as <-.
    assert (C : calm 1 (without (Some i) s)
                  (stateOf (onSubscriptionLoaded options callback runInfo
                              (emit ESubscriptionsInit (without (Some i) s))))).
    { eapply calm_step; [apply onSubscriptionLoaded_calm| |calm_sum]. simpl. lia. }
    apply W, (calm_taken 1 i _ _ _ T); [simpl; lia|exact C|].
    exact (linked_taken 1 i _ _ _ T eq_refl C).
  - unfold takeTask in H. destruct (tasks s !! i) as [t|] eqn:T; [|discriminate].
    destruct t; try discriminate; try (injection H as <-).
    + pose proof (invoke_calm (CbUser callback) (without (Some i) s)) as C.
      apply W, (calm_taken 0 i _ _ _ T); [simpl; lia|exact C|].
      exact (linked_taken _ i _ _ _ T eq_refl C).
    + pose proof (initRequestFilter_calm callback (without (Some i) s)) as C.
      apply W, (calm_taken 1 i _ _ _ T); [simpl; lia|exact C|].
      exact (linked_taken _ i _ _ _ T eq_refl C).
    + pose proof (notifyListeners_calm APPLICATION_UPDATED (ARunInfo runInfo) []
                    (without (Some i) s)) as C.
      apply W, (calm_taken 0 i _ _ _ T); [simpl; lia|exact C|].
      exact (linked_taken _ i _ _ _ T eq_refl C).
    + apply W, (calm_taken 0 i _ _ _ T); [simpl; lia|apply saveRulesLoaded_calm|].
      intros K. by apply linked_save_read.
    + apply W, (calm_taken 0 i _ _ _ T); [simpl; lia|apply rulesWritten_calm|].
      intros K. by apply linked_save_write.
    + destruct dfds; [|discriminate]. injection H as <-.
      pose proof (createRequestFilter_calm None (without (Some i) s)) as C.
      apply W, (calm_taken 0 i _ _ _ T); [simpl; lia|exact C|].
      exact (linked_taken _ i _ _ _ T eq_refl C).
  - unfold takeTask in H. destruct (tasks s !! i) as [t|] eqn:T; [|discriminate].
    destruct t; try discriminate. destruct (memb id pending); [|discriminate].
    injection H as <-.
    pose proof (rulesLoaded_calm callback pending rulesFilterMap id (without (Some i) s)) as C.
    apply W, (calm_taken (cbInstalls callback) i _ _ _ T); [simpl; lia|exact C|].
    exact (linked_taken _ i _ _ _ T eq_refl C).
  - unfold takeTask in H. destruct (tasks s !! i) as [t|] eqn:T; [|discriminate].
    destruct t; try discriminate. destruct (memb id pending); [|discriminate].
    injection H as <-.
    apply W, (calm_taken 0 i _ _ _ T); [simpl; lia|apply calm_refl|].
    exact (linked_taken 0 i _ _ _ T eq_refl (calm_refl _)).
  - unfold takeTask in H. destruct (tasks s !! i) as [t|] eqn:T; [|discriminate].
    destruct t; try discriminate. injection H as <-.
    destruct (requestFilterInitialized_budget callback rulesFilterMap newRequestFilter lists
                (with_tasks (delete i (tasks s)) s)) as (A & B & C & D & L & E).
    pose proof (without_owed _ _ _ T) as O. simpl in *.
    split; [intros _; exact A|]. split; [exact C|]. split; [|split; [|exact E]].
    + unfold listenerBound. rewrite B. simpl. lia.
    + intros K. apply L. by apply (savesLinked_delete _ _ _ T).
  - unfold takeTask in H. destruct (tasks s !! i) as [t|] eqn:T; [|discriminate].
    destruct t; try discriminate. injection H as <-.
    apply W, (calm_taken 0 i _ _ _ T); [simpl; lia|apply calm_refl|].
    exact (linked_taken 0 i _ _ _ T eq_refl (calm_refl _)).
  - injection H as <-. apply W, calm_untaken.
    unfold calm, owedListeners. simpl. repeat split; auto. lia.
  - injection H as <-. apply W, calm_untaken, registry_calm.
Qed.


(** ** The debounce timer *)

Lemma reachable_wellArmed s : reachable s -> Forall wellArmed (batchers s).
Proof.
  revert s. apply (reachable_invariant (fun s => Forall wellArmed (batchers s))).
  - intros. constructor.
  - intros o s0 s' H. by apply (step_keeps o s0 s' H).
Qed.

(** X1: in every state the service can reach, the timer of a batcher is
    armed exactly when events are pending in it; so the timer fires only on
    a batch that holds an event, and cannot fire when nothing is pending. *)
Theorem timer_armed_iff_events_pending s b batcher :
  reachable s -> batchers s !! b = Some batcher ->
  (onFilterChangeTimeout batcher = true <-> filterEventsHistory batcher <> []) /\
  (forall s', step (OpTimer b) s = Some s' ->
              filterEventsHistory batcher <> [] /\ s' = processEventsHistory b s) /\
  (filterEventsHistory batcher = [] -> step (OpTimer b) s = None).
Proof.
  intros R B. pose proof (reachable_wellArmed s R) as W.
  assert (A : wellArmed batcher).
  { exact (Forall_lookup_1 _ _ _ _ W B). }
  split; [exact A|]. simpl. rewrite B. split.
  - intros s' H. destruct (onFilterChangeTimeout batcher) eqn:T; [|discriminate].
    split; [by apply A|]. congruence.
  - intros E. destruct (onFilterChangeTimeout batcher) eqn:T; [|reflexivity].
    by apply A in T.
Qed.


Lemma lookup_map {A B} (f : A -> B) (l : list A) i : List.map f l !! i = f <$> l !! i.
Proof. revert i. induction l as [|x l IH]; intros [|i]; simpl; auto. Qed.

Lemma listener_recorded ev a rs b :
  listener ev a rs b
    = {| filterEventsHistory := filterEventsHistory b ++ recorded (ev, a, rs);
         onFilterChangeTimeout := match recorded (ev, a, rs) with
                                  | [] => onFilterChangeTimeout b
                                  | _ :: _ => true
                                  end |}.
Proof. destruct b. destruct ev; simpl; rewrite ?app_nil_r; reflexivity. Qed.

Lemma listener_ignores ev a rs bs :
  recorded (ev, a, rs) = [] -> List.map (listener ev a rs) bs = bs.
Proof.
  intros H. induction bs as [|b bs IH]; [done|]. simpl. rewrite IH. f_equal.
  rewrite listener_recorded, H, app_nil_r. by destruct b.
Qed.

Lemma processEventsHistory_batchers b s batcher :
  batchers s !! b = Some batcher ->
  batchers (processEventsHistory b s) = <[b := freshBatcher]> (batchers s).
Proof.
  intros B. rewrite (processEventsHistory_eq b s batcher B). simpl.
  destruct (existsb _ _); simpl; [reflexivity|]. by apply listener_ignores.
Qed.

Lemma recorded_more ev a rs ns batcher :
  {| filterEventsHistory :=
       filterEventsHistory (listener ev a rs batcher) ++ flat_map recorded ns;
     onFilterChangeTimeout := match flat_map recorded ns with
                              | [] => onFilterChangeTimeout (listener ev a rs batcher)
                              | _ :: _ => true
                              end |}
  = {| filterEventsHistory :=
         filterEventsHistory batcher ++ flat_map recorded ((ev, a, rs) :: ns);
       onFilterChangeTimeout := match flat_map recorded ((ev, a, rs) :: ns) with
                                | [] => onFilterChangeTimeout batcher
                                | _ :: _ => true
                                end |}.
Proof.
  rewrite listener_recorded.
  change (flat_map recorded ((ev, a, rs) :: ns))
    with (recorded (ev, a, rs) ++ flat_map recorded ns).
  generalize (recorded (ev, a, rs)) as r. intros r.
  cbn [filterEventsHistory onFilterChangeTimeout]. rewrite <- app_assoc.
  destruct r; [reflexivity|]. by destruct (flat_map recorded ns).
Qed.

(** Notifications only record: the run of a burst. *)
Lemma notifications_record ns s :
  exists s1,
    run (List.map notifyOp ns) s = Some s1 /\
    tasks s1 = tasks s /\ store s1 = store s /\ requestFilter s1 = requestFilter s /\
    storageEffects (trace s1) = storageEffects (trace s) /\
    compilations (trace s1) = compilations (trace s) /\
    forall b batcher,
      batchers s !! b = Some batcher ->
      batchers s1 !! b
        = Some {| filterEventsHistory := filterEventsHistory batcher ++ flat_map recorded ns;
                  onFilterChangeTimeout := match flat_map recorded ns with
                                           | [] => onFilterChangeTimeout batcher
                                           | _ :: _ => true
                                           end |}.
Proof.
  revert s. induction ns as [|[[ev a] rs] ns IH]; intros s.
  - exists s. simpl. repeat split; auto. intros b [h t] B. simpl. by rewrite app_nil_r.
  - destruct (IH (notifyListeners ev a rs s)) as (s1 & R & T & St & F & SE & C & B1).
    exists s1.
    change (run (List.map notifyOp ((ev, a, rs) :: ns)) s)
      with (run (List.map notifyOp ns) (notifyListeners ev a rs s)).
    split; [exact R|]. split; [exact T|]. split; [exact St|]. split; [exact F|].
    split; [|split].
    + rewrite SE. unfold notifyListeners, emit. simpl. rewrite storageEffects_app.
      simpl. by rewrite app_nil_r.
    + rewrite C. unfold notifyListeners, emit. simpl. rewrite compilations_app.
      change (compilations [ENotify ev a]) with 0. lia.
    + intros b batcher B. rewrite (B1 b (listener ev a rs batcher)).
      2: { unfold notifyListeners. simpl. by rewrite lookup_map, B. }
      f_equal. apply recorded_more.
Qed.

(** X2: a burst of notifications is handled as one batch.  The
    notifications only append to the history of the batcher, in arrival
    order, and arm its timer: they start no task, read and write no slot and
    leave the handle alone.  When the timer fires, that whole history is
    processed at once and the batcher is left empty and disarmed, so the
    timer cannot fire a second time for the same events. *)
Theorem burst_is_one_batch ns s b batcher :
  batchers s !! b = Some batcher -> flat_map recorded ns <> [] ->
  exists s1,
    run (List.map notifyOp ns) s = Some s1 /\
    batchers s1 !! b
      = Some {| filterEventsHistory := filterEventsHistory batcher ++ flat_map recorded ns;
                onFilterChangeTimeout := true |} /\
    tasks s1 = tasks s /\ store s1 = store s /\ requestFilter s1 = requestFilter s /\
    storageEffects (trace s1) = storageEffects (trace s) /\
    compilations (trace s1) = compilations (trace s) /\
    run [OpTimer b] s1 = Some (processEventsHistory b s1) /\
    batchers (processEventsHistory b s1) !! b = Some freshBatcher /\
    run [OpTimer b; OpTimer b] s1 = None.
Proof.
  intros B N. destruct (notifications_record ns s) as (s1 & R & T & St & F & SE & C & B1).
  specialize (B1 b batcher B). exists s1.
  destruct (flat_map recorded ns) as [|e es] eqn:E; [by destruct N|]. clear N.
  assert (P : batchers (processEventsHistory b s1) !! b = Some freshBatcher).
  { rewrite (processEventsHistory_batchers _ _ _ B1). apply list_lookup_insert_eq.
    eapply lookup_lt_Some, B1. }
  repeat split; auto.
  - simpl. by rewrite B1.
  - simpl. rewrite B1. simpl. by rewrite P.
Qed.

(** ** The change listener *)

Lemma reachable_listenerBound s : reachable s -> listenerBound s.
Proof.
  revert s. apply (reachable_invariant listenerBound).
  - intros. unfold listenerBound, owedListeners, pendingInstalls. simpl. lia.
  - intros o s0 s' H. by apply (step_keeps o s0 s' H).
Qed.

(** X3: the change listener is installed at most once.  In every state the
    service can reach there is at most one batcher, and none before [start]
    has been called for the first time: a notification is never recorded
    twice. *)
Theorem change_listener_installed_at_most_once s :
  reachable s ->
  length (batchers s) <= 1 /\
  (isInitialized s = false -> batchers s = []) /\
  length (batchers s) + pendingInstalls (tasks s) <= 1.
Proof.
  intros R. pose proof (reachable_listenerBound s R) as L.
  unfold listenerBound, owedListeners, isInitialized in *.
  split; [destruct (applicationInitialized s); lia|]. split.
  - intros E. rewrite E in L. destruct (batchers s); [reflexivity|simpl in L; lia].
  - destruct (applicationInitialized s); lia.
Qed.

(** ** The initialization time *)

(** X4: the time of the very first initialization is set once: when it has
    been set, no sequence of turns of the event loop (rebuilds, stops and
    restarts among them) changes what [getRequestFilterInitTime] returns. *)
Theorem initialization_time_is_set_once ops s s' :
  requestFilterInitTime s <> 0 -> run ops s = Some s' ->
  getRequestFilterInitTime s' = getRequestFilterInitTime s.
Proof.
  intros N R. unfold getRequestFilterInitTime.
  apply (run_invariant (fun x => requestFilterInitTime x = requestFilterInitTime s))
    with (ops := ops) (s := s); [|exact R|reflexivity].
  intros o s0 s1 H E. destruct (step_keeps o s0 s1 H) as (T & _).
  rewrite <- E. apply T. congruence.
Qed.

(** ** The forced update check *)

Lemma step_trace_grows o s s' : step o s = Some s' -> exists es, trace s' = trace s ++ es.
Proof.
  intros H. destruct (step_turn o s s' H)
    as [options cb _ ->| _ ->|i es new _ D _ _ _|i dfd key converted _ _ ->
       |i id cb pending m _ _ _ ->|i id cb pending m _ _ _ ->
       |i cb m h lists _ _ ->|i cb m h lists _ _ ->].
  - destruct (start_summary options cb s) as (es & new & T & _). by exists es.
  - destruct (stop_summary s) as (T & _). eauto.
  - destruct D as (T & _). exists es. rewrite T. by destruct i.
  - destruct (rulesWritten_summary dfd key converted (without (Some i) s)) as (es & T & _).
    exists es. exact T.
  - destruct (rulesLoaded_summary cb pending m id (without (Some i) s))
      as (_ & _ & _ & _ & [(_ & T & _)|(_ & (es & T & _) & _)]).
    + exists []. rewrite T. simpl. by rewrite app_nil_r.
    + eexists. exact T.
  - exists []. simpl. by rewrite app_nil_r.
  - destruct (requestFilterInitialized_summary cb m h lists (without (Some i) s))
      as (es & T & _). exists es. exact T.
  - exists []. simpl. by rewrite app_nil_r.
Qed.

Lemma run_trace_grows ops s s' : run ops s = Some s' -> exists es, trace s' = trace s ++ es.
Proof.
  revert s. induction ops as [|o ops IH]; intros s H; simpl in H.
  - injection H as <-. exists []. by rewrite app_nil_r.
  - destruct (step o s) as [s1|] eqn:E; [|discriminate].
    destruct (step_trace_grows _ _ _ E) as (es1 & T1).
    destruct (IH _ H) as (es2 & T2). exists (es1 ++ es2). by rewrite T2, T1, app_assoc.
Qed.




(** ** Installing a filter *)

Lemma getFilter_None fs id : getFilter fs id = None <-> ~ In id (List.map filterId fs).
Proof.
  unfold getFilter. induction fs as [|f fs IH]; simpl; [tauto|].
  destruct (Nat.eqb_spec (filterId f) id) as [E|E].
  - split; [discriminate|]. intros H. destruct H. by left.
  - rewrite IH. tauto.
Qed.

Lemma getFilter_setInstalled fs id j :
  getFilter (setInstalled id fs) j
    = if Nat.eqb j id then asInstalled <$> getFilter fs id else getFilter fs j.
Proof.
  unfold getFilter. induction fs as [|f fs IH]; simpl; [by destruct (Nat.eqb j id)|].
  destruct (Nat.eqb_spec (filterId f) id) as [E|E]; simpl.
  - destruct (Nat.eqb_spec j id) as [J|J].
    + subst j. rewrite <- E, Nat.eqb_refl. reflexivity.
    + destruct (Nat.eqb_spec (filterId f) j) as [K|K]; [congruence|reflexivity].
  - destruct (Nat.eqb_spec (filterId f) j) as [K|K].
    + destruct (Nat.eqb_spec j id) as [J|J]; [congruence|reflexivity].
    + exact IH.
Qed.

Lemma setInstalled_ids id fs : List.map filterId (setInstalled id fs) = List.map filterId fs.
Proof.
  induction fs as [|f fs IH]; [done|]. simpl.
  destruct (Nat.eqb (filterId f) id); simpl; [reflexivity|by rewrite IH].
Qed.

Lemma setInstalled_enabled id fs : List.map enabled (setInstalled id fs) = List.map enabled fs.
Proof.
  induction fs as [|f fs IH]; [done|]. simpl.
  destruct (Nat.eqb (filterId f) id); simpl; [reflexivity|by rewrite IH].
Qed.

Lemma setInstalled_participating gs id fs :
  participating gs (setInstalled id fs) = participating gs fs.
Proof.
  unfold participating. induction fs as [|f fs IH]; [done|]. simpl.
  destruct (Nat.eqb (filterId f) id); simpl.
  - change (participates gs (asInstalled f)) with (participates gs f).
    by destruct (participates gs f).
  - destruct (participates gs f); simpl; by rewrite IH.
Qed.

Lemma onFilterLoaded_installsOnly id success s : installsOnly id s (onFilterLoaded id success s).
Proof.
  unfold installsOnly, onFilterLoaded. destruct success; [|repeat split; auto].
  unfold notifyListeners, emit. simpl.
  rewrite setInstalled_ids, setInstalled_enabled, setInstalled_participating.
  repeat split; auto.
  - by apply listener_ignores.
  - intros j J. rewrite getFilter_setInstalled.
    destruct (Nat.eqb_spec j id); [congruence|reflexivity].
Qed.

(** X6: [addAntiBannerFilter] throws exactly when no filter of the registry
    has the identifier ([getFilterById]); the call then changes nothing and
    the callback is not called. *)
Theorem unknown_filter_is_rejected id s :
  addAntiBannerFilter id s = AddedThrow s <-> ~ In id (List.map filterId (filters s)).
Proof.
  unfold addAntiBannerFilter, getFilterById. rewrite <- getFilter_None.
  destruct (getFilter (filters s) id) as [f|]; [|tauto].
  split; [|discriminate]. destruct (installed f); [discriminate|].
  destruct (loaded f); discriminate.
Qed.

(** X7: a filter is installed once.  For a filter that is registered and
    not installed, [addAntiBannerFilter] (at once when the filter is loaded,
    else when [filtersUpdate.loadFilterRules] reports success) sets its
    [installed] flag, announces FILTER_ADD_REMOVE once and calls back with
    [true]; a failed load calls back with [false] and changes nothing.
    Every later call for that filter only calls back with [true]. *)
Theorem filter_is_installed_once id f s :
  getFilterById id s = Some f -> installed f = false ->
  let s1 := onFilterLoaded id true s in
  (if loaded f
   then addAntiBannerFilter id s = AddedCallback true s1
   else addAntiBannerFilter id s = AddedLoading s /\
        filterRulesLoaded id true s = AddedCallback true s1 /\
        filterRulesLoaded id false s = AddedCallback false s) /\
  trace s1 = trace s ++ [ENotify FILTER_ADD_REMOVE (AFilter id)] /\
  getFilterById id s1 = Some (asInstalled f) /\
  addAntiBannerFilter id s1 = AddedCallback true s1.
Proof.
  intros G I s1.
  assert (G1 : getFilterById id s1 = Some (asInstalled f)).
  { unfold getFilterById, s1, onFilterLoaded, notifyListeners in *. simpl.
    by rewrite getFilter_setInstalled, Nat.eqb_refl, G. }
  split; [|split; [reflexivity|split; [exact G1|]]].
  - unfold addAntiBannerFilter. rewrite G, I. by destruct (loaded f).
  - unfold addAntiBannerFilter. by rewrite G1.
Qed.

(** X8: installing a filter touches nothing but the [installed] flag of
    that filter and the trace: whether [addAntiBannerFilter] calls back,
    waits for the rules or throws, and whatever the load reports, the
    batchers, the tasks in flight, the store, the handle, the groups, the
    identifiers and [enabled] flags of the filters, and so the filters a
    rebuild reads, are as before, and so is every other filter. *)
Theorem installing_changes_one_flag id success s :
  installsOnly id s (addedState (addAntiBannerFilter id s)) /\
  installsOnly id s (addedState (filterRulesLoaded id success s)).
Proof.
  assert (R : installsOnly id s s) by (repeat split; auto).
  split; [|apply onFilterLoaded_installsOnly].
  unfold addAntiBannerFilter. destruct (getFilterById id s) as [f|]; [|exact R].
  destruct (installed f); [exact R|]. destruct (loaded f); [|exact R].
  apply onFilterLoaded_installsOnly.
Qed.

(** ** Hydration of the registry *)

Lemma getGroup_map (h : Group -> Group) gs id :
  (forall g, g_groupId (h g) = g_groupId g) ->
  getGroup (List.map h gs) id = h <$> getGroup gs id.
Proof.
  intros H. unfold getGroup. induction gs as [|g gs IH]; [done|]. simpl.
  rewrite H. destruct (Nat.eqb (g_groupId g) id); [reflexivity|exact IH].
Qed.

Lemma map_filter_map {A C} (h : A -> A) (p : A -> bool) (q : A -> bool) (k : A -> C) l :
  (forall x, p (h x) = q x) -> (forall x, k (h x) = k x) ->
  List.map k (List.filter p (List.map h l)) = List.map k (List.filter q l).
Proof.
  intros P K. induction l as [|x l IH]; [done|]. simpl. rewrite P.
  destruct (q x); simpl; by rewrite ?K, IH.
Qed.

(** X9: the first rebuild goes by the persisted state.  [initRequestFilter]
    starts the rebuild on the hydrated registry, in which every filter and
    group keeps its identifier and place and has the [enabled] flag that
    [filtersState] holds for it, whatever the registry said before; so the
    filters that rebuild reads are those enabled, in an enabled group,
    according to the persisted flags.  Hydrating twice is hydrating once. *)
Theorem first_rebuild_goes_by_persisted_state cb s :
  initRequestFilter cb s = createRequestFilter (Some (CbInit cb)) (hydrated s) /\
  List.map filterId (filters (hydrated s)) = List.map filterId (filters s) /\
  List.map groupId (filters (hydrated s)) = List.map groupId (filters s) /\
  List.map g_groupId (groups (hydrated s)) = List.map g_groupId (groups s) /\
  List.map enabled (filters (hydrated s)) = List.map (persistedFilterEnabled s) (filters s) /\
  List.map g_enabled (groups (hydrated s)) = List.map (persistedGroupEnabled s) (groups s) /\
  participating (groups (hydrated s)) (filters (hydrated s))
    = List.map filterId
        (List.filter (fun f => persistedFilterEnabled s f
                               && match getGroup (groups s) (groupId f) with
                                  | Some g => persistedGroupEnabled s g
                                  | None => false
                                  end)
                     (filters s)) /\
  hydrated (hydrated s) = hydrated s.
Proof.
  unfold hydrated, loadGroupsStateInfo, loadFiltersVersionAndStateInfo. simpl.
  set (hf := fun f : Filter => _). set (hg := fun g : Group => _).
  assert (Hf : forall f, filterId (hf f) = filterId f /\ groupId (hf f) = groupId f
                         /\ enabled (hf f) = persistedFilterEnabled s f).
  { intros f. unfold hf, persistedFilterEnabled.
    destruct (filtersVersionInfo s !! filterId f), (filtersStateInfo s !! filterId f); auto. }
  assert (Hg : forall g, g_groupId (hg g) = g_groupId g
                         /\ g_enabled (hg g) = persistedGroupEnabled s g).
  { intros g. unfold hg, persistedGroupEnabled.
    destruct (groupsStateInfo s !! g_groupId g); auto. }
  split; [reflexivity|].
  rewrite !List.map_map.
  split; [apply map_ext; intros; apply Hf|].
  split; [apply map_ext; intros; apply Hf|].
  split; [apply map_ext; intros; apply Hg|].
  split; [apply map_ext; intros; apply Hf|].
  split; [apply map_ext; intros; apply Hg|].
  split.
  - unfold participating. apply map_filter_map; [|intros; apply Hf].
    intros f. unfold participates. destruct (Hf f) as (_ & -> & ->). f_equal.
    rewrite getGroup_map by (intros; apply Hg).
    destruct (getGroup (groups s) (groupId f)) as [g|]; simpl; [apply Hg|reflexivity].
  - apply state_eq; simpl; try reflexivity.
    + apply map_ext. intros f. unfold hf.
      destruct (filtersVersionInfo s !! filterId f) as [v|] eqn:V,
               (filtersStateInfo s !! filterId f) as [i|] eqn:I;
        simpl; rewrite ?V, ?I; simpl; try reflexivity;
        destruct (Nat.eqb (vi_expires v) 0); reflexivity.
    + apply map_ext. intros g. unfold hg.
      destruct (groupsStateInfo s !! g_groupId g) as [e|] eqn:E; simpl; rewrite E; reflexivity.
Qed.

(** ** The reload *)

(** X10: the forced reload resets versions and nothing else.
    [reloadAntiBannerFilters] gives every filter the version 0.0.0.0 and
    asks for the update check; identifiers, groups and [enabled] flags, and
    so the filters a rebuild reads, are as before, no task is started, and
    the batchers, the store and the handle are left alone.  A second reset
    changes nothing more. *)
Theorem reload_resets_versions_only s :
  let s' := reloadAntiBannerFilters s in
  Forall (fun f => version f = RESET_VERSION) (filters s') /\
  trace s' = trace s ++ [ECheckFiltersUpdate] /\
  List.map filterId (filters s') = List.map filterId (filters s) /\
  List.map enabled (filters s') = List.map enabled (filters s) /\
  List.map installed (filters s') = List.map installed (filters s) /\
  participating (groups s') (filters s') = participating (groups s) (filters s) /\
  tasks s' = tasks s /\ batchers s' = batchers s /\ store s' = store s /\
  requestFilter s' = requestFilter s /\ groups s' = groups s /\
  resetFiltersVersion (resetFiltersVersion s) = resetFiltersVersion s.
Proof.
  unfold reloadAntiBannerFilters, resetFiltersVersion, emit. simpl.
  split; [apply Forall_map, Forall_forall; by intros|].
  rewrite !List.map_map. repeat split; auto.
  unfold participating. by apply map_filter_map.
Qed.

(** ** A filter whose group is missing *)

Lemma loadFilterRules_ok gs fs : snd (loadFilterRules gs fs) = groupsKnown gs fs.
Proof.
  induction fs as [|f fs IH]; [done|]. simpl.
  destruct (enabled f); simpl; [|exact IH].
  destruct (getGroup gs (groupId f)) as [g|]; simpl; [|reflexivity].
  destruct (loadFilterRules gs fs) as [ids ok]. exact IH.
Qed.

(** X11: a rebuild throws exactly when the application is running and an
    enabled filter belongs to a group that is not registered (the group of
    a disabled filter is not looked at).  The rebuild then ends where it
    threw: reads may have been asked for, but no rebuild is in flight, the
    callback is not called, and the batchers and the handle stay as they
    are. *)
Theorem rebuild_throws_on_missing_group cb s :
  ((exists s', createRequestFilter cb s = Throw s')
   <-> applicationRunning s = true /\ groupsKnown (groups s) (filters s) = false) /\
  (forall s', createRequestFilter cb s = Throw s' ->
     (exists ids, trace s' = trace s ++ readsOf ids ++ [EThrow]) /\
     tasks s' = tasks s /\ batchers s' = batchers s /\
     requestFilter s' = requestFilter s /\ store s' = store s).
Proof.
  unfold createRequestFilter. pose proof (loadFilterRules_ok (groups s) (filters s)) as K.
  destruct (applicationRunning s); simpl.
  - destruct (loadFilterRules (groups s) (filters s)) as [ids ok]. simpl in K. subst ok.
    destruct (groupsKnown (groups s) (filters s)).
    + split; [|discriminate]. split; [intros [s' H]; discriminate|intros [_ H]; discriminate].
    + split; [split; eauto|].
      intros s' [= <-]. unfold emit. simpl. rewrite <- app_assoc. eauto 10.
  - split; [|discriminate]. split; [intros [s' H]; discriminate|intros [H _]; discriminate].
Qed.

(** ** The store *)

(** X12: the store is written by the write callback of a save and by
    nothing else: every other turn of the event loop, all turns of a rebuild
    among them, leaves every slot as it was. *)
Theorem store_is_written_by_saves_only o s s' :
  step o s = Some s' ->
  store s' = store s \/
  exists i dfd key converted,
    o = OpDone i /\ tasks s !! i = Some (TSaveWrite dfd key converted) /\
    store s' = <[key := converted]> (store s).
Proof.
  intros H. destruct (step_turn o s s' H)
    as [options cb _ ->| _ ->|i es new _ D _ _ _|i dfd key converted -> T ->
       |i id cb pending m _ _ _ ->|i id cb pending m _ _ _ ->
       |i cb m h lists _ _ ->|i cb m h lists _ _ ->].
  - left. by destruct (start_summary options cb s) as (es & new & _ & _ & _ & _ & St & _).
  - left. by destruct (stop_summary s) as (_ & _ & _ & _ & St & _).
  - left. destruct D as (_ & _ & _ & _ & _ & _ & St). rewrite St. by destruct i.
  - right. exists i, dfd, key, converted. split; [reflexivity|]. split; [exact T|].
    by destruct (rulesWritten_summary dfd key converted (without (Some i) s))
      as (es & _ & _ & _ & _ & _ & St & _).
  - left. by destruct (rulesLoaded_summary cb pending m id (without (Some i) s)) as (_ & St & _).
  - left. reflexivity.
  - left. by destruct (requestFilterInitialized_summary cb m h lists (without (Some i) s))
      as (es & _ & _ & _ & _ & _ & St & _).
  - left. reflexivity.
Qed.

(** ** Stopping and starting again *)

(** X13: [stop] does not cancel a rebuild in flight.  When the engine of a
    rebuild is starting and the application is stopped, the engine start
    still ends in STEP 3: the compiled handle replaces the empty one that
    [stop] installed, although the application is not running.  So does a
    rebuild that still waits for its last read: its engine is started after
    the stop. *)
Theorem stop_does_not_cancel_rebuild s i cb rulesFilterMap h lists :
  tasks s !! i = Some (TEngine cb rulesFilterMap h lists) ->
  (exists s', run [OpStop; OpEngineStarted i] s = Some s' /\
              isRunning s' = false /\
              getRequestFilter s'
                = {| handle := h; getRulesCount := engineRulesCount lists |}) /\
  getRulesCount (getRequestFilter (stop s)) = 0 /\
  forall j cb2 id rulesFilterMap2,
    tasks s !! j = Some (TLoad cb2 [id] rulesFilterMap2) ->
    exists s2, run [OpStop; OpReadDone j id] s = Some s2 /\
               isRunning s2 = false /\
               compilations (trace s2) = S (compilations (trace s)).
Proof.
  intros T. destruct (stop_summary s) as (Tr & Ts & F & N & St & R & I).
  assert (Two : forall o x, step o (stop s) = Some x -> run [OpStop; o] s = Some x).
  { intros o x E.
    change (run [OpStop; o] s)
      with (match step o (stop s) with Some s' => Some s' | None => None end).
    by rewrite E. }
  split; [|split; [unfold getRequestFilter; by rewrite F|]].
  - eexists. split.
    + apply Two, step_engine_started. rewrite Ts. exact T.
    + destruct (requestFilterInitialized_summary cb rulesFilterMap h lists
                  (without (Some i) (stop s)))
        as (es & _ & _ & _ & F2 & _ & _ & R2 & _).
      unfold isRunning, getRequestFilter. by rewrite F2, R2.
  - intros j cb2 id m2 L. eexists. split.
    + apply Two, step_read_done; [rewrite Ts; exact L|]. simpl. by rewrite Nat.eqb_refl.
    + destruct (rulesLoaded_summary cb2 [id] m2 id (without (Some j) (stop s)))
        as (_ & _ & R2 & _ & [(N0 & _)|(_ & (es & T2 & Q) & _)]).
      { simpl in N0. rewrite Nat.eqb_refl in N0. by destruct N0. }
      unfold isRunning. rewrite R2. split; [exact R|].
      rewrite T2. change (trace (without (Some j) (stop s))) with (trace (stop s)).
      rewrite Tr, !compilations_app, (quiet_compilations es Q).
      change (compilations [ENotify REQUEST_FILTER_UPDATED (AInfo 0)]) with 0.
      change (compilations [EStartEngine _]) with 1. lia.
Qed.

(** X14: starting a stopped application again does not initialize it
    again: [start] on an initialized service asks for no run info and does
    not hydrate the registry; it starts a rebuild that reads the filters
    taking part and the user filter.  The callback of [start] is called when
    that rebuild's engine has started, after the new handle has been
    published and before REQUEST_FILTER_UPDATED is announced. *)
Theorem restart_rebuilds_without_initializing options cb s :
  isInitialized s = true -> isRunning s = false ->
  groupsKnown (groups s) (filters s) = true ->
  let ids := participating (groups s) (filters s) ++ [idValue USER_FILTER_ID] in
  let s1 := stateOf (start options cb s) in
  start options cb s
    = Normal (spawn (TLoad (Some (CbUser cb)) ids [])
                (with_trace (trace s ++ readsOf ids) (with_applicationRunning true s))) /\
  initializations (trace s1) = initializations (trace s) /\
  filters s1 = filters s /\ groups s1 = groups s /\ isRunning s1 = true /\
  forall rulesFilterMap h lists s2, exists es,
    trace (requestFilterInitialized (Some (CbUser cb)) rulesFilterMap h lists s2)
      = trace s2 ++ [ECallback cb;
                     ENotify REQUEST_FILTER_UPDATED (AInfo (engineRulesCount lists))] ++ es.
Proof.
  intros I R G ids s1. unfold isInitialized, isRunning in *.
  assert (E : start options cb s
              = Normal (spawn (TLoad (Some (CbUser cb)) ids [])
                          (with_trace (trace s ++ readsOf ids) (with_applicationRunning true s)))).
  { unfold start. rewrite R. simpl. rewrite I. simpl.
    by rewrite createRequestFilter_running. }
  split; [exact E|]. unfold s1. rewrite E. simpl.
  split; [by rewrite initializations_app, readsOf_not_init, Nat.add_0_r|].
  repeat split; auto.
  intros m h lists s2. unfold requestFilterInitialized.
  set (filled := {| handle := h; getRulesCount := engineRulesCount lists |}).
  set (s3 := notifyListeners _ _ _ _).
  assert (T3 : trace s3 = trace s2 ++ [ECallback cb; ENotify REQUEST_FILTER_UPDATED
                                                       (AInfo (engineRulesCount lists))]).
  { unfold s3, notifyListeners, invokeIfFunction, invoke, emit. simpl.
    by rewrite <- app_assoc. }
  clearbody s3.
  assert (Z : trace s3 = trace s2 ++ [ECallback cb; ENotify REQUEST_FILTER_UPDATED
                                                      (AInfo (engineRulesCount lists))] ++ []).
  { by rewrite app_nil_r. }
  destruct (isEmptyRulesFilterMap m); [by exists []|].
  destruct (_ && _).
  - exists [ECheckFiltersUpdate]. unfold reloadAntiBannerFilters, resetFiltersVersion, emit.
    simpl. by rewrite T3, <- app_assoc.
  - destruct (_ && _); by exists [].
Qed.

(** ** Rule text: lines and text *)

Lemma split_not_nil text : split text <> [].
Proof.
  destruct text as [|c rest]; simpl; [discriminate|].
  destruct (Ascii.eqb c lineFeedChar); [discriminate|]. by destruct (split rest).
Qed.

Lemma join_cons x y ys : join (x :: y :: ys) = (x ++ lineFeed ++ join (y :: ys))%string.
Proof. reflexivity. Qed.

Lemma join_split text : join (split text) = text.
Proof.
  induction text as [|c rest IH]; [reflexivity|]. simpl.
  pose proof (split_not_nil rest) as N.
  destruct (Ascii.eqb_spec c lineFeedChar) as [E|E].
  - destruct (split rest) as [|l ls]; [by destruct N|].
    rewrite join_cons, IH. simpl. by rewrite E.
  - destruct (split rest) as [|l ls]; [by destruct N|].
    destruct ls as [|l2 ls].
    + change (join [l]) with l in IH. change (join [String c l]) with (String c l).
      by rewrite IH.
    + rewrite join_cons. rewrite join_cons in IH. rewrite <- IH. reflexivity.
Qed.

Lemma split_line x : hasLineFeed x = false -> split x = [x].
Proof.
  induction x as [|c x IH]; [reflexivity|]. simpl. intros H.
  apply orb_false_elim in H as [C H]. rewrite C, (IH H). reflexivity.
Qed.

Lemma split_first_line x y :
  hasLineFeed x = false -> split (x ++ lineFeed ++ y) = x :: split y.
Proof.
  induction x as [|c x IH]; simpl; intros H.
  - reflexivity.
  - apply orb_false_elim in H as [C H]. rewrite C, (IH H). reflexivity.
Qed.

Lemma split_join lines :
  lines <> [] -> Forall (fun l => hasLineFeed l = false) lines -> split (join lines) = lines.
Proof.
  induction lines as [|x [|y ys] IH]; intros N F; [by destruct N| |].
  - simpl. apply split_line. by inversion F.
  - rewrite join_cons. inversion F as [|? ? Fx Fy]. subst.
    rewrite split_first_line by exact Fx. f_equal. by apply IH.
Qed.

(** X15: what a save writes is what the rebuild hands to the engine.  The
    lines written for a filter are never an empty array, and joined again by
    the next rebuild they are the text the converter returned, character by
    character.  When the converter leaves the text as it is, the lines
    written are the edited lines themselves, provided there is at least one
    and none holds a line feed. *)
Theorem saved_text_reaches_engine_unchanged dfd key events s content :
  applyEvents events (store s !! key) = Some content ->
  let text := convertRules (join content) in
  saveRulesLoaded dfd key events s
    = spawn (TSaveWrite dfd key (split text))
        (emit (EStorageWrite key (split text)) (emit (EConvertRules (join content)) s)) /\
  split text <> [] /\
  join (split text) = text /\
  (forall id, List.map l_rulesText (ruleLists [(id, split text)]) = [text]) /\
  (text = join content -> content <> [] ->
   Forall (fun l => hasLineFeed l = false) content -> split text = content).
Proof.
  intros A text. unfold saveRulesLoaded. rewrite A. fold text.
  split; [reflexivity|]. split; [apply split_not_nil|]. split; [apply join_split|].
  split; [intros id; simpl; by rewrite join_split|].
  intros -> N F. by apply split_join.
Qed.

(** ** The rule map *)

Lemma getRules_single k t key : getRules key [(k, t)] = if Nat.eqb k key then Some t else None.
Proof. unfold getRules. simpl. by destruct (Nat.eqb k key). Qed.

(** X16: the rule map of a rebuild counts as empty only when it has no
    entry, or when its only entry is the user filter with an empty array of
    rules.  Lines written by a save are never an empty array, so a user
    filter that a save has emptied does not count as empty: a rebuild of it
    alone, when its engine has no rules and the [reloadedRules] flag is
    clear, makes the forced update check. *)
Theorem rule_map_is_empty_iff rulesFilterMap :
  (isEmptyRulesFilterMap rulesFilterMap = true
   <-> rulesFilterMap = [] \/ rulesFilterMap = [(idValue USER_FILTER_ID, [])]) /\
  (forall text, isEmptyRulesFilterMap [(idValue USER_FILTER_ID, split text)] = false) /\
  (forall text cb h lists s,
     engineRulesCount lists = 0 -> reloadedRules s = false ->
     forcedUpdateChecks
       (trace (requestFilterInitialized cb [(idValue USER_FILTER_ID, split text)] h lists s))
     = S (forcedUpdateChecks (trace s))).
Proof.
  assert (E : forall text, isEmptyRulesFilterMap [(idValue USER_FILTER_ID, split text)] = false).
  { intros text. unfold isEmptyRulesFilterMap, looseEq. simpl.
    rewrite Nat.eqb_refl, getRules_single, Nat.eqb_refl.
    pose proof (split_not_nil text). by destruct (split text). }
  split; [|split; [exact E|]].
  - unfold isEmptyRulesFilterMap, looseEq. destruct rulesFilterMap as [|[k t] [|kv m]]; simpl.
    + split; auto.
    + rewrite getRules_single. destruct (Nat.eqb_spec k (idValue USER_FILTER_ID)) as [K|K].
      * subst k. destruct t; simpl.
        -- split; auto.
        -- split; [discriminate|]. intros [H|H]; discriminate.
      * split; [discriminate|]. intros [H|H]; [discriminate|]. congruence.
    + split; [discriminate|]. intros [H|H]; discriminate.
  - intros text cb h lists s Z R. rewrite forced_update_check_condition, E, Z, R. simpl. lia.
Qed.

Lemma setRules_get key text m k :
  getRules k (setRules key text m) = if Nat.eqb key k then Some text else getRules k m.
Proof.
  unfold getRules. induction m as [|[k0 t0] m IH]; simpl.
  - by destruct (Nat.eqb key k).
  - destruct (Nat.eqb_spec key k0) as [E|E]; simpl.
    + subst k0. by destruct (Nat.eqb key k).
    + destruct (isArrayIndex key && (negb (isArrayIndex k0) || Nat.ltb key k0)); simpl.
      * by destruct (Nat.eqb key k).
      * destruct (Nat.eqb_spec k0 k) as [K|K]; [|exact IH].
        subst k0. destruct (Nat.eqb_spec key k); [congruence|reflexivity].
Qed.

Lemma setRules_enumerated key text m :
  rulesEnumerated m -> rulesEnumerated (setRules key text m).
Proof.
  unfold rulesEnumerated. induction m as [|[k t] m IH]; simpl; intros S.
  - repeat constructor.
  - apply StronglySorted_inv in S as [S1 S2].
    destruct (Nat.eqb_spec key k) as [E|E]; simpl; [by constructor|].
    destruct (isArrayIndex key && (negb (isArrayIndex k) || Nat.ltb key k)) eqn:L; simpl.
    + constructor; [by constructor|]. constructor.
      * split; [congruence|done].
      * eapply Forall_impl; [exact S2|]. intros x. by apply (inOrder_before (Some key) (Some k)).
    + constructor; [by apply IH|]. apply Forall_forall. intros x I.
      apply list_elem_of_In, setRules_keys in I as [->|I].
      * apply inOrder_after; [congruence|exact L].
      * apply list_elem_of_In in I. eapply Forall_forall in S2; [exact S2|exact I].
Qed.

Lemma loadedMap_enumerated stored ids m :
  rulesEnumerated m -> rulesEnumerated (loadedMap stored ids m).
Proof.
  revert m. induction ids as [|id ids IH]; intros m S; [exact S|]. simpl.
  apply IH. destruct (stored !! Some id); [by apply setRules_enumerated|exact S].
Qed.

(** What an enumeration order is: no name twice, the array indices first,
    in ascending order. *)
Lemma inOrder_shape (keys : list nat) :
  StronglySorted (fun a b => inOrder (Some a) (Some b)) keys ->
  NoDup keys /\
  keys = List.filter isArrayIndex keys ++ List.filter (fun k => negb (isArrayIndex k)) keys /\
  StronglySorted lt (List.filter isArrayIndex keys).
Proof.
  induction 1 as [|x l S (N & P & A) F]; simpl.
  - split; [constructor|]. split; [done|constructor].
  - split; [|destruct (isArrayIndex x) eqn:I; simpl].
    + constructor; [|exact N]. intros E. eapply Forall_forall in F; [|exact E]. by destruct F.
    + split; [by rewrite <- P|]. constructor; [exact A|].
      apply Forall_forall. intros y Y. apply list_elem_of_In, filter_In in Y as [Y Iy].
      apply list_elem_of_In in Y. eapply Forall_forall in F; [|exact Y].
      destruct F as [_ F]. specialize (F Iy). simpl in F. rewrite I, Iy in F. simpl in F.
      by apply Nat.ltb_lt.
    + assert (List.filter isArrayIndex l = []) as E.
      { clear -F I. induction l as [|y l IH]; simpl; [done|].
        apply Forall_cons in F as [[_ Fy] F]. destruct (isArrayIndex y) eqn:Iy; [|by apply IH].
        specialize (Fy Iy). simpl in Fy. by rewrite I in Fy. }
      rewrite E in *. simpl in *. split; [by rewrite <- P|constructor].
Qed.

(** With every name in it once, a rule map holds a pair exactly when the
    name reads as the text. *)
Lemma getRules_In m k t : NoDup (List.map fst m) -> In (k, t) m <-> getRules k m = Some t.
Proof.
  unfold getRules. induction m as [|[k0 t0] m IH]; simpl; intros N.
  - split; [tauto|discriminate].
  - apply NoDup_cons in N as [N0 N]. destruct (Nat.eqb_spec k0 k) as [->|E]; simpl.
    + split; [|intros [= ->]; by left]. intros [[= ->]|I]; [done|].
      destruct N0. apply list_elem_of_In. by apply (in_map fst _ (k, t)).
    + rewrite <- (IH N). split; [|tauto]. intros [[= -> ->]|I]; [done|exact I].
Qed.

Lemma loadedMap_get stored ids m k :
  getRules k (loadedMap stored ids m)
    = if decide (k ∈ ids)
      then match stored !! Some k with Some text => Some text | None => getRules k m end
      else getRules k m.
Proof.
  revert m. induction ids as [|id ids IH]; intros m; simpl.
  - destruct (decide (k ∈ [])) as [I|I]; [by apply elem_of_nil in I|reflexivity].
  - rewrite IH. destruct (decide (k = id)) as [->|N].
    + rewrite (decide_True (P := id ∈ id :: ids)) by apply list_elem_of_here.
      destruct (stored !! Some id) as [text|] eqn:E.
      * rewrite setRules_get, Nat.eqb_refl. by destruct (decide (id ∈ ids)).
      * by destruct (decide (id ∈ ids)).
    + assert (G : getRules k match stored !! Some id with
                             | Some rulesText => setRules id rulesText m
                             | None => m
                             end = getRules k m).
      { destruct (stored !! Some id); [|reflexivity]. rewrite setRules_get.
        destruct (Nat.eqb_spec id k); [congruence|reflexivity]. }
      rewrite G. destruct (decide (k ∈ ids)) as [I|I].
      * by rewrite (decide_True (P := k ∈ id :: ids)) by by apply list_elem_of_further.
      * rewrite (decide_False (P := k ∈ id :: ids)); [reflexivity|].
        intros H. apply elem_of_cons in H as [H|H]; [by destruct N|by destruct I].
Qed.

(** The lists made of the rule map that reads fill from an empty one: one
    for every identifier read whose slot holds text, made of that text. *)
Lemma ruleLists_loaded stored ids :
  let lists := ruleLists (loadedMap stored ids []) in
  NoDup (List.map l_filterId lists) /\
  forall l, In l lists <->
    exists k lines, k ∈ ids /\ stored !! Some k = Some lines /\
      l = {| l_filterId := k; l_rulesText := join lines; l_ignoreCosmetic := false;
             l_ignoreJS := negb (isTrustedFilter k) |}.
Proof.
  intros lists. unfold lists. rewrite ruleLists_keys.
  assert (A : rulesEnumerated (loadedMap stored ids []))
    by (apply loadedMap_enumerated; constructor).
  destruct (inOrder_shape _ A) as (N & _). split; [exact N|].
  assert (G : forall k, getRules k (loadedMap stored ids [])
                        = if decide (k ∈ ids) then stored !! Some k else None).
  { intros k. rewrite loadedMap_get.
    destruct (decide (k ∈ ids)); [|reflexivity]. by destruct (stored !! Some k). }
  intros l. unfold ruleLists. rewrite in_map_iff. split.
  - intros ([k t] & <- & I). apply (getRules_In _ _ _ N) in I. rewrite G in I.
    destruct (decide (k ∈ ids)); [|discriminate]. by exists k, t.
  - intros (k & lines & I & E & ->). exists (k, lines). split; [done|].
    apply (getRules_In _ _ _ N). rewrite G. by rewrite decide_True.
Qed.

(** X17: the rule map that the reads of a rebuild fill holds, for every
    identifier that was read, the lines the store holds for it, and no entry
    for an identifier that was not read or whose slot holds no text.  The
    lists handed to the engine are its entries as [for ... in] enumerates
    them: one per filter, the identifiers that are array indices (below
    2^32 - 1) first and in ascending order, whatever the order of the
    reads, and the other identifiers after them. *)
Theorem rule_map_holds_what_was_read stored ids :
  let rulesFilterMap := loadedMap stored ids [] in
  let keys := List.map l_filterId (ruleLists rulesFilterMap) in
  (forall k, getRules k rulesFilterMap = if decide (k ∈ ids) then stored !! Some k else None) /\
  (forall l, In l (ruleLists rulesFilterMap) <->
     exists k lines, k ∈ ids /\ stored !! Some k = Some lines /\
       l = {| l_filterId := k; l_rulesText := join lines; l_ignoreCosmetic := false;
              l_ignoreJS := negb (isTrustedFilter k) |}) /\
  NoDup keys /\
  keys = List.filter isArrayIndex keys ++ List.filter (fun k => negb (isArrayIndex k)) keys /\
  StronglySorted lt (List.filter isArrayIndex keys).
Proof.
  intros m keys.
  assert (A : rulesEnumerated m) by (apply loadedMap_enumerated; constructor).
  assert (G : forall k, getRules k m = if decide (k ∈ ids) then stored !! Some k else None).
  { intros k. unfold m. rewrite loadedMap_get.
    destruct (decide (k ∈ ids)); [|reflexivity]. by destruct (stored !! Some k). }
  split; [exact G|]. split; [apply ruleLists_loaded|].
  unfold keys. rewrite ruleLists_keys. by apply inOrder_shape.
Qed.

(** ** Reads that call back in any order *)

Ltac compare_keys :=
  repeat (match goal with
          | |- context [Nat.eqb ?x ?y] => destruct (Nat.eqb_spec x y)
          | |- context [Nat.ltb ?x ?y] => destruct (Nat.ltb_spec x y)
          | |- context [isArrayIndex ?x] => destruct (isArrayIndex x) eqn:?
          end; simpl).

(** Two entries may be set in either order when one of the names is an
    array index. *)
Lemma setRules_comm a ta b tb m :
  a <> b -> isArrayIndex a || isArrayIndex b = true ->
  setRules a ta (setRules b tb m) = setRules b tb (setRules a ta m).
Proof.
  intros N I. induction m as [|[k t] m IH]; simpl; compare_keys;
    try discriminate; try lia; try congruence; try reflexivity.
Qed.

Lemma loadedMap_permutation stored ids ids' m :
  forallb isArrayIndex ids = true ->
  ids ≡ₚ ids' -> loadedMap stored ids m = loadedMap stored ids' m.
Proof.
  intros F P. revert m F.
  induction P as [|x l l' P IH|x y l|l l' l'' P1 IH1 P2 IH2]; intros m F.
  - reflexivity.
  - simpl in *. apply andb_prop in F as [_ F]. by apply IH.
  - simpl in *. apply andb_prop in F as [Iy F]. f_equal.
    destruct (decide (x = y)) as [->|N]; [reflexivity|].
    destruct (stored !! Some y), (stored !! Some x); try reflexivity.
    apply setRules_comm; [done|]. by rewrite Iy, orb_true_r.
  - rewrite IH1 by done. apply IH2. rewrite forallb_forall in *. intros x Hx.
    apply F. apply list_elem_of_In. rewrite P1. by apply list_elem_of_In.
Qed.

Lemma memb_elem_of id l : memb id l = true <-> id ∈ l.
Proof.
  unfold memb. rewrite existsb_exists. split.
  - intros (x & I & E). apply Nat.eqb_eq in E. subst. by apply list_elem_of_In.
  - intros I. exists id. split; [by apply list_elem_of_In|apply Nat.eqb_refl].
Qed.

Lemma removeFirst_permutation id l : id ∈ l -> l ≡ₚ id :: removeFirst id l.
Proof.
  induction l as [|y l IH]; intros I; [by apply elem_of_nil in I|]. simpl.
  destruct (Nat.eqb_spec id y) as [->|N]; [reflexivity|].
  apply elem_of_cons in I as [I|I]; [congruence|].
  rewrite (IH I) at 1. apply perm_swap.
Qed.

Lemma removeFirst_indices id l :
  forallb isArrayIndex l = true -> forallb isArrayIndex (removeFirst id l) = true.
Proof.
  induction l as [|y l IH]; simpl; [done|]. intros F. apply andb_prop in F as [Iy F].
  destruct (Nat.eqb id y); [exact F|]. simpl. by rewrite Iy, IH.
Qed.

(** X18: the reads of a rebuild may call back in any order.  When the
    identifiers read are array indices (below 2^32 - 1), then whatever the
    order, the engine is started when the last of them has called back, not
    before, and on the same rule map, enumerated in the same order: the one
    that reading in the order of the requests gives. *)
Theorem reads_complete_in_any_order cb before pending order rulesFilterMap s :
  forallb isArrayIndex pending = true ->
  order ≡ₚ pending -> pending <> [] ->
  tasks s = before ++ [TLoad cb pending rulesFilterMap] ->
  run (List.map (OpReadDone (length before)) order) s
    = Some (onFiltersLoadedFromStorage (loadedMap (store s) pending rulesFilterMap) cb
              (with_tasks before s)) /\
  forall k, k < length order ->
    exists s1, run (List.map (OpReadDone (length before)) (take k order)) s = Some s1 /\
               trace s1 = trace s /\ compiling (tasks s1) = compiling (tasks s).
Proof.
  revert pending rulesFilterMap s.
  induction order as [|id rest IH]; intros pending m s F P N Ht.
  { apply Permutation_nil in P. by destruct N. }
  assert (Hi : tasks s !! length before = Some (TLoad cb pending m)).
  { rewrite Ht. by apply list_lookup_middle. }
  assert (M : id ∈ pending).
  { rewrite <- P. apply list_elem_of_here. }
  assert (Hd : delete (length before) (tasks s) = before).
  { rewrite Ht, delete_middle. apply app_nil_r. }
  pose proof (removeFirst_permutation id pending M) as Q.
  assert (PR : rest ≡ₚ removeFirst id pending).
  { apply (Permutation_cons_inv (a := id)). by rewrite P. }
  assert (St : step (OpReadDone (length before) id) s
               = Some (rulesLoaded cb pending m id (without (Some (length before)) s))).
  { apply step_read_done; [exact Hi|]. by apply memb_elem_of. }
  assert (L : loadedMap (store s) pending m
              = loadedMap (store s) (removeFirst id pending) (loadedMap (store s) [id] m)).
  { rewrite (loadedMap_permutation _ _ _ m F Q). reflexivity. }
  pose proof (removeFirst_indices id pending F) as FR.
  destruct (removeFirst id pending) as [|p ps] eqn:RF.
  - apply Permutation_nil_r in PR. subst rest. split.
    + cbn [List.map run]. rewrite St, rulesLoaded_last by exact RF. f_equal.
      rewrite L. simpl. rewrite Hd. reflexivity.
    + intros k K. simpl in K. assert (k = 0) as -> by lia. exists s. by simpl.
  - set (s1 := spawn (TLoad cb (p :: ps) (loadedMap (store s) [id] m))
                 (without (Some (length before)) s)).
    assert (R1 : rulesLoaded cb pending m id (without (Some (length before)) s) = s1).
    { rewrite rulesLoaded_more by (by rewrite RF). rewrite RF. reflexivity. }
    destruct (IH (p :: ps) (loadedMap (store s) [id] m) s1 FR PR) as [I1 I2];
      [discriminate|unfold s1; simpl; by rewrite Hd|].
    split.
    + cbn [List.map run]. rewrite St, R1, I1, L. reflexivity.
    + intros [|k] K.
      * exists s. by simpl.
      * destruct (I2 k) as (s2 & R2 & T2 & C2); [simpl in K; lia|].
        exists s2. cbn [take List.map run]. rewrite St, R1, R2.
        split; [reflexivity|]. split; [exact T2|].
        rewrite C2. unfold s1, spawn. simpl. rewrite Hd, Ht, !compiling_app. reflexivity.
Qed.

(** ** The announcement of saved user rules *)

(** X19: with a numeric [USER_FILTER_ID] the write callback of a save
    announces nothing: the key is a property name, a string, and [===]
    with a number fails.  The turn stores the lines and resolves the
    deferred; the trace, the batchers and the handle stay as they are, so
    the save of the user's rules records no UPDATE_USER_FILTER_RULES event
    and, by itself, leads to no rebuild. *)
Theorem numeric_user_filter_id_is_never_announced n i dfd key converted s :
  USER_FILTER_ID = IdNumber n ->
  tasks s !! i = Some (TSaveWrite dfd key converted) ->
  exists s',
    step (OpDone i) s = Some s' /\
    trace s' = trace s /\ batchers s' = batchers s /\
    store s' = <[key := converted]> (store s) /\
    tasks s' = List.map (resolveIn dfd) (delete i (tasks s)) /\
    requestFilter s' = requestFilter s.
Proof.
  intros U T. eexists. split; [by apply step_save_write|].
  unfold rulesWritten, strictEq. rewrite U. simpl. repeat split.
Qed.

(** X20: with a [USER_FILTER_ID] that is a string, the write callback of a
    save of the user filter announces UPDATE_USER_FILTER_RULES with the rule
    count of the live handle, and a save of any other filter announces
    nothing.  The batcher records the announcement and arms its timer; the
    argument of the event is the request filter info, which has no
    [filterId], so the batch that holds only this event reads and writes no
    slot and asks for a rebuild at once. *)
Theorem string_user_filter_id_is_announced n i dfd key converted s b batcher :
  USER_FILTER_ID = IdString n ->
  tasks s !! i = Some (TSaveWrite dfd key converted) ->
  batchers s !! b = Some batcher ->
  let announced := {| event := UPDATE_USER_FILTER_RULES;
                      ev_filter := AInfo (getRulesCount (requestFilter s));
                      rules := []; group := ANone |} in
  exists s',
    step (OpDone i) s = Some s' /\
    store s' = <[key := converted]> (store s) /\
    (key <> Some n -> trace s' = trace s /\ batchers s' = batchers s) /\
    (key = Some n ->
     trace s' = trace s ++ [ENotify UPDATE_USER_FILTER_RULES
                              (AInfo (getRulesCount (requestFilter s)))] /\
     batchers s' !! b
       = Some {| filterEventsHistory := filterEventsHistory batcher ++ [announced];
                 onFilterChangeTimeout := true |} /\
     (filterEventsHistory batcher = [] ->
      exists s2, step (OpTimer b) s' = Some s2 /\
                 tasks s2 = tasks s' ++ [TThen []] /\
                 trace s2 = trace s' /\ store s2 = store s')).
Proof.
  intros U T B announced. eexists. split; [by apply step_save_write|].
  unfold rulesWritten, strictEq. rewrite U.
  set (s1 := resolve dfd _).
  destruct key as [k|]; [destruct (Nat.eqb_spec k n) as [E|E]|].
  - subst k. split; [reflexivity|]. split; [intros H; by destruct H|]. intros _.
    split; [reflexivity|].
    assert (B1 : batchers (notifyListeners UPDATE_USER_FILTER_RULES
                             (AInfo (getRequestFilterInfo s1)) [] s1) !! b
                 = Some {| filterEventsHistory := filterEventsHistory batcher ++ [announced];
                           onFilterChangeTimeout := true |}).
    { unfold notifyListeners. simpl. rewrite lookup_map, B. reflexivity. }
    split; [exact B1|]. intros H.
    eexists. split; [eapply step_timer; [exact B1|reflexivity]|].
    rewrite (processEventsHistory_eq _ _ _ B1). simpl. rewrite H. simpl.
    rewrite !app_nil_r. repeat split.
  - split; [reflexivity|]. split; [intros _; split; reflexivity|]. intros [= H]. by destruct E.
  - split; [reflexivity|]. split; [intros _; split; reflexivity|]. intros H. discriminate.
Qed.

(** ** What a batch reads *)

Lemma saveReads_in obj key :
  In (EStorageRead key) (saveReads obj)
  <-> exists events, In (key, events) obj /\ existsb isSaveRulesToStorageEvent events = true.
Proof.
  induction obj as [|[k evs] obj IH]; simpl.
  - split; [tauto|]. intros (events & [] & _).
  - destruct (existsb isSaveRulesToStorageEvent evs) eqn:E; simpl; rewrite IH.
    + split.
      * intros [[= ->]|(events & I & X)]; [exists evs; auto|exists events; auto].
      * intros (events & [[= -> ->]|I] & X); [by left|right; eauto].
    + split.
      * intros (events & I & X). eauto.
      * intros (events & [[= -> ->]|I] & X); [congruence|eauto].
Qed.

Lemma enumerated_lookup obj key events :
  enumerated obj -> (In (key, events) obj <-> getEvents key obj = Some events).
Proof.
  unfold enumerated, getEvents. induction obj as [|[k evs] obj IH]; intros S; simpl.
  - split; [tauto|discriminate].
  - apply StronglySorted_inv in S as [S1 S2]. destruct (decide (k = key)) as [->|N].
    + rewrite bool_decide_eq_true_2 by reflexivity. simpl. split.
      * intros [[= ->]|I]; [reflexivity|].
        eapply Forall_forall in S2; [|apply list_elem_of_In; exact I].
        simpl in S2. by destruct S2.
      * intros [= ->]. by left.
    + rewrite bool_decide_eq_false_2 by exact N. rewrite <- (IH S1).
      split; [intros [[= -> _]|I]; [by destruct N|exact I]|by right].
Qed.

Lemma saveReads_storage obj : storageEffects (saveReads obj) = saveReads obj.
Proof.
  induction obj as [|[k evs] obj IH]; [done|]. simpl.
  destruct (existsb _ _); [|exact IH]. unfold storageEffects in *. simpl. by rewrite IH.
Qed.

(** X21: when the timer fires, the store is read for exactly the filters
    that have, in the batch, an event to save (rules added, removed or
    replaced): a filter whose events only toggle it is not read, and group
    events, which name no filter, are read under no key.  Nothing is
    written in that turn. *)
Theorem batch_reads_edited_filters_only b s batcher key :
  batchers s !! b = Some batcher ->
  (In (EStorageRead key) (saveReads (eventsByFilter (filterEventsHistory batcher)))
   <-> existsb isSaveRulesToStorageEvent (eventsOf key (filterEventsHistory batcher)) = true) /\
  storageEffects (trace (processEventsHistory b s))
    = storageEffects (trace s) ++ saveReads (eventsByFilter (filterEventsHistory batcher)) /\
  store (processEventsHistory b s) = store s.
Proof.
  intros B. split; [|split].
  - rewrite saveReads_in. split.
    + intros (events & I & X).
      apply (enumerated_lookup _ _ _ (eventsByFilter_enumerated _)) in I.
      rewrite eventsByFilter_get in I.
      destruct (eventsOf key (filterEventsHistory batcher)); [discriminate|]. congruence.
    + intros X. exists (eventsOf key (filterEventsHistory batcher)). split; [|exact X].
      apply (enumerated_lookup _ _ _ (eventsByFilter_enumerated _)).
      rewrite eventsByFilter_get.
      pose proof (eventsOf_nonempty _ _ X) as N.
      by destruct (eventsOf key (filterEventsHistory batcher)).
  - rewrite (processEventsHistory_eq _ _ _ B). simpl.
    destruct (existsb _ _); simpl.
    + by rewrite storageEffects_app, saveReads_storage.
    + unfold notifyListeners, emit. simpl.
      rewrite !storageEffects_app, saveReads_storage. simpl. by rewrite app_nil_r.
  - destruct (processEventsHistory_delta b s) as (es & new & D & _).
    by destruct D as (_ & _ & _ & _ & _ & _ & St).
Qed.

(** ** Edits of one filter *)

Lemma applyEvents_app e1 e2 stored :
  applyEvents (e1 ++ e2) stored = applyEvents e2 (applyEvents e1 stored).
Proof. revert stored. induction e1 as [|e e1 IH]; intros stored; [done|]. simpl. apply IH. Qed.

Lemma removeAll_absent content r : ~ In r (removeAll content (Some r)).
Proof.
  simpl. intros I. apply filter_In in I as [_ I]. by rewrite String.eqb_refl in I.
Qed.

Lemma applyEventsInPlace_app e1 e2 l h next :
  applyEventsInPlace (e1 ++ e2) l h next
    = let '(l1, h1, next1) := applyEventsInPlace e1 l h next in
      applyEventsInPlace e2 l1 h1 next1.
Proof.
  revert l h next. induction e1 as [|ev e1 IH]; intros l h next; [done|].
  cbn [app applyEventsInPlace]. destruct l; destruct (h_event ev); apply IH.
Qed.

(** Additions only create arrays: the arrays that exist are as before. *)
Lemma additions_append e1 a h next :
  Forall (fun e => h_event e = ADD_RULES) e1 -> Forall (fun e => h_rules e < next) e1 ->
  loadedLines (applyEventsInPlace e1 (Some a) h next)
    = Some (elements h a ++ List.concat (List.map (fun e => elements h (h_rules e)) e1)).
Proof.
  intros A. revert a h next. induction A as [|ev e1 E A IH]; intros a h next F.
  - simpl. by rewrite app_nil_r.
  - apply Forall_cons in F as [Fev F]. cbn [applyEventsInPlace]. rewrite E. rewrite IH.
    + rewrite elements_insert. cbn [List.map List.concat]. rewrite <- app_assoc. do 4 f_equal.
      apply map_ext_in. intros x I. apply elements_insert_ne.
      eapply Forall_forall in F; [|apply list_elem_of_In; exact I]. simpl in F. lia.
    + eapply Forall_impl; [exact F|]. simpl. intros x Hx. lia.
Qed.

(** X22: the edits of a batch, as the loop of
    [processSaveFilterRulesToStorageEvents] applies them to arrays in
    place.  The loop over a batch is the loop over a first part of it and
    then over the rest, on the arrays as the first part leaves them.
    Additions only append, in order, also when events share an array.
    After a removal no line is left that equals the first element that the
    array of the removal has when the loop reaches it.  When no event
    carries the array of an earlier replacement, nor the array that was
    read from the store, a replacement makes the stored lines and every
    earlier event of the batch irrelevant. *)
Theorem edits_compose e1 e2 l h next :
  applyEventsInPlace (e1 ++ e2) l h next
    = (let '(l1, h1, next1) := applyEventsInPlace e1 l h next in
       applyEventsInPlace e2 l1 h1 next1) /\
  (Forall (fun e => h_event e = ADD_RULES) e1 -> Forall (fun e => h_rules e < next) e1 ->
   e1 <> [] ->
   loadedLines (applyEventsInPlace e1 l h next)
     = Some (default [] (elements h <$> l)
               ++ List.concat (List.map (fun e => elements h (h_rules e)) e1))) /\
  (forall remove rule content,
     h_event remove = REMOVE_RULE ->
     head (elements (snd (fst (applyEventsInPlace e1 l h next))) (h_rules remove)) = Some rule ->
     loadedLines (applyEventsInPlace (e1 ++ [remove]) l h next) = Some content ->
     ~ In rule content) /\
  (forall replace,
     h_event replace = UPDATE_FILTER_RULES -> ownArrays (e1 ++ replace :: e2) l next ->
     loadedLines (applyEventsInPlace (e1 ++ replace :: e2) l h next)
       = applyEvents (List.map (held h) e2) (Some (elements h (h_rules replace)))).
Proof.
  split; [apply applyEventsInPlace_app|]. split; [|split].
  - intros A F N. destruct l as [a|]; [by apply additions_append|].
    destruct e1 as [|ev e1]; [done|].
    apply Forall_cons in A as [E A]. apply Forall_cons in F as [Fev F].
    cbn [applyEventsInPlace]. rewrite E. rewrite additions_append; [|exact A|].
    + rewrite elements_insert, elements_insert, elements_insert_ne by lia.
      cbn [fmap option_fmap option_map default List.map List.concat app]. do 3 f_equal.
      apply map_ext_in. intros x I.
      eapply Forall_forall in F; [|apply list_elem_of_In; exact I]. simpl in F.
      rewrite !elements_insert_ne by lia. reflexivity.
    + eapply Forall_impl; [exact F|]. simpl. intros x Hx. lia.
  - intros remove rule content R H. rewrite applyEventsInPlace_app.
    destruct (applyEventsInPlace e1 l h next) as [[l1 h1] next1]. simpl in H.
    cbn [applyEventsInPlace]. rewrite R. destruct l1 as [a|]; unfold loadedLines; simpl.
    + rewrite elements_insert, H. intros [= <-]. apply removeAll_absent.
    + rewrite !elements_insert. intros [= <-].
      destruct (head (elements (<[next1:=[]]> h1) (h_rules remove))); simpl; tauto.
  - intros replace R O. rewrite (applyEventsInPlace_own _ _ _ _ O), List.map_app, applyEvents_app.
    simpl. by rewrite R.
Qed.

(** ** Saves in flight *)

Lemma reachable_savesLinked s : reachable s -> savesLinked (tasks s) = true.
Proof.
  revert s. apply (reachable_invariant (fun s => savesLinked (tasks s) = true)).
  - intros. reflexivity.
  - intros o s0 s' H. by apply (step_keeps o s0 s' H).
Qed.

(** X23: a save never fails for want of text.  In every state the service
    can reach, a save that is reading has an event to save (rules added,
    removed or replaced); so when the read calls back there are lines to
    write, also when the slot held no text, and the turn converts them
    once and starts the write: [loadedRulesText.length] never throws. *)
Theorem save_never_throws s i dfd key events :
  reachable s -> tasks s !! i = Some (TSaveRead dfd key events) ->
  existsb isSaveRulesToStorageEvent events = true /\
  exists content,
    applyEvents events (store s !! key) = Some content /\
    step (OpDone i) s
      = Some (spawn (TSaveWrite dfd key (split (convertRules (join content))))
                (emit (EStorageWrite key (split (convertRules (join content))))
                   (emit (EConvertRules (join content)) (without (Some i) s)))).
Proof.
  intros R T. pose proof (reachable_savesLinked s R) as K.
  apply savesLinked_spec in K as [K _]. rewrite forallb_forall in K.
  specialize (K _ (proj1 (list_elem_of_In _ _) (list_elem_of_lookup_2 _ _ _ T))).
  simpl in K. split; [exact K|].
  assert (N : events <> []) by (intros ->; discriminate).
  exists (specApplyEvents events (store s !! key)).
  split; [by apply applyEvents_spec|].
  rewrite (step_save_read _ _ _ _ _ T). f_equal.
  exact (saveRulesLoaded_ok dfd key events (without (Some i) s) N).
Qed.

(** X24: a rebuild that waits for the saves of its batch is never stuck.
    In every state the service can reach, each deferred that a
    [Promise.all] in flight waits for belongs to a save that is still in
    flight and whose callback can run; when the write of that save calls
    back, nothing waits for the deferred any more.  The [then] itself runs
    [createRequestFilter] as soon as no deferred is left, and not before. *)
Theorem waiting_rebuild_is_not_stuck s i dfds :
  reachable s -> tasks s !! i = Some (TThen dfds) ->
  step (OpDone i) s
    = match dfds with
      | [] => Some (stateOf (createRequestFilter None (without (Some i) s)))
      | _ :: _ => None
      end /\
  forall d, In d dfds ->
    exists j t s',
      tasks s !! j = Some t /\ dfdOf t = Some d /\ step (OpDone j) s = Some s' /\
      (forall key converted, t = TSaveWrite d key converted -> waiting d (tasks s') = false).
Proof.
  intros R T. split; [by apply then_fires|]. intros d I.
  pose proof (reachable_savesLinked s R) as K. apply savesLinked_spec in K as [_ K].
  assert (W : waiting d (tasks s) = true).
  { unfold waiting. apply existsb_exists. exists (TThen dfds).
    split; [exact (proj1 (list_elem_of_In _ _) (list_elem_of_lookup_2 _ _ _ T))|].
    unfold memb. apply existsb_exists. exists d. split; [exact I|apply Nat.eqb_refl]. }
  apply K in W. unfold owed in W. apply existsb_exists in W as (t & It & D).
  apply bool_decide_eq_true in D.
  apply list_elem_of_In, list_elem_of_lookup_1 in It as [j J].
  exists j, t. destruct t; try discriminate D; injection D as ->.
  - eexists. split; [exact J|]. split; [reflexivity|].
    split; [by apply step_save_read|]. intros k c E. discriminate.
  - eexists. split; [exact J|]. split; [reflexivity|].
    split; [by apply step_save_write|]. intros k c _.
    destruct (rulesWritten_summary d key converted (without (Some j) s)) as (es & _ & _ & Ts & _).
    rewrite Ts. apply waiting_resolved.
Qed.

(** ** A service without change listener *)

Lemma owed_untaken s s' :
  calm 0 s s' -> applicationInitialized s = true ->
  applicationInitialized s' = true /\ owedListeners s' <= owedListeners s.
Proof. intros (_ & _ & I & _ & _ & O & _) H. split; [congruence|lia]. Qed.

Lemma owed_taken k i t s s' :
  tasks s !! i = Some t -> k <= installsOf t -> calm k (without (Some i) s) s' ->
  applicationInitialized s = true ->
  applicationInitialized s' = true /\ owedListeners s' <= owedListeners s.
Proof.
  intros T L (_ & _ & I & _ & _ & O & _) H. pose proof (without_owed _ _ _ T) as W.
  simpl in *. split; [congruence|lia].
Qed.

(** Once the service is initialized, no turn adds to the change listeners
    that are installed or still to be installed. *)
Lemma step_owed o s s' :
  step o s = Some s' -> applicationInitialized s = true ->
  applicationInitialized s' = true /\ owedListeners s' <= owedListeners s.
Proof.
  intros H A. destruct o; simpl in H.
  - injection H as <-. unfold start. destruct (applicationRunning s); simpl.
    + exact (owed_untaken _ _ (invoke_calm (CbUser callback) s) A).
    + rewrite A. simpl.
      destruct (createRequestFilter_calm (Some (CbUser callback))
                  (with_applicationRunning true s)) as (_ & _ & I & _ & _ & O & _).
      simpl in *. unfold owedListeners in *. simpl in *. split; [congruence|lia].
  - injection H as <-. exact (owed_untaken _ _ (stop_calm s) A).
  - injection H as <-. exact (owed_untaken _ _ (notifyListeners_calm ev a rs s) A).
  - destruct (batchers s !! b) as [batcher|]; [|discriminate].
    destruct (onFilterChangeTimeout batcher); [|discriminate].
    injection H as <-. exact (owed_untaken _ _ (processEventsHistory_calm b s) A).
  - unfold takeTask in H. destruct (tasks s !! i) as [t|] eqn:T; [|discriminate].
    destruct t; try discriminate. injection H as <-.
    apply (owed_taken 1 i _ _ _ T); [simpl; lia| |exact A].
    eapply calm_step; [apply onSubscriptionLoaded_calm| |calm_sum]. simpl. lia.
  - unfold takeTask in H. destruct (tasks s !! i) as [t|] eqn:T; [|discriminate].
    destruct t; try discriminate; try (injection H as <-).
    + apply (owed_taken 0 i _ _ _ T); [simpl; lia| |exact A].
      apply (invoke_calm (CbUser callback)).
    + apply (owed_taken 1 i _ _ _ T); [simpl; lia| |exact A]. apply initRequestFilter_calm.
    + apply (owed_taken 0 i _ _ _ T); [simpl; lia| |exact A]. apply notifyListeners_calm.
    + apply (owed_taken 0 i _ _ _ T); [simpl; lia| |exact A]. apply saveRulesLoaded_calm.
    + apply (owed_taken 0 i _ _ _ T); [simpl; lia| |exact A]. apply rulesWritten_calm.
    + destruct dfds; [|discriminate]. injection H as <-.
      apply (owed_taken 0 i _ _ _ T); [simpl; lia| |exact A].
      apply (createRequestFilter_calm None).
  - unfold takeTask in H. destruct (tasks s !! i) as [t|] eqn:T; [|discriminate].
    destruct t; try discriminate. destruct (memb id pending); [|discriminate].
    injection H as <-.
    apply (owed_taken (cbInstalls callback) i _ _ _ T); [simpl; lia| |exact A].
    apply rulesLoaded_calm.
  - unfold takeTask in H. destruct (tasks s !! i) as [t|] eqn:T; [|discriminate].
    destruct t; try discriminate. destruct (memb id pending); [|discriminate].
    injection H as <-.
    apply (owed_taken 0 i _ _ _ T); [simpl; lia|apply calm_refl|exact A].
  - unfold takeTask in H. destruct (tasks s !! i) as [t|] eqn:T; [|discriminate].
    destruct t; try discriminate. injection H as <-.
    destruct (requestFilterInitialized_budget callback rulesFilterMap newRequestFilter lists
                (with_tasks (delete i (tasks s)) s)) as (_ & B & _ & D & _).
    pose proof (without_owed _ _ _ T) as O. simpl in *. split; [congruence|lia].
  - unfold takeTask in H. destruct (tasks s !! i) as [t|] eqn:T; [|discriminate].
    destruct t; try discriminate. injection H as <-.
    apply (owed_taken 0 i _ _ _ T); [simpl; lia|apply calm_refl|exact A].
  - injection H as <-. split; [exact A|]. unfold owedListeners. simpl. lia.
  - injection H as <-. exact (owed_untaken _ _ (registry_calm fs gs s) A).
Qed.

(** X25: the change listener is never installed late.  Once the service
    is initialized and no installation of the listener is owed any more
    (there is no batcher, and no task in flight ends in
    [addFiltersChangeEventListener]), no sequence of turns installs it: the
    service stays without batcher, so notifications are recorded nowhere
    and no timer can fire.  This is how an initialization is left when its
    first rebuild does not reach STEP 3. *)
Theorem listener_is_never_installed_late ops s s' :
  isInitialized s = true -> owedListeners s = 0 -> run ops s = Some s' ->
  isInitialized s' = true /\ batchers s' = [] /\
  (forall ev a rs, batchers (notifyListeners ev a rs s') = []) /\
  (forall b, step (OpTimer b) s' = None).
Proof.
  unfold isInitialized. intros A Z R.
  assert (K : applicationInitialized s' = true /\ owedListeners s' <= owedListeners s).
  { apply (run_invariant (fun x => applicationInitialized x = true
                                   /\ owedListeners x <= owedListeners s))
      with (ops := ops) (s := s); [|exact R|split; [exact A|lia]].
    intros o s0 s1 H [A0 O0]. destruct (step_owed o s0 s1 H A0). split; [assumption|lia]. }
  destruct K as [A' O']. rewrite Z in O'. unfold owedListeners in O'.
  assert (B : batchers s' = []).
  { destruct (batchers s'); [reflexivity|simpl in O'; lia]. }
  split; [exact A'|]. split; [exact B|]. split.
  - intros ev a rs. unfold notifyListeners. simpl. by rewrite B.
  - intros b. simpl. by rewrite B.
Qed.

(** ** A rebuild from request to publication *)

Lemma requestFilterInitialized_trace cb rulesFilterMap h lists s :
  exists rest,
    trace (requestFilterInitialized cb rulesFilterMap h lists s)
      = trace s
          ++ match cb with
             | Some (CbUser id) | Some (CbInit id) => [ECallback id]
             | None => []
             end
          ++ ENotify REQUEST_FILTER_UPDATED (AInfo (engineRulesCount lists)) :: rest.
Proof.
  unfold requestFilterInitialized.
  set (s3 := notifyListeners _ _ _ _).
  assert (T3 : trace s3
               = trace s
                   ++ match cb with
                      | Some (CbUser id) | Some (CbInit id) => [ECallback id]
                      | None => []
                      end
                   ++ [ENotify REQUEST_FILTER_UPDATED (AInfo (engineRulesCount lists))]).
  { unfold s3, notifyListeners, emit, getRequestFilterInfo.
    destruct cb as [[id|id]|]; simpl; rewrite <- ?app_assoc; reflexivity. }
  clearbody s3.
  destruct (isEmptyRulesFilterMap rulesFilterMap); [exists []; exact T3|].
  destruct (_ && _).
  - exists [ECheckFiltersUpdate]. unfold reloadAntiBannerFilters, resetFiltersVersion, emit.
    simpl. rewrite T3, <- !app_assoc. reflexivity.
  - destruct (_ && _); exists []; exact T3.
Qed.

Lemma rebuild_completes cb before ids m0 s0 :
  ids <> [] -> tasks s0 = before ++ [TLoad cb ids m0] ->
  exists s' es,
    run (List.map (OpReadDone (length before)) ids ++ [OpEngineStarted (length before)]) s0
      = Some s' /\
    requestFilter s'
      = {| handle := nextHandle s0;
           getRulesCount := engineRulesCount (ruleLists (loadedMap (store s0) ids m0)) |} /\
    trace s' = trace s0 ++ es /\ compilations es = 1 /\
    In (EStartEngine (ruleLists (loadedMap (store s0) ids m0))) es /\
    In (ENotify REQUEST_FILTER_UPDATED
          (AInfo (engineRulesCount (ruleLists (loadedMap (store s0) ids m0))))) es /\
    (forall id, cb = Some (CbUser id) \/ cb = Some (CbInit id) -> In (ECallback id) es) /\
    tasks s' = before /\ store s' = store s0.
Proof.
  intros N T0.
  pose proof (reads_complete cb before ids m0 s0 N T0) as Rd.
  destruct (onFiltersLoadedFromStorage_summary (loadedMap (store s0) ids m0) cb
              (with_tasks before s0)) as (es1 & Tr1 & Q1 & Ts1 & _ & _ & St1 & _).
  revert Rd Tr1 Ts1 St1.
  generalize (onFiltersLoadedFromStorage (loadedMap (store s0) ids m0) cb
                (with_tasks before s0)).
  intros s1 Rd Tr1 Ts1 St1. simpl in Tr1, Ts1, St1.
  assert (E : tasks s1 !! length before
              = Some (TEngine cb (loadedMap (store s0) ids m0) (nextHandle s0)
                        (ruleLists (loadedMap (store s0) ids m0)))).
  { rewrite Ts1. by apply list_lookup_middle. }
  pose proof (step_engine_started _ _ _ _ _ _ E) as St.
  destruct (requestFilterInitialized_summary cb (loadedMap (store s0) ids m0) (nextHandle s0)
              (ruleLists (loadedMap (store s0) ids m0)) (without (Some (length before)) s1))
    as (es2 & Tr2 & Q2 & Ts2 & F2 & _ & St2 & _).
  destruct (requestFilterInitialized_trace cb (loadedMap (store s0) ids m0) (nextHandle s0)
              (ruleLists (loadedMap (store s0) ids m0)) (without (Some (length before)) s1))
    as (rest & Tr3).
  revert St Tr2 Ts2 F2 St2 Tr3.
  generalize (requestFilterInitialized cb (loadedMap (store s0) ids m0) (nextHandle s0)
                (ruleLists (loadedMap (store s0) ids m0))
                (without (Some (length before)) s1)).
  intros s2 St Tr2 Ts2 F2 St2 Tr3. simpl in Tr2, Ts2, St2, Tr3.
  exists s2, (es1 ++ [EStartEngine (ruleLists (loadedMap (store s0) ids m0))] ++ es2).
  split; [|split; [exact F2|split; [|split; [|split; [|split; [|split; [|split]]]]]]].
  - rewrite run_app, Rd. cbn [run]. by rewrite St.
  - by rewrite Tr2, Tr1, <- !app_assoc.
  - rewrite !compilations_app, (quiet_compilations _ Q1), (quiet_compilations _ Q2).
    reflexivity.
  - apply in_or_app. right. by left.
  - assert (I : In (ENotify REQUEST_FILTER_UPDATED
                      (AInfo (engineRulesCount (ruleLists (loadedMap (store s0) ids m0)))))
                   es2).
    { rewrite Tr2 in Tr3. apply app_inv_head in Tr3. rewrite Tr3.
      apply in_or_app. right. by left. }
    apply in_or_app. right. by right.
  - intros id C. assert (I : In (ECallback id) es2).
    { rewrite Tr2 in Tr3. apply app_inv_head in Tr3. rewrite Tr3.
      apply in_or_app. left. destruct C as [-> | ->]; by left. }
    apply in_or_app. right. by right.
  - rewrite Ts2, Ts1, delete_middle. apply app_nil_r.
  - by rewrite St2, St1.
Qed.

(** X26: a rebuild that is left to run publishes what the store holds.
    Requested while the application is running, with every enabled filter
    in a registered group, the rebuild reads the filters that take part and
    the user filter; when the reads and the engine start have called back,
    a new handle is live whose engine was compiled, once, from the stored
    lines of exactly those filters: one list for each of them whose slot
    holds text, made of its lines joined by line feeds, and no other list.
    The callback has been called and REQUEST_FILTER_UPDATED announces the
    rule count of that engine.  The store and the other tasks in flight are
    as before. *)
Theorem rebuild_publishes_the_stored_rules cb s :
  applicationRunning s = true -> groupsKnown (groups s) (filters s) = true ->
  let ids := participating (groups s) (filters s) ++ [idValue USER_FILTER_ID] in
  exists s' lists,
    run (List.map (OpReadDone (length (tasks s))) ids ++ [OpEngineStarted (length (tasks s))])
        (stateOf (createRequestFilter cb s)) = Some s' /\
    getRequestFilter s'
      = {| handle := nextHandle s; getRulesCount := engineRulesCount lists |} /\
    compilations (trace s') = S (compilations (trace s)) /\
    In (EStartEngine lists) (trace s') /\
    (forall l, In l lists <->
       exists id lines, id ∈ ids /\ store s !! Some id = Some lines /\
         l = {| l_filterId := id; l_rulesText := join lines; l_ignoreCosmetic := false;
                l_ignoreJS := negb (isTrustedFilter id) |}) /\
    NoDup (List.map l_filterId lists) /\
    In (ENotify REQUEST_FILTER_UPDATED (AInfo (engineRulesCount lists))) (trace s') /\
    (forall id, cb = Some (CbUser id) \/ cb = Some (CbInit id) ->
                In (ECallback id) (trace s')) /\
    tasks s' = tasks s /\ store s' = store s.
Proof.
  intros R G ids. rewrite createRequestFilter_running by assumption.
  fold ids. cbn [stateOf].
  assert (N : ids <> []) by (unfold ids; by destruct (participating _ _)).
  destruct (rebuild_completes cb (tasks s) ids []
              (spawn (TLoad cb ids []) (with_trace (trace s ++ readsOf ids) s)) N eq_refl)
    as (s' & es & Rn & F & Tr & C & I1 & I2 & I3 & Ts & St).
  destruct (ruleLists_loaded (store s) ids) as [D L].
  exists s', (ruleLists (loadedMap (store s) ids [])). split; [exact Rn|]. split; [exact F|].
  simpl in Tr. split; [|split; [|split; [exact L|split; [exact D|split; [|split; [|split]]]]]].
  - rewrite Tr, !compilations_app, readsOf_not_compile, C. lia.
  - rewrite Tr. apply in_or_app. by right.
  - rewrite Tr. apply in_or_app. by right.
  - intros id H. rewrite Tr. apply in_or_app. right. by apply I3.
  - exact Ts.
  - exact St.
Qed.

(** ** A batch from the timer to the last write *)


Lemma writeTasks_length dfd saved : length (writeTasks dfd saved) = length saved.
Proof.
  revert dfd. induction saved as [|[key lines] rest IH]; intros dfd; simpl; [done|].
  by rewrite IH.
Qed.










End Coverage.

(** * The properties on the concrete installation *)

#[local] Existing Instance exampleCollaborators.


(** The scenario of the specification: filter 1 with two rules in an
    enabled group and an empty user filter compile to two rules; removing
    one rule persists the other. *)
Example booted_rule_count : getRulesCount (getRequestFilter booted) = 2.
Proof. vm_compute. reflexivity. Qed.

Example removed_rule_is_persisted :
  (fun s => store s !! Some 1)
    <$> runExample [OpNotify REMOVE_RULE (AFilter 1) ["a.com##.ad"]; OpTimer 0;
                    OpDone 0; OpDone 0] booted
  = Some (Some ["b.com##.ad"]).
Proof. vm_compute. reflexivity. Qed.

Lemma booted_reachable : reachable booted.
Proof.
  exists bootOps, [adsFilter; privacyFilter], [adsGroup; privacyGroup], ∅, ∅, ∅,
    (<[Some 2 := ["c.com##.ad"]]> {[ Some 1 := adsRules ]}).
  vm_compute. reflexivity.
Defined.

(** C1, as stated, fails: with one rebuild in flight, two more requests
    put three rebuilds in flight, three engines are started side by side,
    and three compilations are added, not two. *)
Lemma two_requests_during_rebuild_compile_twice :
  loading (tasks rebuilding) = 1 /\
  runExample twoMoreRequests rebuilding = Some threeRebuilds /\
  loading (tasks threeRebuilds) = 3 /\
  runExample allReads threeRebuilds = Some threeCompiling /\
  compiling (tasks threeCompiling) = 3 /\
  runExample allEngineStarts threeCompiling = Some threeCompiled /\
  compilations (trace threeCompiled) = compilations (trace booted) + 3.
Proof. vm_compute. repeat split; reflexivity. Qed.

Lemma every_rebuild_request_compiles_witness :
  applicationRunning threeRebuilds = true /\
  groupsKnown (groups threeRebuilds) (filters threeRebuilds) = true /\
  forallb isRebuildOp (allReads ++ allEngineStarts) = true /\
  run (allReads ++ allEngineStarts) threeRebuilds = Some threeCompiled /\
  compilations (trace threeCompiled) + loading (tasks threeCompiled)
    = compilations (trace threeRebuilds) + loading (tasks threeRebuilds).
Proof.
  assert (applicationRunning threeRebuilds = true) as R by (vm_compute; reflexivity).
  assert (groupsKnown (groups threeRebuilds) (filters threeRebuilds) = true) as G
    by (vm_compute; reflexivity).
  assert (forallb isRebuildOp (allReads ++ allEngineStarts) = true) as O
    by (vm_compute; reflexivity).
  assert (run (allReads ++ allEngineStarts) threeRebuilds = Some threeCompiled) as H
    by (vm_compute; reflexivity).
  repeat (split; [assumption|]).
  exact (proj2 (every_rebuild_request_compiles None None threeRebuilds _ _ R G O H)).
Defined.






Lemma start_while_running_only_calls_back_witness :
  reachable booted /\ applicationRunning booted = true /\
  run [OpStop; OpStart noInstallHook 8] booted = Some restarted /\
  start noInstallHook 9 booted = Normal (emit (ECallback 9) booted) /\
  initializations (trace restarted) = 1.
Proof.
  assert (applicationRunning booted = true) as R by (vm_compute; reflexivity).
  assert (run [OpStop; OpStart noInstallHook 8] booted = Some restarted) as H
    by (vm_compute; reflexivity).
  split; [exact booted_reachable|]. split; [exact R|]. split; [exact H|].
  destruct (start_while_running_only_calls_back noInstallHook 9 noInstallHook 10 booted _ _
              booted_reachable R H) as (H1 & _ & _ & H4).
  split; [exact H1 | exact H4].
Defined.

Lemma stop_fail_closed_witness :
  reachable booted /\
  getRulesCount (getRequestFilter booted) = 2 /\
  getRulesCount (getRequestFilter (stop booted)) = 0 /\
  handle (getRequestFilter (stop booted)) <> handle (getRequestFilter booted).
Proof.
  split; [exact booted_reachable|]. split; [vm_compute; reflexivity|].
  destruct (stop_fail_closed booted booted_reachable) as (_ & H0 & Hh & _).
  split; [exact H0 | exact Hh].
Defined.


Lemma rebuild_failure_keeps_handle_witness :
  isFailure (OpReadFailed 0 1) = true /\
  step (OpReadFailed 0 1) rebuilding = Some (without (Some 0) rebuilding) /\
  step (OpEngineStarted 0) compilingOnce = Some publishedOnce /\
  getRequestFilter (without (Some 0) rebuilding) = getRequestFilter rebuilding /\
  trace (without (Some 0) rebuilding) = trace rebuilding.
Proof.
  assert (step (OpReadFailed 0 1) rebuilding = Some (without (Some 0) rebuilding)) as H
    by (vm_compute; reflexivity).
  assert (step (OpEngineStarted 0) compilingOnce = Some publishedOnce) as H2
    by (vm_compute; reflexivity).
  split; [reflexivity|]. split; [exact H|]. split; [exact H2|].
  destruct (rebuild_failure_keeps_handle (OpReadFailed 0 1) rebuilding _
              (OpEngineStarted 0) compilingOnce publishedOnce eq_refl H H2)
    as (_ & Hr & Ht & _).
  split; [exact Hr | exact Ht].
Defined.

Lemma stopped_engine_is_replaced_by_rebuild_in_flight :
  reachable (stop compilingOnce) /\
  isRunning (stop compilingOnce) = false /\
  getRulesCount (getRequestFilter (stop compilingOnce)) = 0 /\
  exists s', step (OpEngineStarted 0) (stop compilingOnce) = Some s' /\
             isRunning s' = false /\
             getRequestFilter s' = {| handle := 2; getRulesCount := 2 |}.
Proof.
  split.
  - exists (bootOps ++ firstRequest ++ [OpReadDone 0 1; OpReadDone 0 0; OpStop]),
      [adsFilter; privacyFilter], [adsGroup; privacyGroup], ∅, ∅, ∅,
      (<[Some 2 := ["c.com##.ad"]]> {[ Some 1 := adsRules ]}).
    vm_compute. reflexivity.
  - split; [vm_compute; reflexivity|]. split; [vm_compute; reflexivity|].
    eexists. split; [vm_compute; reflexivity|]. split; vm_compute; reflexivity.
Qed.

Lemma createRequestFilter_stopped_is_guarded_witness :
  applicationRunning stopped = false /\
  forallb (fun o => negb (isStart o || isStop o)) lateTrigger = true /\
  run lateTrigger stopped = Some afterLateTrigger /\
  noRebuild (tasks stopped) = true /\
  createRequestFilter (Some (CbUser 3)) stopped
    = Normal (invokeIfFunction (Some (CbUser 3)) stopped) /\
  loading (tasks afterLateTrigger) <= loading (tasks stopped) /\
  getRequestFilter afterLateTrigger = getRequestFilter stopped.
Proof.
  assert (applicationRunning stopped = false) as R by (vm_compute; reflexivity).
  assert (noRebuild (tasks stopped) = true) as N by (vm_compute; reflexivity).
  assert (forallb (fun o => negb (isStart o || isStop o)) lateTrigger = true) as O
    by (vm_compute; reflexivity).
  assert (run lateTrigger stopped = Some afterLateTrigger) as H by (vm_compute; reflexivity).
  repeat (split; [assumption|]).
  destruct (createRequestFilter_stopped_is_guarded (Some (CbUser 3)) stopped _ _ R O H)
    as (H1 & _ & _ & _ & _ & _ & _ & H8 & _ & _ & _ & H12).
  split; [exact H1|]. split; [exact H8|]. exact (proj1 (proj2 (H12 N))).
Defined.

(** * The further properties on the concrete installation *)

Lemma edited_reachable : reachable edited.
Proof.
  apply (reachable_run editAds booted); [exact booted_reachable|].
  vm_compute. reflexivity.
Defined.


Lemma timer_armed_iff_events_pending_witness :
  reachable edited /\ batchers edited !! 0 = Some editsOfAds /\
  (onFilterChangeTimeout editsOfAds = true <-> filterEventsHistory editsOfAds <> []) /\
  step (OpTimer 0) edited = Some editing.
Proof.
  assert (batchers edited !! 0 = Some editsOfAds) as Hb by (vm_compute; reflexivity).
  split; [exact edited_reachable|]. split; [exact Hb|].
  destruct (timer_armed_iff_events_pending edited 0 editsOfAds edited_reachable Hb)
    as (A & _).
  split; [exact A|]. vm_compute. reflexivity.
Defined.

Lemma burst_is_one_batch_witness :
  batchers booted !! 0 = Some freshBatcher /\
  flat_map recorded editBurst <> [] /\
  exists s1, run (List.map notifyOp editBurst) booted = Some s1 /\
             batchers s1 !! 0 = Some editsOfAds /\
             run [OpTimer 0; OpTimer 0] s1 = None.
Proof.
  assert (batchers booted !! 0 = Some freshBatcher) as Hb by (vm_compute; reflexivity).
  assert (flat_map recorded editBurst <> []) as Hn by (vm_compute; discriminate).
  split; [exact Hb|]. split; [exact Hn|].
  destruct (burst_is_one_batch editBurst booted 0 freshBatcher Hb Hn)
    as (s1 & R & B & _ & _ & _ & _ & _ & _ & _ & N).
  exists s1. split; [exact R|]. split; [exact B|exact N].
Defined.

Lemma change_listener_installed_at_most_once_witness :
  reachable booted /\ length (batchers booted) <= 1.
Proof.
  split; [exact booted_reachable|].
  exact (proj1 (change_listener_installed_at_most_once booted booted_reachable)).
Defined.

Lemma initialization_time_is_set_once_witness :
  requestFilterInitTime bootedLate <> 0 /\
  run restartOps bootedLate = Some restartedLate /\
  now restartedLate = 12 /\
  getRequestFilterInitTime restartedLate = getRequestFilterInitTime bootedLate.
Proof.
  assert (requestFilterInitTime bootedLate <> 0) as N by (vm_compute; discriminate).
  assert (run restartOps bootedLate = Some restartedLate) as R by (vm_compute; reflexivity).
  split; [exact N|]. split; [exact R|]. split; [vm_compute; reflexivity|].
  exact (initialization_time_is_set_once restartOps bootedLate restartedLate N R).
Defined.


Lemma filter_is_installed_once_witness :
  getFilterById 3 catalogue = Some optionalFilter /\
  installed optionalFilter = false /\
  addAntiBannerFilter 3 catalogue = AddedCallback true (onFilterLoaded 3 true catalogue) /\
  addAntiBannerFilter 3 (onFilterLoaded 3 true catalogue)
    = AddedCallback true (onFilterLoaded 3 true catalogue).
Proof.
  assert (getFilterById 3 catalogue = Some optionalFilter) as G by (vm_compute; reflexivity).
  assert (installed optionalFilter = false) as I by reflexivity.
  split; [exact G|]. split; [exact I|].
  destruct (filter_is_installed_once 3 optionalFilter catalogue G I) as (A & _ & _ & B).
  split; [exact A|exact B].
Defined.

Lemma store_is_written_by_saves_only_witness :
  step (OpDone 1) savingRead
    = Some (rulesWritten 0 (Some 1) ["d.com##.ad"] (without (Some 1) savingRead)) /\
  (store (rulesWritten 0 (Some 1) ["d.com##.ad"] (without (Some 1) savingRead))
     = store savingRead \/
   exists i dfd key converted,
     OpDone 1 = OpDone i /\ tasks savingRead !! i = Some (TSaveWrite dfd key converted) /\
     store (rulesWritten 0 (Some 1) ["d.com##.ad"] (without (Some 1) savingRead))
       = <[key := converted]> (store savingRead)).
Proof.
  assert (step (OpDone 1) savingRead
            = Some (rulesWritten 0 (Some 1) ["d.com##.ad"] (without (Some 1) savingRead)))
    as H by (vm_compute; reflexivity).
  split; [exact H|].
  exact (store_is_written_by_saves_only (OpDone 1) savingRead _ H).
Defined.

Lemma stop_does_not_cancel_rebuild_witness :
  tasks compilingOnce !! 0
    = Some (TEngine None [(1, adsRules)] 2 (ruleLists [(1, adsRules)])) /\
  exists s', run [OpStop; OpEngineStarted 0] compilingOnce = Some s' /\
             isRunning s' = false /\
             getRequestFilter s' = {| handle := 2; getRulesCount := 2 |}.
Proof.
  assert (tasks compilingOnce !! 0
            = Some (TEngine None [(1, adsRules)] 2 (ruleLists [(1, adsRules)]))) as T
    by (vm_compute; reflexivity).
  split; [exact T|].
  destruct (stop_does_not_cancel_rebuild compilingOnce 0 None [(1, adsRules)] 2
              (ruleLists [(1, adsRules)]) T) as ((s' & R & A & F) & _).
  exists s'. split; [exact R|]. split; [exact A|]. rewrite F. vm_compute. reflexivity.
Defined.

Lemma restart_rebuilds_without_initializing_witness :
  isInitialized stopped = true /\ isRunning stopped = false /\
  groupsKnown (groups stopped) (filters stopped) = true /\
  start noInstallHook 8 stopped
    = Normal (spawn (TLoad (Some (CbUser 8)) [1; 0] [])
                (with_trace (trace stopped ++ readsOf [1; 0])
                   (with_applicationRunning true stopped))) /\
  initializations (trace (stateOf (start noInstallHook 8 stopped)))
    = initializations (trace stopped).
Proof.
  assert (isInitialized stopped = true) as I by (vm_compute; reflexivity).
  assert (isRunning stopped = false) as R by (vm_compute; reflexivity).
  assert (groupsKnown (groups stopped) (filters stopped) = true) as G
    by (vm_compute; reflexivity).
  split; [exact I|]. split; [exact R|]. split; [exact G|].
  destruct (restart_rebuilds_without_initializing noInstallHook 8 stopped I R G)
    as (A & B & _).
  split; [|exact B]. rewrite A. vm_compute. reflexivity.
Defined.

Lemma saved_text_reaches_engine_unchanged_witness :
  applyEvents (filterEventsHistory editsOfAds) (store editing !! Some 1)
    = Some ["b.com##.ad"; "c.com##.ad"] /\
  split (convertRules (join ["b.com##.ad"; "c.com##.ad"])) = ["b.com##.ad"; "c.com##.ad"] /\
  List.map l_rulesText
      (ruleLists [(1, split (convertRules (join ["b.com##.ad"; "c.com##.ad"])))])
    = [convertRules (join ["b.com##.ad"; "c.com##.ad"])].
Proof.
  assert (applyEvents (filterEventsHistory editsOfAds) (store editing !! Some 1)
            = Some ["b.com##.ad"; "c.com##.ad"]) as A by (vm_compute; reflexivity).
  split; [exact A|].
  destruct (saved_text_reaches_engine_unchanged 0 (Some 1) (filterEventsHistory editsOfAds)
              editing ["b.com##.ad"; "c.com##.ad"] A) as (_ & _ & _ & L & C).
  split; [|exact (L 1)].
  apply C; [reflexivity|discriminate|]. repeat constructor.
Defined.

Lemma reads_complete_in_any_order_witness :
  forallb isArrayIndex [1; 0] = true /\ [0; 1] ≡ₚ [1; 0] /\ [1; 0] <> [] /\
  tasks rebuilding = [] ++ [TLoad None [1; 0] []] /\
  run [OpReadDone 0 0; OpReadDone 0 1] rebuilding
    = Some (onFiltersLoadedFromStorage (loadedMap (store rebuilding) [1; 0] []) None
              (with_tasks [] rebuilding)) /\
  run [OpReadDone 0 0; OpReadDone 0 1] rebuilding
    = run [OpReadDone 0 1; OpReadDone 0 0] rebuilding.
Proof.
  assert ([0; 1] ≡ₚ [1; 0]) as P by apply perm_swap.
  assert ([1; 0] <> []) as N by discriminate.
  assert (tasks rebuilding = [] ++ [TLoad None [1; 0] []]) as T by (vm_compute; reflexivity).
  assert (forallb isArrayIndex [1; 0] = true) as F by (vm_compute; reflexivity).
  split; [exact F|]. split; [exact P|]. split; [exact N|]. split; [exact T|].
  split; [|vm_compute; reflexivity].
  exact (proj1 (reads_complete_in_any_order None [] [1; 0] [0; 1] [] rebuilding F P N T)).
Defined.

Lemma numeric_user_filter_id_is_never_announced_witness :
  USER_FILTER_ID = IdNumber 0 /\
  tasks userSaving !! 0 = Some (TSaveWrite 0 (Some 0) ["x.com##.ad"]) /\
  exists s', step (OpDone 0) userSaving = Some s' /\
             trace s' = trace userSaving /\ batchers s' = batchers userSaving /\
             store s' !! Some 0 = Some ["x.com##.ad"].
Proof.
  assert (USER_FILTER_ID = IdNumber 0) as U by reflexivity.
  assert (tasks userSaving !! 0 = Some (TSaveWrite 0 (Some 0) ["x.com##.ad"])) as T
    by (vm_compute; reflexivity).
  split; [exact U|]. split; [exact T|].
  destruct (numeric_user_filter_id_is_never_announced 0 0 0 (Some 0) ["x.com##.ad"]
              userSaving U T) as (s' & S & Tr & B & St & _).
  exists s'. split; [exact S|]. split; [exact Tr|]. split; [exact B|].
  rewrite St. apply lookup_insert_eq.
Defined.

Lemma string_user_filter_id_is_announced_witness :
  @USER_FILTER_ID stringIdCollaborators = IdString 0 /\
  tasks userSavingAsString !! 0 = Some (TSaveWrite 0 (Some 0) ["x.com##.ad"]) /\
  batchers userSavingAsString !! 0 = Some freshBatcher /\
  exists s' s2,
    @step stringIdCollaborators (OpDone 0) userSavingAsString = Some s' /\
    trace s' = trace userSavingAsString ++ [ENotify UPDATE_USER_FILTER_RULES (AInfo 2)] /\
    @step stringIdCollaborators (OpTimer 0) s' = Some s2 /\
    tasks s2 = tasks s' ++ [TThen []].
Proof.
  assert (@USER_FILTER_ID stringIdCollaborators = IdString 0) as U by reflexivity.
  assert (tasks userSavingAsString !! 0 = Some (TSaveWrite 0 (Some 0) ["x.com##.ad"])) as T
    by (vm_compute; reflexivity).
  assert (batchers userSavingAsString !! 0 = Some freshBatcher) as B
    by (vm_compute; reflexivity).
  split; [exact U|]. split; [exact T|]. split; [exact B|].
  destruct (@string_user_filter_id_is_announced stringIdCollaborators 0 0 0 (Some 0)
              ["x.com##.ad"] userSavingAsString 0 freshBatcher U T B)
    as (s' & S & _ & _ & A).
  destruct (A eq_refl) as (Tr & _ & F).
  destruct (F eq_refl) as (s2 & S2 & T2 & _).
  exists s', s2. split; [exact S|]. split; [|split; [exact S2|exact T2]].
  rewrite Tr. vm_compute. reflexivity.
Defined.

Lemma batch_reads_edited_filters_only_witness :
  batchers edited !! 0 = Some editsOfAds /\
  In (EStorageRead (Some 1)) (saveReads (eventsByFilter (filterEventsHistory editsOfAds))) /\
  ~ In (EStorageRead (Some 2)) (saveReads (eventsByFilter (filterEventsHistory editsOfAds))).
Proof.
  assert (batchers edited !! 0 = Some editsOfAds) as Hb by (vm_compute; reflexivity).
  split; [exact Hb|]. split.
  - apply (proj1 (batch_reads_edited_filters_only 0 edited editsOfAds (Some 1) Hb)).
    vm_compute. reflexivity.
  - intros I.
    apply (proj1 (batch_reads_edited_filters_only 0 edited editsOfAds (Some 2) Hb)) in I.
    vm_compute in I. discriminate I.
Defined.

Lemma editing_reachable : reachable editing.
Proof.
  apply (reachable_run [OpTimer 0] edited); [exact edited_reachable|].
  vm_compute. reflexivity.
Defined.

Lemma save_never_throws_witness :
  reachable editing /\
  tasks editing !! 0 = Some (TSaveRead 0 (Some 1) (filterEventsHistory editsOfAds)) /\
  exists content,
    applyEvents (filterEventsHistory editsOfAds) (store editing !! Some 1) = Some content /\
    step (OpDone 0) editing
      = Some (spawn (TSaveWrite 0 (Some 1) (split (convertRules (join content))))
                (emit (EStorageWrite (Some 1) (split (convertRules (join content))))
                   (emit (EConvertRules (join content)) (without (Some 0) editing)))).
Proof.
  assert (tasks editing !! 0 = Some (TSaveRead 0 (Some 1) (filterEventsHistory editsOfAds)))
    as T by (vm_compute; reflexivity).
  split; [exact editing_reachable|]. split; [exact T|].
  exact (proj2 (save_never_throws editing 0 0 (Some 1) (filterEventsHistory editsOfAds)
                  editing_reachable T)).
Defined.

Lemma saving_reachable : reachable saving.
Proof.
  apply (reachable_run (replaceAds ++ [OpTimer 0]) booted); [exact booted_reachable|].
  vm_compute. reflexivity.
Defined.

Lemma waiting_rebuild_is_not_stuck_witness :
  reachable saving /\ tasks saving !! 1 = Some (TThen [0]) /\
  step (OpDone 1) saving = None /\
  exists j t s', tasks saving !! j = Some t /\ dfdOf t = Some 0 /\
                 step (OpDone j) saving = Some s'.
Proof.
  assert (tasks saving !! 1 = Some (TThen [0])) as T by (vm_compute; reflexivity).
  split; [exact saving_reachable|]. split; [exact T|].
  destruct (waiting_rebuild_is_not_stuck saving 1 [0] saving_reachable T) as (F & P).
  split; [exact F|].
  destruct (P 0 (or_introl eq_refl)) as (j & t & s' & J & D & S & _).
  exists j, t, s'. split; [exact J|]. split; [exact D|exact S].
Defined.

Lemma listener_is_never_installed_late_witness :
  isInitialized strayBooted = true /\ owedListeners strayBooted = 0 /\
  run strayOps strayBooted = Some strayLater /\
  last (trace strayBooted) = Some EThrow /\
  isRunning strayLater = true /\
  batchers strayLater = [] /\ step (OpTimer 0) strayLater = None.
Proof.
  assert (isInitialized strayBooted = true) as A by (vm_compute; reflexivity).
  assert (owedListeners strayBooted = 0) as Z by (vm_compute; reflexivity).
  assert (run strayOps strayBooted = Some strayLater) as R by (vm_compute; reflexivity).
  split; [exact A|]. split; [exact Z|]. split; [exact R|].
  split; [vm_compute; reflexivity|]. split; [vm_compute; reflexivity|].
  destruct (listener_is_never_installed_late strayOps strayBooted strayLater A Z R)
    as (_ & B & _ & T).
  split; [exact B|exact (T 0)].
Defined.

Lemma rebuild_publishes_the_stored_rules_witness :
  applicationRunning booted = true /\
  groupsKnown (groups booted) (filters booted) = true /\
  exists s' lists,
    run [OpReadDone 0 1; OpReadDone 0 0; OpEngineStarted 0]
        (stateOf (createRequestFilter None booted)) = Some s' /\
    getRequestFilter s' = {| handle := 2; getRulesCount := engineRulesCount lists |} /\
    In {| l_filterId := 1; l_rulesText := join adsRules; l_ignoreCosmetic := false;
          l_ignoreJS := false |} lists /\
    forall l, In l lists -> l_filterId l = 1.
Proof.
  assert (applicationRunning booted = true) as R by (vm_compute; reflexivity).
  assert (groupsKnown (groups booted) (filters booted) = true) as G
    by (vm_compute; reflexivity).
  split; [exact R|]. split; [exact G|].
  destruct (rebuild_publishes_the_stored_rules None booted R G)
    as (s' & lists & H & F & _ & _ & L & _).
  exists s', lists. split; [rewrite <- H; vm_compute; reflexivity|]. split; [exact F|]. split.
  - apply L. exists 1, adsRules. split; [apply list_elem_of_In; vm_compute; tauto|].
    split; vm_compute; reflexivity.
  - assert (participating (groups booted) (filters booted) ++ [idValue USER_FILTER_ID] = [1; 0])
      as Ids by (vm_compute; reflexivity).
    assert (store booted !! Some 0 = None) as E0 by (vm_compute; reflexivity).
    intros l I. apply L in I as (id & lines & I & E & ->). simpl.
    rewrite Ids in I. apply list_elem_of_In in I. destruct I as [<-|[<-|[]]]; [reflexivity|].
    rewrite E0 in E. discriminate.
Defined.
